(** * Study Buddy backend: auth gate, rate limiter and tutor pipeline

  A shallow embedding of the three edge functions of the repository
  ([secure-auth], [get-students], [study-chat]) together with the
  properties stated about them.

  JavaScript strings are sequences of UTF-16 code units and are modelled
  as [list Z]; the in-memory [Map] of the rate limiter is a [gmap];
  [Date.now()], the data store, the random source and the AI gateway are
  inputs of the handlers. *)

From Stdlib Require Import ZArith List Lia Bool String Ascii.
From stdpp Require Import gmap list.
Import ListNotations.
Local Open Scope Z_scope.
Set Warnings "-register-all".

(* ===================================================================== *)
(** ** JavaScript values used by the handlers                             *)
(* ===================================================================== *)

Module JS.

(** A JavaScript string: its UTF-16 code units. *)
Abbreviation jsstring := (list Z).

Definition wf_unit (c : Z) : Prop := 0 <= c < 65536.
Definition wf_string (s : jsstring) : Prop := Forall wf_unit s.

(** A string literal of the source (ASCII only) as code units. *)
Fixpoint js (s : string) : jsstring :=
  match s with
  | EmptyString => []
  | String c rest => Z.of_nat (nat_of_ascii c) :: js rest
  end.

(** [ToInt32]: the wrap-around every bitwise operator applies. *)
Definition to_int32 (z : Z) : Z := (z + 2 ^ 31) mod 2 ^ 32 - 2 ^ 31.

(** A number that may be [NaN] ([None]); bitwise operators read [NaN] as 0. *)
Definition int32_of (x : option Z) : Z :=
  match x with
  | Some z => to_int32 z
  | None => 0
  end.

(** [x ^ y] and [x | y]. *)
Definition bxor (x y : option Z) : Z := to_int32 (Z.lxor (int32_of x) (int32_of y)).
Definition bor (x y : option Z) : Z := to_int32 (Z.lor (int32_of x) (int32_of y)).

(** [x || 0] on numbers: [NaN] and [0] are falsy. *)
Definition or_zero (x : option Z) : option Z :=
  match x with
  | Some z => Some z
  | None => Some 0
  end.

(** [s.charCodeAt(i)] for an integer index; [None] is [NaN]. *)
Definition charCodeAt (s : jsstring) (i : nat) : option Z := s !! i.

(** [s.charCodeAt(i % s.length)]: the index is [NaN] when [s] is empty,
    and [charCodeAt(NaN)] reads position 0. *)
Definition charCodeAt_mod (s : jsstring) (i : nat) : option Z :=
  match s with
  | [] => None
  | _ => s !! Nat.modulo i (List.length s)
  end.

(** [Math.ceil(x / d)] for integers [x] and a positive integer [d]
    (exact in double precision below 2^53). *)
Definition ceil_div (x d : Z) : Z := - ((- x) / d).

(** White space and line terminators removed by [String.prototype.trim]. *)
Definition is_ws (c : Z) : bool :=
  (9 <=? c) && (c <=? 13) || (c =? 32) || (c =? 160) || (c =? 5760)
  || (8192 <=? c) && (c <=? 8202) || (c =? 8232) || (c =? 8233)
  || (c =? 8239) || (c =? 8287) || (c =? 12288) || (c =? 65279).

Fixpoint trim_start (s : jsstring) : jsstring :=
  match s with
  | c :: rest => if is_ws c then trim_start rest else s
  | [] => []
  end.

Definition trim (s : jsstring) : jsstring :=
  rev (trim_start (rev (trim_start s))).

(** [s.split(sep)] for a one-unit separator: at least one field. *)
Fixpoint split (sep : Z) (s : jsstring) : list jsstring :=
  match s with
  | [] => [[]]
  | c :: rest =>
      if c =? sep then [] :: split sep rest
      else match split sep rest with
           | f :: fs => (c :: f) :: fs
           | [] => [[c]]
           end
  end.

(** [a.slice(-n)]: the last [n] elements, all of them when fewer. *)
Definition slice_last {A} (n : nat) (a : list A) : list A :=
  skipn (List.length a - n) a.

(** [s.slice(0, n)]. *)
Definition slice_first {A} (n : nat) (a : list A) : list A := firstn n a.

(** Does [p] start [s]? *)
Fixpoint starts_with (p s : jsstring) : bool :=
  match p, s with
  | [], _ => true
  | _ :: _, [] => false
  | x :: p', y :: s' => (x =? y) && starts_with p' s'
  end.

(** First occurrence of [p] in [s]: the text before it and the text
    after it. *)
Fixpoint find_sub (p s : jsstring) : option (jsstring * jsstring) :=
  if starts_with p s then Some ([], skipn (List.length p) s)
  else match s with
       | [] => None
       | c :: rest =>
           match find_sub p rest with
           | Some (before, after) => Some (c :: before, after)
           | None => None
           end
       end.

(** A literal in which an apostrophe stands for the double quote. *)
Definition quoted (s : string) : jsstring :=
  map (fun c => if c =? 39 then 34 else c) (js s).

(** [`${v}`] for a string that may be [undefined]. *)
Definition text_of (v : option jsstring) : jsstring :=
  match v with
  | Some s => s
  | None => js "undefined"
  end.

(** Truthiness of a string that may be absent. *)
Definition truthy (v : option jsstring) : bool :=
  match v with
  | Some (_ :: _) => true
  | _ => false
  end.

End JS.

(* ===================================================================== *)
(** ** Platform functions of the credential verifier                      *)
(* ===================================================================== *)

Module Platform.
Import JS.

(** [new TextEncoder().encode(s)]: UTF-8, a surrogate pair becomes one
    four-byte sequence and an unpaired surrogate becomes U+FFFD. *)
Definition is_high_surrogate (c : Z) : bool := (55296 <=? c) && (c <=? 56319).
Definition is_low_surrogate (c : Z) : bool := (56320 <=? c) && (c <=? 57343).

Definition utf8_of_code_point (p : Z) : list Z :=
  if p <? 128 then [p]
  else if p <? 2048 then [192 + p / 64; 128 + p mod 64]
  else if p <? 65536 then [224 + p / 4096; 128 + (p / 64) mod 64; 128 + p mod 64]
  else [240 + p / 262144; 128 + (p / 4096) mod 64; 128 + (p / 64) mod 64;
        128 + p mod 64].

Definition replacement_character : Z := 65533.

Fixpoint utf8_encode (s : jsstring) : list Z :=
  match s with
  | [] => []
  | c :: rest =>
      if is_high_surrogate c then
        match rest with
        | d :: rest' =>
            if is_low_surrogate d then
              utf8_of_code_point (65536 + (c - 55296) * 1024 + (d - 56320))
                ++ utf8_encode rest'
            else utf8_of_code_point replacement_character ++ utf8_encode rest
        | [] => utf8_of_code_point replacement_character
        end
      else if is_low_surrogate c then
        utf8_of_code_point replacement_character ++ utf8_encode rest
      else utf8_of_code_point c ++ utf8_encode rest
  end.

(** [crypto.subtle.digest('SHA-256', data)] on bytes, after FIPS 180-4. *)
Definition word (x : Z) : Z := x mod 2 ^ 32.
Definition plus32 (x y : Z) : Z := word (x + y).
Definition rotr (n x : Z) : Z := Z.lor (Z.shiftr x n) (word (Z.shiftl x (32 - n))).
Definition choose (x y z : Z) : Z :=
  Z.lxor (Z.land x y) (Z.land (Z.lxor x (2 ^ 32 - 1)) z).
Definition majority (x y z : Z) : Z :=
  Z.lxor (Z.lxor (Z.land x y) (Z.land x z)) (Z.land y z).
Definition big_sigma0 (x : Z) : Z := Z.lxor (Z.lxor (rotr 2 x) (rotr 13 x)) (rotr 22 x).
Definition big_sigma1 (x : Z) : Z := Z.lxor (Z.lxor (rotr 6 x) (rotr 11 x)) (rotr 25 x).
Definition small_sigma0 (x : Z) : Z := Z.lxor (Z.lxor (rotr 7 x) (rotr 18 x)) (Z.shiftr x 3).
Definition small_sigma1 (x : Z) : Z := Z.lxor (Z.lxor (rotr 17 x) (rotr 19 x)) (Z.shiftr x 10).

Definition round_constants : list Z :=
  [1116352408; 1899447441; 3049323471; 3921009573;
   961987163; 1508970993; 2453635748; 2870763221;
   3624381080; 310598401; 607225278; 1426881987;
   1925078388; 2162078206; 2614888103; 3248222580;
   3835390401; 4022224774; 264347078; 604807628;
   770255983; 1249150122; 1555081692; 1996064986;
   2554220882; 2821834349; 2952996808; 3210313671;
   3336571891; 3584528711; 113926993; 338241895;
   666307205; 773529912; 1294757372; 1396182291;
   1695183700; 1986661051; 2177026350; 2456956037;
   2730485921; 2820302411; 3259730800; 3345764771;
   3516065817; 3600352804; 4094571909; 275423344;
   430227734; 506948616; 659060556; 883997877;
   958139571; 1322822218; 1537002063; 1747873779;
   1955562222; 2024104815; 2227730452; 2361852424;
   2428436474; 2756734187; 3204031479; 3329325298].

Definition initial_hash : list Z :=
  [1779033703; 3144134277; 1013904242; 2773480762;
   1359893119; 2600822924; 528734635; 1541459225].

(** Padding: a 1 bit, zeros, and the bit length on 64 bits. *)
Definition be_bytes (n : nat) (x : Z) : list Z :=
  map (fun i => (x / 2 ^ (8 * Z.of_nat i)) mod 256) (rev (seq 0 n)).

Definition pad (msg : list Z) : list Z :=
  let len := Z.of_nat (List.length msg) in
  let zeros := Z.to_nat ((55 - len) mod 64) in
  msg ++ [128] ++ repeat 0 zeros ++ be_bytes 8 (8 * len).

Fixpoint be_words (n : nat) (bytes : list Z) : list Z :=
  match n with
  | O => []
  | S n' =>
      match bytes with
      | a :: b :: c :: d :: rest =>
          (((a * 256 + b) * 256 + c) * 256 + d) :: be_words n' rest
      | _ => []
      end
  end.

(** The message schedule, most recent word first. *)
Fixpoint extend_schedule (n : nat) (w : list Z) : list Z :=
  match n with
  | O => w
  | S n' =>
      let next :=
        plus32 (plus32 (small_sigma1 (nth 1 w 0)) (nth 6 w 0))
               (plus32 (small_sigma0 (nth 14 w 0)) (nth 15 w 0)) in
      extend_schedule n' (next :: w)
  end.

Definition schedule (block : list Z) : list Z :=
  rev (extend_schedule 48 (rev (be_words 16 block))).

Definition sha_round (st : list Z) (kw : Z * Z) : list Z :=
  match st with
  | [a; b; c; d; e; f; g; h] =>
      let t1 := plus32 (plus32 (plus32 h (big_sigma1 e)) (choose e f g))
                       (plus32 (fst kw) (snd kw)) in
      let t2 := plus32 (big_sigma0 a) (majority a b c) in
      [plus32 t1 t2; a; b; c; plus32 d t1; e; f; g]
  | _ => st
  end.

Definition compress (h : list Z) (block : list Z) : list Z :=
  let st := fold_left sha_round (combine round_constants (schedule block)) h in
  map (fun p => plus32 (fst p) (snd p)) (combine h st).

Fixpoint hash_blocks (n : nat) (h : list Z) (bytes : list Z) : list Z :=
  match n with
  | O => h
  | S n' => hash_blocks n' (compress h (firstn 64 bytes)) (skipn 64 bytes)
  end.

Definition sha256 (msg : list Z) : list Z :=
  let padded := pad msg in
  flat_map (be_bytes 4)
    (hash_blocks (Nat.div (List.length padded) 64) initial_hash padded).

(** [b.toString(16).padStart(2, '0')] for a byte. *)
Definition hex_digit (d : Z) : Z := if d <? 10 then 48 + d else 87 + d.
Definition hex_byte (b : Z) : jsstring := [hex_digit (b / 16); hex_digit (b mod 16)].
Definition hex (bytes : list Z) : jsstring := flat_map hex_byte bytes.

End Platform.

(* ===================================================================== *)
(** ** secure-auth: rate limiter                                          *)
(* ===================================================================== *)

Module SecureAuth.
Import JS Platform.

(** One entry of [loginAttempts]. *)
Record attempt_record := AttemptRecord {
  count : Z;
  lastAttempt : Z;
  blockedUntil : Z
}.

Abbreviation loginAttempts := (gmap (list Z) attempt_record).

Definition RATE_LIMIT_WINDOW : Z := 15 * 60 * 1000.
Definition MAX_ATTEMPTS : Z := 5.
Definition BLOCK_DURATION : Z := 30 * 60 * 1000.

Record rate_check := RateCheck {
  allowed : bool;
  waitSeconds : option Z
}.

(** [checkRateLimit(identifier)] at time [now]; the second component is
    the map after the call. *)
Definition checkRateLimit (now : Z) (identifier : jsstring) (m : loginAttempts)
  : rate_check * loginAttempts :=
  match m !! identifier with
  | None => (RateCheck true None, m)
  | Some record =>
      if blockedUntil record >? now then
        (RateCheck false (Some (ceil_div (blockedUntil record - now) 1000)), m)
      else if now - lastAttempt record >? RATE_LIMIT_WINDOW then
        (RateCheck true None, delete identifier m)
      else if count record >=? MAX_ATTEMPTS then
        (RateCheck false (Some (ceil_div BLOCK_DURATION 1000)),
         <[identifier := AttemptRecord (count record) (lastAttempt record)
                           (now + BLOCK_DURATION)]> m)
      else (RateCheck true None, m)
  end.

(** [recordAttempt(identifier, success)] at time [now]. *)
Definition recordAttempt (now : Z) (identifier : jsstring) (success : bool)
    (m : loginAttempts) : loginAttempts :=
  if success then delete identifier m
  else match m !! identifier with
       | None => <[identifier := AttemptRecord 1 now 0]> m
       | Some record =>
           <[identifier := AttemptRecord (count record + 1) now
                             (blockedUntil record)]> m
       end.

(** Failed attempts recorded one after the other at the given times. *)
Definition recordFailures (identifier : jsstring) (times : list Z)
    (m : loginAttempts) : loginAttempts :=
  fold_left (fun acc t => recordAttempt t identifier false acc) times m.

(** *** Credential verifier *)

(** [secureCompare(a, b)]. The loop of the length-mismatch branch is kept:
    its result is computed and dropped. *)
Definition secureCompare (a b : jsstring) : bool :=
  if negb (List.length a =? List.length b)%nat then
    let result :=
      fold_left
        (fun result i =>
           bor (Some result)
               (Some (bxor (or_zero (charCodeAt_mod a i))
                           (or_zero (charCodeAt_mod b i)))))
        (seq 0 (Nat.max (List.length a) (List.length b))) 0 in
    false
  else
    let result :=
      fold_left
        (fun result i =>
           bor (Some result) (Some (bxor (charCodeAt a i) (charCodeAt b i))))
        (seq 0 (List.length a)) 0 in
    result =? 0.

(** [Deno.env.get('SUPABASE_SERVICE_ROLE_KEY')?.slice(0, 32)] appended to
    the password: the text [undefined] when the variable is not set. *)
Definition secret_suffix (serviceRoleKey : option jsstring) : jsstring :=
  match serviceRoleKey with
  | Some key => slice_first 32 key
  | None => js "undefined"
  end.

Definition hashPassword (serviceRoleKey : option jsstring) (password : jsstring)
  : jsstring :=
  hex (sha256 (utf8_encode (password ++ secret_suffix serviceRoleKey))).

Definition verifyPassword (serviceRoleKey : option jsstring)
    (password storedHash : jsstring) : bool :=
  let inputHash := hashPassword serviceRoleKey password in
  secureCompare inputHash storedHash.

(** The password check of the login action, in both the admin and the
    school branch: both results are computed, then tested. *)
Definition passwordRejected (serviceRoleKey : option jsstring)
    (password password_hash : jsstring) : bool :=
  let isValidHash := verifyPassword serviceRoleKey password password_hash in
  let isLegacyPlainText := secureCompare password password_hash in
  negb isValidHash && negb isLegacyPlainText.

(** *** The login action *)

(** The result of [.maybeSingle()]: an error, or a row or [null]. *)
Inductive lookup (A : Type) : Type :=
| LookupError
| LookupData (row : option A).
Arguments LookupError {A}.
Arguments LookupData {A} row.

Record admin_row := AdminRow {
  admin_uuid : jsstring;
  admin_admin_id : jsstring;
  admin_name : jsstring;
  admin_role : jsstring;
  admin_password_hash : jsstring
}.

Record school_row := SchoolRow {
  school_uuid : jsstring;
  school_school_id : jsstring;
  school_name : jsstring;
  school_fee_paid : bool;
  school_is_banned : bool;
  school_password_hash : jsstring
}.

(** The data store as the login action queries it: the filter value of
    [.eq(column, value)] is sent as text. *)
Record database := Database {
  admins_by_admin_id : jsstring -> lookup admin_row;
  schools_by_school_id : jsstring -> lookup school_row
}.

Record login_request := LoginRequest {
  userType : jsstring;
  identifier : option jsstring;
  password : jsstring;
  x_forwarded_for : option jsstring;
  cf_connecting_ip : option jsstring
}.

Definition clientIp (req : login_request) : jsstring :=
  let forwarded :=
    match x_forwarded_for req with
    | Some v => Some (trim (hd [] (split 44 v)))
    | None => None
    end in
  if truthy forwarded then text_of forwarded
  else if truthy (cf_connecting_ip req) then text_of (cf_connecting_ip req)
  else js "unknown".

Definition rateLimitKey (req : login_request) : jsstring :=
  userType req ++ js ":"
    ++ (if truthy (identifier req) then text_of (identifier req) else clientIp req).

Inductive body :=
| Error (error : jsstring)
| RateLimited (wait : option Z)
| AdminUser (id name role adminId sessionToken : jsstring)
| SchoolUser (id schoolId name : jsstring) (feePaid : bool) (sessionToken : jsstring).

Record response := Response {
  status : Z;
  payload : body
}.

(** What a request does besides answering, in the order it does it. *)
Inductive effect :=
| SelectAdmin (admin_id : jsstring)
| SelectSchool (school_id : jsstring)
| VerifyPassword (password storedHash : jsstring)
| SecureCompare (a b : jsstring)
| RecordAttempt (key : jsstring) (success : bool)
| RandomUUID
| InsertLoginAttempt (identifier : option jsstring) (attempt_type ip : jsstring)
    (success : bool).

Record outcome := Outcome {
  answer : response;
  attempts : loginAttempts;
  effects : list effect
}.

Definition invalid_credentials : response := Response 401 (Error (js "Invalid credentials")).
Definition authentication_failed : response := Response 401 (Error (js "Authentication failed")).
Definition suspended : response :=
  Response 403 (Error (js "This school account has been suspended")).

(** The branch [action === "login"] of the handler. [now_check] and
    [now_record] are the values of [Date.now()] inside [checkRateLimit]
    and [recordAttempt]; [uuid] is what [crypto.randomUUID()] returns; the
    service role key is set, as the handler asserts. *)
Definition login (now_check now_record : Z) (serviceRoleKey : jsstring)
    (db : database) (uuid : jsstring) (req : login_request) (m : loginAttempts)
  : outcome :=
  let key := rateLimitKey req in
  let (rateCheck, m1) := checkRateLimit now_check key m in
  if negb (allowed rateCheck) then
    Outcome (Response 429 (RateLimited (waitSeconds rateCheck))) m1 []
  else if decide (userType req = js "admin") then
    let query := SelectAdmin (text_of (identifier req)) in
    match admins_by_admin_id db (text_of (identifier req)) with
    | LookupError =>
        Outcome authentication_failed (recordAttempt now_record key false m1)
          [query; RecordAttempt key false]
    | LookupData None =>
        Outcome invalid_credentials (recordAttempt now_record key false m1)
          [query; RecordAttempt key false]
    | LookupData (Some admin) =>
        let stored := admin_password_hash admin in
        let checks :=
          [query; VerifyPassword (password req) stored;
           SecureCompare (password req) stored] in
        if passwordRejected (Some serviceRoleKey) (password req) stored then
          Outcome invalid_credentials (recordAttempt now_record key false m1)
            (checks ++ [RecordAttempt key false])
        else
          Outcome
            (Response 200
               (AdminUser (admin_uuid admin) (admin_name admin) (admin_role admin)
                  (admin_admin_id admin) uuid))
            (recordAttempt now_record key true m1)
            (checks ++ [RecordAttempt key true; RandomUUID;
                        InsertLoginAttempt (identifier req) (js "admin")
                          (clientIp req) true])
    end
  else if decide (userType req = js "school") then
    let query := SelectSchool (text_of (identifier req)) in
    match schools_by_school_id db (text_of (identifier req)) with
    | LookupError =>
        Outcome authentication_failed (recordAttempt now_record key false m1)
          [query; RecordAttempt key false]
    | LookupData None =>
        Outcome invalid_credentials (recordAttempt now_record key false m1)
          [query; RecordAttempt key false]
    | LookupData (Some school) =>
        if school_is_banned school then Outcome suspended m1 [query]
        else
          let stored := school_password_hash school in
          let checks :=
            [query; VerifyPassword (password req) stored;
             SecureCompare (password req) stored] in
          if passwordRejected (Some serviceRoleKey) (password req) stored then
            Outcome invalid_credentials (recordAttempt now_record key false m1)
              (checks ++ [RecordAttempt key false])
          else
            Outcome
              (Response 200
                 (SchoolUser (school_uuid school) (school_school_id school)
                    (school_name school) (school_fee_paid school) uuid))
              (recordAttempt now_record key true m1)
              (checks ++ [RecordAttempt key true; RandomUUID;
                          InsertLoginAttempt (identifier req) (js "school")
                            (clientIp req) true])
    end
  else Outcome (Response 400 (Error (js "Invalid user type"))) m1 [].

End SecureAuth.

(* ===================================================================== *)
(** ** get-students: the admin branch                                     *)
(* ===================================================================== *)

Module GetStudents.
Import JS.

(** [.maybeSingle()] on [admins] filtered by [id], and the two list
    queries: an error, or rows that may be [null]. *)
Inductive single (A : Type) : Type :=
| SingleError
| SingleData (row : option A).
Arguments SingleError {A}.
Arguments SingleData {A} row.

Inductive rows (A : Type) : Type :=
| RowsError
| RowsData (data : option (list A)).
Arguments RowsError {A}.
Arguments RowsData {A} data.

Record admin := Admin {
  id : jsstring;
  name : jsstring;
  role : jsstring
}.

(** Rows of [students] and [schools] are passed through as they are. *)
Record database := Database {
  admins_by_id : jsstring -> single admin;
  all_students : rows jsstring;
  all_schools : rows jsstring
}.

Inductive body :=
| Error (error : jsstring)
| Listing (students schools : list jsstring).

Record response := Response {
  status : Z;
  payload : body
}.

(** A field of the request body: absent or [null], a string, or a value
    of another type (number, boolean, array, object). *)
Inductive field :=
| Absent
| Text (s : jsstring)
| NotText.

(** An expression that may throw a [TypeError]. *)
Inductive evaluated (A : Type) : Type :=
| TypeError
| Value (v : A).
Arguments TypeError {A}.
Arguments Value {A} v.

(** [session_token?.split('_')[1]]; [None] is [undefined], and a value
    that is not a string has no [split] to call. *)
Definition adminId (session_token : field) : evaluated (option jsstring) :=
  match session_token with
  | Absent => Value None
  | Text token => Value (split 95 token !! 1%nat)
  | NotText => TypeError
  end.

(** The filter value of [.eq('id', adminId)] as it is sent. *)
Definition filter_text (v : option jsstring) : jsstring :=
  match v with
  | Some s => s
  | None => js "undefined"
  end.

Definition or_empty {A} (data : option (list A)) : list A :=
  match data with
  | Some l => l
  | None => []
  end.

(** The session check of the admin branch: the answer that ends the
    request, or the admin row that lets it through. *)
Inductive gate :=
| Refused (r : response)
| Granted (a : admin).

Definition verify_admin (db : database) (session_token : field) : gate :=
  match adminId session_token with
  | TypeError => Refused (Response 500 (Error (js "Internal server error")))
  | Value id =>
      match admins_by_id db (filter_text id) with
      | SingleError | SingleData None =>
          Refused (Response 401 (Error (js "Invalid admin session")))
      | SingleData (Some admin) => Granted admin
      end
  end.

(** The branch [user_type === 'admin'] of the handler, inside its
    [try]. *)
Definition admin_branch (db : database) (session_token : field) : response :=
  match verify_admin db session_token with
  | Refused r => r
  | Granted admin =>
      match all_students db with
      | RowsError => Response 500 (Error (js "Failed to fetch students"))
      | RowsData students =>
          match all_schools db with
          | RowsError => Response 500 (Error (js "Failed to fetch schools"))
          | RowsData schools =>
              Response 200 (Listing (or_empty students) (or_empty schools))
          end
      end
  end.

(** The shape of [crypto.randomUUID()]: 36 units, hyphens at 8, 13, 18 and
    23, lower-case hexadecimal digits elsewhere. *)
Definition is_lower_hex (c : Z) : bool :=
  (48 <=? c) && (c <=? 57) || (97 <=? c) && (c <=? 102).

Fixpoint uuid_units (i : nat) (s : jsstring) : bool :=
  match s with
  | [] => true
  | c :: rest =>
      (if (i =? 8)%nat || (i =? 13)%nat || (i =? 18)%nat || (i =? 23)%nat
       then c =? 45 else is_lower_hex c)
      && uuid_units (S i) rest
  end.

Definition is_uuid (s : jsstring) : bool :=
  (List.length s =? 36)%nat && uuid_units 0 s.

End GetStudents.

(* ===================================================================== *)
(** ** JSON.parse                                                         *)
(* ===================================================================== *)

Module Json.
Import JS.

(** A parsed value. A number keeps its text; an object keeps its members
    in source order. *)
Inductive json :=
| JNull
| JBool (b : bool)
| JNumber (text : jsstring)
| JString (s : jsstring)
| JArray (items : list json)
| JObject (members : list (jsstring * json)).

(** [value.key] on a parsed value: the last member of that name wins. *)
Fixpoint last_member (key : jsstring) (members : list (jsstring * json))
  : option json :=
  match members with
  | [] => None
  | (k, v) :: rest =>
      match last_member key rest with
      | Some later => Some later
      | None => if decide (k = key) then Some v else None
      end
  end.

Definition property (key : jsstring) (v : json) : option json :=
  match v with
  | JObject members => last_member key members
  | _ => None
  end.

Definition is_json_ws (c : Z) : bool :=
  (c =? 32) || (c =? 9) || (c =? 10) || (c =? 13).

Fixpoint skip_ws (s : jsstring) : jsstring :=
  match s with
  | c :: rest => if is_json_ws c then skip_ws rest else s
  | [] => []
  end.

Definition is_digit (c : Z) : bool := (48 <=? c) && (c <=? 57).

Definition hex_value (c : Z) : option Z :=
  if is_digit c then Some (c - 48)
  else if (97 <=? c) && (c <=? 102) then Some (c - 87)
  else if (65 <=? c) && (c <=? 70) then Some (c - 55)
  else None.

(** The unit an escape [\c] stands for. *)
Definition escaped (c : Z) : option Z :=
  if c =? 34 then Some 34
  else if c =? 92 then Some 92
  else if c =? 47 then Some 47
  else if c =? 98 then Some 8
  else if c =? 102 then Some 12
  else if c =? 110 then Some 10
  else if c =? 114 then Some 13
  else if c =? 116 then Some 9
  else None.

(** The text of a string after its opening quote: the decoded units and
    what follows the closing quote. *)
Fixpoint string_body (s : jsstring) : option (jsstring * jsstring) :=
  match s with
  | [] => None
  | c :: rest =>
      if c =? 34 then Some ([], rest)
      else if c =? 92 then
        match rest with
        | [] => None
        | e :: rest1 =>
            if e =? 117 then
              match rest1 with
              | h1 :: h2 :: h3 :: h4 :: rest2 =>
                  match hex_value h1, hex_value h2, hex_value h3, hex_value h4 with
                  | Some a, Some b, Some c', Some d =>
                      match string_body rest2 with
                      | Some (units, after) =>
                          Some ((((a * 16 + b) * 16 + c') * 16 + d) :: units, after)
                      | None => None
                      end
                  | _, _, _, _ => None
                  end
              | _ => None
              end
            else
              match escaped e with
              | Some u =>
                  match string_body rest1 with
                  | Some (units, after) => Some (u :: units, after)
                  | None => None
                  end
              | None => None
              end
        end
      else if c <? 32 then None
      else
        match string_body rest with
        | Some (units, after) => Some (c :: units, after)
        | None => None
        end
  end.

Fixpoint digits (s : jsstring) : jsstring * jsstring :=
  match s with
  | c :: rest =>
      if is_digit c then let (d, r) := digits rest in (c :: d, r) else ([], s)
  | [] => ([], [])
  end.

Definition optional_sign (minus_only : bool) (s : jsstring) : jsstring * jsstring :=
  match s with
  | c :: rest =>
      if (c =? 45) || (negb minus_only && (c =? 43)) then ([c], rest) else ([], s)
  | [] => ([], [])
  end.

Definition integer_part (s : jsstring) : option (jsstring * jsstring) :=
  match s with
  | c :: rest =>
      if c =? 48 then Some ([c], rest)
      else if is_digit c then let (d, r) := digits rest in Some (c :: d, r)
      else None
  | [] => None
  end.

Definition fraction_part (s : jsstring) : option (jsstring * jsstring) :=
  match s with
  | c :: rest =>
      if c =? 46 then
        match digits rest with
        | ([], _) => None
        | (d, r) => Some (c :: d, r)
        end
      else Some ([], s)
  | [] => Some ([], [])
  end.

Definition exponent_part (s : jsstring) : option (jsstring * jsstring) :=
  match s with
  | c :: rest =>
      if (c =? 101) || (c =? 69) then
        let (sign, r1) := optional_sign false rest in
        match digits r1 with
        | ([], _) => None
        | (d, r) => Some (c :: sign ++ d, r)
        end
      else Some ([], s)
  | [] => Some ([], [])
  end.

Definition number (s : jsstring) : option (jsstring * jsstring) :=
  let (sign, s1) := optional_sign true s in
  match integer_part s1 with
  | None => None
  | Some (int, s2) =>
      match fraction_part s2 with
      | None => None
      | Some (frac, s3) =>
          match exponent_part s3 with
          | None => None
          | Some (ex, s4) => Some (sign ++ int ++ frac ++ ex, s4)
          end
      end
  end.

(** The result of a parser that runs on fuel. *)
Inductive parse (A : Type) : Type :=
| Parsed (v : A) (rest : jsstring)
| Malformed
| OutOfFuel.
Arguments Parsed {A} v rest.
Arguments Malformed {A}.
Arguments OutOfFuel {A}.

(** A value, the elements of an array after its bracket, and the members
    of an object after its brace. *)
Fixpoint value (fuel : nat) (s : jsstring) : parse json :=
  match fuel with
  | O => OutOfFuel
  | S fuel' =>
      match skip_ws s with
      | [] => Malformed
      | c :: rest =>
          if c =? 123 then
            match skip_ws rest with
            | [] => Malformed
            | c1 :: rest1 =>
                if c1 =? 125 then Parsed (JObject []) rest1
                else
                  match members fuel' rest with
                  | Parsed ms r => Parsed (JObject ms) r
                  | Malformed => Malformed
                  | OutOfFuel => OutOfFuel
                  end
            end
          else if c =? 91 then
            match skip_ws rest with
            | [] => Malformed
            | c1 :: rest1 =>
                if c1 =? 93 then Parsed (JArray []) rest1
                else
                  match elements fuel' rest with
                  | Parsed vs r => Parsed (JArray vs) r
                  | Malformed => Malformed
                  | OutOfFuel => OutOfFuel
                  end
            end
          else if c =? 34 then
            match string_body rest with
            | Some (units, r) => Parsed (JString units) r
            | None => Malformed
            end
          else if starts_with (js "true") (c :: rest) then
            Parsed (JBool true) (skipn 4 (c :: rest))
          else if starts_with (js "false") (c :: rest) then
            Parsed (JBool false) (skipn 5 (c :: rest))
          else if starts_with (js "null") (c :: rest) then
            Parsed JNull (skipn 4 (c :: rest))
          else
            match number (c :: rest) with
            | Some (text, r) => Parsed (JNumber text) r
            | None => Malformed
            end
      end
  end
with elements (fuel : nat) (s : jsstring) : parse (list json) :=
  match fuel with
  | O => OutOfFuel
  | S fuel' =>
      match value fuel' s with
      | Parsed v r =>
          match skip_ws r with
          | [] => Malformed
          | c :: r1 =>
              if c =? 44 then
                match elements fuel' r1 with
                | Parsed vs r2 => Parsed (v :: vs) r2
                | Malformed => Malformed
                | OutOfFuel => OutOfFuel
                end
              else if c =? 93 then Parsed [v] r1
              else Malformed
          end
      | Malformed => Malformed
      | OutOfFuel => OutOfFuel
      end
  end
with members (fuel : nat) (s : jsstring) : parse (list (jsstring * json)) :=
  match fuel with
  | O => OutOfFuel
  | S fuel' =>
      match skip_ws s with
      | [] => Malformed
      | c :: r =>
          if c =? 34 then
            match string_body r with
            | None => Malformed
            | Some (key, r1) =>
                match skip_ws r1 with
                | [] => Malformed
                | c2 :: r2 =>
                    if c2 =? 58 then
                      match value fuel' r2 with
                      | Parsed v r3 =>
                          match skip_ws r3 with
                          | [] => Malformed
                          | c3 :: r4 =>
                              if c3 =? 44 then
                                match members fuel' r4 with
                                | Parsed ms r5 => Parsed ((key, v) :: ms) r5
                                | Malformed => Malformed
                                | OutOfFuel => OutOfFuel
                                end
                              else if c3 =? 125 then Parsed [(key, v)] r4
                              else Malformed
                          end
                      | Malformed => Malformed
                      | OutOfFuel => OutOfFuel
                      end
                    else Malformed
                end
            end
          else Malformed
      end
  end.

(** Fuel that never runs out on [s]. *)
Definition enough (s : jsstring) : nat := S (2 * List.length s).

(** [JSON.parse(s)]: [None] when it throws. *)
Definition JSON_parse (s : jsstring) : option json :=
  match value (enough s) s with
  | Parsed v rest =>
      match skip_ws rest with
      | [] => Some v
      | _ :: _ => None
      end
  | Malformed | OutOfFuel => None
  end.

End Json.

(* ===================================================================== *)
(** ** study-chat: transcript, model calls and analysis block             *)
(* ===================================================================== *)

Module StudyChat.
Import JS Json.

Record ChatMessage := Chat {
  role : jsstring;
  content : jsstring;
  imageUrl : option jsstring
}.

Inductive part :=
| Text (text : jsstring)
| ImageUrl (url : jsstring).

Inductive message_content :=
| Plain (text : jsstring)
| Parts (parts : list part).

Record AIMessage := AI {
  ai_role : jsstring;
  ai_content : message_content
}.

(** What the loop pushes for one transcript entry. *)
Definition forward (msg : ChatMessage) : AIMessage :=
  if truthy (imageUrl msg) then
    AI (role msg)
       (Parts [Text (match content msg with
                     | [] => js "Please analyze this image from my study materials."
                     | _ :: _ => content msg
                     end);
               ImageUrl (text_of (imageUrl msg))])
  else AI (role msg) (Plain (content msg)).

(** [chatMessages] once the history is added; [system] is the system
    prompt with the analysis instruction, [None] a [messages] field that
    is not an array. *)
Definition chatMessages (system : jsstring) (messages : option (list ChatMessage))
  : list AIMessage :=
  AI (js "system") (Plain system)
    :: match messages with
       | Some transcript => map forward (slice_last 6 transcript)
       | None => []
       end.

Definition PRIMARY_MODEL : jsstring := js "google/gemini-3-flash-preview".
Definition FALLBACK_MODEL : jsstring := js "google/gemini-2.5-flash".

(** The gateway's answer to one request: a status that is not OK, or the
    field [choices[0].message.content] of the body, [None] when it is
    missing or not a string. *)
Inductive completion :=
| Failed (status : Z)
| Completed (content : option jsstring).

Abbreviation gateway := (jsstring -> list AIMessage -> completion).

(** The two errors the handler throws itself. *)
Inductive chat_error :=
| AIServiceError (status : Z)
| NoResponseFromAI.

(** The body of an answer: an error of the gateway passed on, the answer of
    the [catch] block, or the reply. The field [studentHistory] of a reply
    comes from the data store and is left out. *)
Inductive body :=
| Error (error : jsstring)
| Failure (error : chat_error)
| Reply (response : jsstring) (sessionAnalysis : option json).

Record response := Response {
  status : Z;
  payload : body
}.

Inductive call_result :=
| Returned (r : response)
| Thrown (e : chat_error)
| Data (content : option jsstring).

Definition callLovableAI (ai : gateway) (messages : list AIMessage) (model : jsstring)
  : call_result :=
  match ai model messages with
  | Failed st =>
      if st =? 429 then
        Returned (Response 429
                    (Error (js "Rate limit exceeded. Please try again in a moment.")))
      else if st =? 402 then
        Returned (Response 402
                    (Error (js "AI credits exhausted. Please add credits to continue.")))
      else Thrown (AIServiceError st)
  | Completed content => Data content
  end.

(** [typeof aiResponse !== "string" || aiResponse.trim().length === 0]. *)
Definition blank (aiResponse : option jsstring) : bool :=
  match aiResponse with
  | None => true
  | Some text => (List.length (trim text) =? 0)%nat
  end.

Definition OPEN : jsstring := js "[ANALYSIS]".
Definition CLOSE : jsstring := js "[/ANALYSIS]".

(** The first match of the analysis pattern, lazy and across lines: the
    text before the block, the captured group, the text after the block. *)
Definition analysisMatch (aiResponse : jsstring)
  : option (jsstring * jsstring * jsstring) :=
  match find_sub OPEN aiResponse with
  | None => None
  | Some (before, opened) =>
      match find_sub CLOSE opened with
      | None => None
      | Some (group, after) => Some (before, group, after)
      end
  end.

(** The visible reply and [sessionAnalysis]. *)
Definition extractAnalysis (analyzeSession : bool) (aiResponse : jsstring)
  : jsstring * option json :=
  if analyzeSession then
    match analysisMatch aiResponse with
    | Some (before, group, after) =>
        match JSON_parse group with
        | Some parsed => (trim (before ++ after), Some parsed)
        | None => (aiResponse, None)
        end
    | None => (aiResponse, None)
    end
  else (aiResponse, None).

Record outcome := Outcome {
  answer : response;
  calls : list (jsstring * list AIMessage)
}.

Definition failure (e : chat_error) : response := Response 500 (Failure e).

Definition reply (analyzeSession : bool) (aiResponse : jsstring) : response :=
  let (visible, sessionAnalysis) := extractAnalysis analyzeSession aiResponse in
  Response 200 (Reply visible sessionAnalysis).

(** The handler from the point where the messages array is built. *)
Definition respond (ai : gateway) (system : jsstring)
    (messages : option (list ChatMessage)) (analyzeSession : bool) : outcome :=
  let sent := chatMessages system messages in
  let first := (PRIMARY_MODEL, sent) in
  let second := (FALLBACK_MODEL, sent) in
  match callLovableAI ai sent PRIMARY_MODEL with
  | Returned r => Outcome r [first]
  | Thrown e => Outcome (failure e) [first]
  | Data aiResponse =>
      if blank aiResponse then
        match callLovableAI ai sent FALLBACK_MODEL with
        | Returned r => Outcome r [first; second]
        | Thrown e => Outcome (failure e) [first; second]
        | Data aiResponse2 =>
            if blank aiResponse2 then Outcome (failure NoResponseFromAI) [first; second]
            else Outcome (reply analyzeSession (text_of aiResponse2)) [first; second]
        end
      else Outcome (reply analyzeSession (text_of aiResponse)) [first]
  end.

End StudyChat.

(* ===================================================================== *)
(** ** Histories of calls, used to state the properties                   *)
(* ===================================================================== *)

Module History.
Import JS SecureAuth.

(** One use of the limiter: a check, a recorded failure, or a whole login
    request. *)
Inductive event :=
| Checked (now : Z) (identifier : jsstring)
| FailureRecorded (now : Z) (identifier : jsstring)
| LoginRequested (now_check now_record : Z) (serviceRoleKey : jsstring)
    (db : database) (uuid : jsstring) (req : login_request).

(** The time at which the event reads the limiter. *)
Definition time_of (e : event) : Z :=
  match e with
  | Checked now _ => now
  | FailureRecorded now _ => now
  | LoginRequested now_check _ _ _ _ _ => now_check
  end.

Definition step (m : loginAttempts) (e : event) : loginAttempts :=
  match e with
  | Checked now identifier => snd (checkRateLimit now identifier m)
  | FailureRecorded now identifier => recordAttempt now identifier false m
  | LoginRequested now_check now_record key db uuid req =>
      attempts (login now_check now_record key db uuid req m)
  end.

Definition run (events : list event) (m : loginAttempts) : loginAttempts :=
  fold_left step events m.

(** How a principal lookup can come back empty. *)
Inductive miss :=
| NoRow
| LookupFailed.

Definition miss_result {A} (o : miss) : lookup A :=
  match o with
  | NoRow => LookupData None
  | LookupFailed => LookupError
  end.

(** The lookup of the login action comes back as [o]. *)
Definition lookup_misses (db : database) (req : login_request) (o : miss) : Prop :=
  (userType req = js "admin"
   /\ admins_by_admin_id db (text_of (identifier req)) = miss_result o)
  \/ (userType req = js "school"
      /\ schools_by_school_id db (text_of (identifier req)) = miss_result o).

(** The row of the principal exists, is not suspended, and the password
    check rejects the password of the request. *)
Definition wrong_password (serviceRoleKey : jsstring) (db : database)
    (req : login_request) : Prop :=
  (userType req = js "admin"
   /\ exists admin,
        admins_by_admin_id db (text_of (identifier req)) = LookupData (Some admin)
        /\ passwordRejected (Some serviceRoleKey) (password req)
             (admin_password_hash admin) = true)
  \/ (userType req = js "school"
      /\ exists school,
           schools_by_school_id db (text_of (identifier req)) = LookupData (Some school)
           /\ school_is_banned school = false
           /\ passwordRejected (Some serviceRoleKey) (password req)
                (school_password_hash school) = true).

(** A login request for [id] that fails on its merits: the lookup misses
    or the password is wrong. *)
Definition failing_login (id : jsstring) (e : event) : Prop :=
  match e with
  | LoginRequested _ _ key db _ req =>
      rateLimitKey req = id
      /\ ((exists o, lookup_misses db req o) \/ wrong_password key db req)
  | _ => False
  end.

(** Both clock readings of the event lie between [lo] and [hi]. *)
Definition within (lo hi : Z) (e : event) : Prop :=
  match e with
  | Checked now _ | FailureRecorded now _ => lo <= now <= hi
  | LoginRequested now_check now_record _ _ _ _ =>
      lo <= now_check <= hi /\ lo <= now_record <= hi
  end.

(** How many of the calls of a chat request went to [model]. *)
Definition calls_to (model : jsstring) (out : StudyChat.outcome) : nat :=
  List.length (filter (fun call => fst call = model) (StudyChat.calls out)).

(** A gateway whose primary model answers [first] and whose other model
    answers [second]. *)
Definition scripted (first second : StudyChat.completion) : StudyChat.gateway :=
  fun model _ =>
    if decide (model = StudyChat.PRIMARY_MODEL) then first else second.

(** An [admins] table with the single row [a]. *)
Definition one_admin (a : GetStudents.admin) : GetStudents.database :=
  GetStudents.Database
    (fun v => if decide (v = GetStudents.id a)
              then GetStudents.SingleData (Some a)
              else GetStudents.SingleData None)
    (GetStudents.RowsData (Some []))
    (GetStudents.RowsData (Some [])).

End History.

(* ===================================================================== *)
(** ** Chains of failed logins                                            *)
(* ===================================================================== *)

Module Timeline.
Import JS SecureAuth History.

(** The time at which the event writes to the limiter. *)
Definition record_time (e : event) : Z :=
  match e with
  | Checked now _ => now
  | FailureRecorded now _ => now
  | LoginRequested _ now_record _ _ _ _ => now_record
  end.

(** Failing logins for [id], each one no more than a window after the
    attempt recorded before it; [prev] is the time of that attempt. *)
Fixpoint chained (id : jsstring) (prev : Z) (events : list event) : Prop :=
  match events with
  | [] => True
  | e :: rest =>
      failing_login id e
      /\ within prev (prev + RATE_LIMIT_WINDOW) e
      /\ chained id (record_time e) rest
  end.

End Timeline.

(* ===================================================================== *)
(** ** Verdicts on a login, used to state the properties                  *)
(* ===================================================================== *)

Module Verdicts.
Import JS SecureAuth.

(** The row of the principal exists, is not suspended, and the password
    check accepts the password of the request. *)
Definition right_password (serviceRoleKey : jsstring) (db : database)
    (req : login_request) : Prop :=
  (userType req = js "admin"
   /\ exists admin,
        admins_by_admin_id db (text_of (identifier req)) = LookupData (Some admin)
        /\ passwordRejected (Some serviceRoleKey) (password req)
             (admin_password_hash admin) = false)
  \/ (userType req = js "school"
      /\ exists school,
           schools_by_school_id db (text_of (identifier req)) = LookupData (Some school)
           /\ school_is_banned school = false
           /\ passwordRejected (Some serviceRoleKey) (password req)
                (school_password_hash school) = false).

(** The session token of a successful answer. *)
Definition token_of (b : body) : option jsstring :=
  match b with
  | AdminUser _ _ _ _ sessionToken => Some sessionToken
  | SchoolUser _ _ _ _ sessionToken => Some sessionToken
  | _ => None
  end.

(** The attempts a request records, in order. *)
Definition recorded (effects : list effect) : list (jsstring * bool) :=
  flat_map (fun e => match e with
                     | RecordAttempt key success => [(key, success)]
                     | _ => []
                     end) effects.

End Verdicts.

(* ===================================================================== *)
(** ** secure-auth: credentials and the management actions                *)
(* ===================================================================== *)

Module Provisioning.
Import JS Platform SecureAuth.

Definition chars : jsstring :=
  js "ABCDEFGHJKLMNPQRSTUVWXYZabcdefghjkmnpqrstuvwxyz23456789".
Definition idLength : nat := 12.
Definition passLength : nat := 16.

(** [chars[randomBytes[i] % chars.length]] as it is appended to a string:
    an index that is out of range or [NaN] reads [undefined]. *)
Definition pick (randomBytes : list Z) (i : nat) : jsstring :=
  match randomBytes !! i with
  | Some b =>
      let index := Z.rem b (Z.of_nat (List.length chars)) in
      match (if 0 <=? index then chars !! Z.to_nat index else None) with
      | Some c => [c]
      | None => js "undefined"
      end
  | None => js "undefined"
  end.

(** [generateSecureCredentials()]; [randomBytes] is the array filled by
    [crypto.getRandomValues]. *)
Definition generateSecureCredentials (randomBytes : list Z) : jsstring * jsstring :=
  let id :=
    fold_left (fun id i => id ++ pick randomBytes i) (seq 0 idLength) (js "SCH_") in
  let password :=
    fold_left (fun password i => password ++ pick randomBytes (idLength + i))
      (seq 0 passLength) [] in
  (id, password).

(** [adminCredentials] of the request body. *)
Record admin_credentials := AdminCredentials {
  adminId : option jsstring;
  sessionToken : option jsstring
}.

(** [schoolData] as [create_school] reads it. *)
Record school_data := SchoolData {
  name : option jsstring;
  district : option jsstring;
  state : option jsstring;
  email : option jsstring;
  contact_whatsapp : option jsstring
}.

(** The row [create_school] inserts; [None] is [null], or [undefined]
    for the name. *)
Record school_insert := SchoolInsert {
  ins_school_id : jsstring;
  ins_password_hash : jsstring;
  ins_name : option jsstring;
  ins_district : option jsstring;
  ins_state : option jsstring;
  ins_email : option jsstring;
  ins_contact_whatsapp : option jsstring
}.

(** [v || null]. *)
Definition or_null (v : option jsstring) : option jsstring :=
  if truthy v then v else None.

(** A query or a write: the error message, or the data returned. *)
Inductive queried (A : Type) : Type :=
| QueryError (message : jsstring)
| QueryData (data : A).
Arguments QueryError {A} message.
Arguments QueryData {A} data.

(** The data store as the management actions use it; rows and the
    [updates] object are passed through as they are. *)
Record store := Store {
  admins_by_id : jsstring -> lookup jsstring;
  insert_school : school_insert -> queried jsstring;
  update_school_row : jsstring -> jsstring -> queried unit;
  delete_school_row : jsstring -> queried unit;
  students_by_school : jsstring -> queried (list jsstring)
}.

Inductive body :=
| Error (error : jsstring)
| Created (school id password : jsstring)
| Success
| Students (students : list jsstring).

Record response := Response {
  status : Z;
  payload : body
}.

Inductive effect :=
| SelectAdminId (id : jsstring)
| RandomBytes
| HashPassword (password : jsstring)
| InsertSchool (row : school_insert)
| UpdateSchool (id updates : jsstring)
| DeleteSchool (id : jsstring)
| SelectStudents (school_id : jsstring).

Record outcome := Outcome {
  answer : response;
  effects : list effect
}.

(** The [catch] block of the handler. *)
Definition internal_error : response := Response 500 (Error (js "Internal server error")).

(** The admin check shared by the three school actions: the answer that
    ends the request, with its effects, or the effects so far. *)
Definition admin_check (st : store) (credentials : option admin_credentials)
  : outcome + list effect :=
  let given field :=
    match credentials with
    | Some c => field c
    | None => None
    end in
  if negb (truthy (given adminId)) || negb (truthy (given sessionToken)) then
    inl (Outcome (Response 401 (Error (js "Admin authentication required"))) [])
  else
    let query := SelectAdminId (text_of (given adminId)) in
    match admins_by_id st (text_of (given adminId)) with
    | LookupData (Some admin) => inr [query]
    | LookupData None | LookupError =>
        inl (Outcome (Response 401 (Error (js "Invalid admin session"))) [query])
    end.

(** [action === "create_school"]; [schoolData] absent makes
    [schoolData.name] throw. *)
Definition create_school (serviceRoleKey : jsstring) (st : store)
    (randomBytes : list Z) (credentials : option admin_credentials)
    (schoolData : option school_data) : outcome :=
  match admin_check st credentials with
  | inl refused => refused
  | inr checked =>
      let (id, password) := generateSecureCredentials randomBytes in
      let hashedPassword := hashPassword (Some serviceRoleKey) password in
      let drawn := checked ++ [RandomBytes; HashPassword password] in
      match schoolData with
      | None => Outcome internal_error drawn
      | Some data =>
          let row :=
            SchoolInsert id hashedPassword (name data) (or_null (district data))
              (or_null (state data)) (or_null (email data))
              (or_null (contact_whatsapp data)) in
          match insert_school st row with
          | QueryError message =>
              Outcome (Response 400 (Error message)) (drawn ++ [InsertSchool row])
          | QueryData newSchool =>
              Outcome (Response 200 (Created newSchool id password))
                (drawn ++ [InsertSchool row])
          end
      end
  end.

(** [schoolData] as [update_school] and [delete_school] read it. *)
Record school_change := SchoolChange {
  schoolId : option jsstring;
  updates : jsstring
}.

(** [action === "update_school"]. *)
Definition update_school (st : store) (credentials : option admin_credentials)
    (schoolData : option school_change) : outcome :=
  match admin_check st credentials with
  | inl refused => refused
  | inr checked =>
      match schoolData with
      | None => Outcome internal_error checked
      | Some change =>
          let write := UpdateSchool (text_of (schoolId change)) (updates change) in
          match update_school_row st (text_of (schoolId change)) (updates change) with
          | QueryError message =>
              Outcome (Response 400 (Error message)) (checked ++ [write])
          | QueryData _ => Outcome (Response 200 Success) (checked ++ [write])
          end
      end
  end.

(** [action === "delete_school"]. *)
Definition delete_school (st : store) (credentials : option admin_credentials)
    (schoolData : option school_change) : outcome :=
  match admin_check st credentials with
  | inl refused => refused
  | inr checked =>
      match schoolData with
      | None => Outcome internal_error checked
      | Some change =>
          let write := DeleteSchool (text_of (schoolId change)) in
          match delete_school_row st (text_of (schoolId change)) with
          | QueryError message =>
              Outcome (Response 400 (Error message)) (checked ++ [write])
          | QueryData _ => Outcome (Response 200 Success) (checked ++ [write])
          end
      end
  end.

(** [schoolData] as [get_students_for_school] reads it. *)
Record school_session := SchoolSession {
  schoolUuid : option jsstring;
  schoolToken : option jsstring
}.

(** [action === "get_students_for_school"]. *)
Definition get_students_for_school (st : store)
    (schoolData : option school_session) : outcome :=
  match schoolData with
  | None => Outcome internal_error []
  | Some session =>
      if negb (truthy (schoolUuid session)) || negb (truthy (schoolToken session)) then
        Outcome (Response 401 (Error (js "School authentication required"))) []
      else
        let query := SelectStudents (text_of (schoolUuid session)) in
        match students_by_school st (text_of (schoolUuid session)) with
        | QueryError message => Outcome (Response 400 (Error message)) [query]
        | QueryData students => Outcome (Response 200 (Students students)) [query]
        end
  end.

(** The character a random byte stands for. *)
Definition letter (b : Z) : Z :=
  nth (Z.to_nat (Z.rem b (Z.of_nat (List.length chars)))) chars 0.

(** How many of the 256 byte values stand for the character [c]. *)
Definition draws_of (c : Z) : nat :=
  List.length (List.filter (fun b => letter b =? c) (map Z.of_nat (seq 0 256))).

End Provisioning.

(* ===================================================================== *)
(** ** get-students: the school branch and the dispatch                   *)
(* ===================================================================== *)

Module GetStudentsSchool.
Import JS.

Record school := School {
  id : jsstring;
  name : jsstring;
  is_banned : bool;
  fee_paid : bool
}.

(** A row of [students]: its [id] and the rest of it, passed through. *)
Record student := Student {
  student_id : jsstring;
  student_row : jsstring
}.

(** The three queries of the school branch. The students query already
    filters on [school_id] and [is_banned = false]; the sessions query gives
    only its data, [None] when it is [null]. *)
Record database := Database {
  schools_by_id : jsstring -> GetStudents.single school;
  students_of_school : jsstring -> GetStudents.rows student;
  sessions_of_student : jsstring -> option (list jsstring)
}.

Inductive body :=
| Error (error : jsstring)
| Listing (students : list (student * list jsstring)) (of_school : school).

Record response := Response {
  status : Z;
  payload : body
}.

(** The branch [user_type === 'school']. *)
Definition school_branch (db : database) (school_id : option jsstring) : response :=
  match schools_by_id db (GetStudents.filter_text school_id) with
  | GetStudents.SingleError | GetStudents.SingleData None =>
      Response 401 (Error (js "Invalid school session"))
  | GetStudents.SingleData (Some school) =>
      if is_banned school then Response 403 (Error (js "School is banned"))
      else
        match students_of_school db (GetStudents.filter_text school_id) with
        | GetStudents.RowsError => Response 500 (Error (js "Failed to fetch students"))
        | GetStudents.RowsData students =>
            Response 200
              (Listing
                 (map (fun student =>
                         (student,
                          GetStudents.or_empty
                            (sessions_of_student db (student_id student))))
                    (GetStudents.or_empty students))
                 school)
        end
  end.

(** The body of the handler inside its [try]: the answer of the school
    branch or of the admin branch. *)
Definition handle (db : database) (admins : GetStudents.database)
    (user_type : GetStudents.field) (school_id : option jsstring)
    (session_token : GetStudents.field) : response + GetStudents.response :=
  match user_type with
  | GetStudents.Text type =>
      if decide (type = js "school") then inl (school_branch db school_id)
      else if decide (type = js "admin") then
        inr (GetStudents.admin_branch admins session_token)
      else inl (Response 400 (Error (js "Invalid user type")))
  | _ => inl (Response 400 (Error (js "Invalid user type")))
  end.

End GetStudentsSchool.

(* ===================================================================== *)
(** ** study-chat: the limiter of the chat and the student's history      *)
(* ===================================================================== *)

Module ChatFront.
Import JS.

(** One entry of [rateLimits]. *)
Record limit := Limit {
  count : Z;
  resetAt : Z
}.

Abbreviation rateLimits := (gmap (list Z) limit).

(** [checkRateLimit(userId, maxRequests, windowMs)] at time [now]. *)
Definition checkRateLimit (now : Z) (userId : jsstring) (maxRequests windowMs : Z)
    (m : rateLimits) : bool * rateLimits :=
  let key := js "chat:" ++ userId in
  match m !! key with
  | None => (true, <[key := Limit 1 (now + windowMs)]> m)
  | Some limit =>
      if now >? resetAt limit then (true, <[key := Limit 1 (now + windowMs)]> m)
      else if count limit >=? maxRequests then (false, m)
      else (true, <[key := Limit (count limit + 1) (resetAt limit)]> m)
  end.

(** The default arguments of [checkRateLimit]. *)
Definition maxRequests : Z := 30.
Definition windowMs : Z := 60000.



(** Requests of one student, one after the other at the given times: the
    answers of the limiter and the map at the end. *)
Fixpoint requests (userId : jsstring) (times : list Z) (m : rateLimits)
  : list bool * rateLimits :=
  match times with
  | [] => ([], m)
  | now :: later =>
      let (ok, m1) := checkRateLimit now userId maxRequests windowMs m in
      let (oks, m2) := requests userId later m1 in
      (ok :: oks, m2)
  end.

(** Requests of any students at any times: the map at the end. *)
Definition serve (calls : list (jsstring * Z)) (m : rateLimits) : rateLimits :=
  fold_left
    (fun acc call => snd (checkRateLimit (snd call) (fst call) maxRequests windowMs acc))
    calls m.

(** A row of [study_sessions] as the handler reads it; [None] is [null]. *)
Record session := Session {
  topic : option jsstring;
  weak_areas : option (list jsstring);
  strong_areas : option (list jsstring)
}.

(** [set.add(x)] on a [Set], kept as the list of its elements in
    insertion order. *)
Definition add {A} `{EqDecision A} (set : list A) (x : A) : list A :=
  if decide (x ∈ set) then set else set ++ [x].

(** [new Set(items)]. *)
Definition set_of {A} `{EqDecision A} (items : list A) : list A :=
  fold_left add items [].

Definition or_empty {A} (data : option (list A)) : list A :=
  match data with
  | Some l => l
  | None => []
  end.

(** The weak (or strong) areas of the sessions, each once, the first
    five. *)
Definition areas (column : session -> option (list jsstring))
    (sessions : list session) : list jsstring :=
  take 5 (fold_left (fun set s => fold_left add (or_empty (column s)) set) sessions []).

Definition weakAreas (sessions : list session) : list jsstring :=
  areas weak_areas sessions.
Definition strongAreas (sessions : list session) : list jsstring :=
  areas strong_areas sessions.

(** [recentTopics] of [buildSystemPrompt]. *)
Definition recentTopics (pastSessions : list session) : list (option jsstring) :=
  take 5 (set_of (map topic (take 10 pastSessions))).

(** [studentHistory.recentTopics] of the answer. *)
Definition historyTopics (pastSessions : list session) : list (option jsstring) :=
  map topic (take 5 pastSessions).

End ChatFront.

(** * The speech hook: text cut into chunks                               *)

Module Speech.
Import JS.

(** The class [[.!?।]] of the pattern that separates sentences. *)
Definition ends_sentence (c : Z) : bool :=
  (c =? 46) || (c =? 33) || (c =? 63) || (c =? 2404).

(** [text.split(/(?<=[.!?।])\s+/)] read from left to right. A separator is
    a run of white space that follows a sentence end; it starts at the
    first white space after the end ([after_end]) and takes every white
    space that follows ([in_gap]). The head of the result is the field that
    is open at this point; a text that ends in a separator has an empty
    last field. *)
Fixpoint split_sentences (after_end in_gap : bool) (s : jsstring) : list jsstring :=
  match s with
  | [] => [[]]
  | c :: rest =>
      if is_ws c && (in_gap || after_end) then
        if in_gap then split_sentences false true rest
        else [] :: split_sentences false true rest
      else
        match split_sentences (ends_sentence c) false rest with
        | field :: fields => (c :: field) :: fields
        | [] => [[c]]
        end
  end.

Definition sentences (text : jsstring) : list jsstring :=
  split_sentences false false text.

(** Truthiness of a string. *)
Definition filled (s : jsstring) : bool :=
  match s with
  | [] => false
  | _ :: _ => true
  end.

(** [if (currentChunk) chunks.push(currentChunk)]. *)
Definition push (chunks : list jsstring) (currentChunk : jsstring) : list jsstring :=
  if filled currentChunk then chunks ++ [currentChunk] else chunks.

(** One round of the loop over the sentences; the state is [chunks] and
    [currentChunk]. *)
Definition pack (maxLength : Z) (state : list jsstring * jsstring) (sentence : jsstring)
  : list jsstring * jsstring :=
  let joined := trim (snd state ++ js " " ++ sentence) in
  if Z.of_nat (List.length joined) <=? maxLength then (fst state, joined)
  else (push (fst state) (snd state), sentence).

Definition splitTextIntoChunks (text : jsstring) (maxLength : Z) : list jsstring :=
  if Z.of_nat (List.length text) <=? maxLength then [text]
  else
    let state := fold_left (pack maxLength) (sentences text) ([], []) in
    push (fst state) (snd state).

(** The default of [maxLength]. *)
Definition defaultMaxLength : Z := 150.

(** A chunk is short enough, or it is one sentence of the text. *)
Definition fits (text : jsstring) (maxLength : Z) (chunk : jsstring) : Prop :=
  Z.of_nat (List.length chunk) <= maxLength \/ chunk ∈ sentences text.

End Speech.

(** * secure-auth: the login action for any request body                  *)

Module LoginBody.
Import JS.

(** A field of the parsed body, which need not be a string, as far as
    the handler uses it: whether it is truthy, and what a template literal
    prints for it ([None] when the conversion to text throws, as for an
    object whose [toString] is not a function). [Other true (Some [])] is
    the empty array, [Other false (Some (js "null"))] is [null]; a field
    the body does not have is [Undefined]. *)
Inductive value :=
| Text (text : jsstring)
| Undefined
| Other (is_truthy : bool) (printed : option jsstring).

Definition truthy_value (v : value) : bool :=
  match v with
  | Text (_ :: _) => true
  | Text [] => false
  | Undefined => false
  | Other is_truthy _ => is_truthy
  end.

(** [`${v}`]. *)
Definition print (v : value) : option jsstring :=
  match v with
  | Text text => Some text
  | Undefined => Some (js "undefined")
  | Other _ printed => printed
  end.

(** [v === literal] for a string literal. *)
Definition is_text (v : value) (literal : jsstring) : bool :=
  match v with
  | Text text => bool_decide (text = literal)
  | _ => false
  end.

(** A string that may be absent, as a field. *)
Definition of_option (v : option jsstring) : value :=
  match v with
  | Some text => Text text
  | None => Undefined
  end.

(** How the two password checks of the handler end: the test
    [!isValidHash && !isLegacyPlainText] fails, it holds, or one of the
    checks throws. *)
Inductive check_end :=
| Accepts
| Rejects
| Throws.

(** The field [password]. For a string the checks are those of
    [verifyPassword] and [secureCompare]. When the field is missing or
    [null], [verifyPassword] hashes its text and [secureCompare] throws on
    [a.length]. For any other value (a number, a boolean, an array, an
    object) the end of the checks is left open; it may depend on the
    stored credential. *)
Inductive password_value :=
| PasswordText (text : jsstring)
| PasswordMissing
| PasswordOther (ends : jsstring -> check_end).

Definition check (serviceRoleKey : jsstring) (password : password_value)
    (stored : jsstring) : check_end :=
  match password with
  | PasswordText text =>
      if SecureAuth.passwordRejected (Some serviceRoleKey) text stored then Rejects
      else Accepts
  | PasswordMissing => Throws
  | PasswordOther ends => ends stored
  end.

(** The fields of the body and the two headers the login action reads. *)
Record login_body := Body {
  userType : value;
  identifier : value;
  password : password_value;
  x_forwarded_for : option jsstring;
  cf_connecting_ip : option jsstring
}.

Definition clientIp (body : login_body) : jsstring :=
  let forwarded :=
    match x_forwarded_for body with
    | Some v => Some (trim (hd [] (split 44 v)))
    | None => None
    end in
  if truthy forwarded then text_of forwarded
  else if truthy (cf_connecting_ip body) then text_of (cf_connecting_ip body)
  else js "unknown".

(** [`${userType}:${identifier || clientIp}`]; [None] when a conversion
    to text throws. *)
Definition rateLimitKey (body : login_body) : option jsstring :=
  match print (userType body) with
  | None => None
  | Some type =>
      if truthy_value (identifier body) then
        match print (identifier body) with
        | Some name => Some (type ++ js ":" ++ name)
        | None => None
        end
      else Some (type ++ js ":" ++ clientIp body)
  end.

(** What a request does to the data store and to the limiter, in the
    order it does it. *)
Inductive effect :=
| SelectAdmin (admin_id : jsstring)
| SelectSchool (school_id : jsstring)
| RecordAttempt (key : jsstring) (success : bool)
| RandomUUID
| InsertLoginAttempt (identifier : value) (attempt_type ip : jsstring) (success : bool).

Record outcome := Outcome {
  answer : SecureAuth.response;
  attempts : SecureAuth.loginAttempts;
  effects : list effect
}.

(** The answer of the [catch] block. *)
Definition internal_server_error : SecureAuth.response :=
  SecureAuth.Response 500 (SecureAuth.Error (js "Internal server error")).

(** The attempts a request records, in order. *)
Definition recorded (effects : list effect) : list (jsstring * bool) :=
  flat_map (fun e => match e with
                     | RecordAttempt key success => [(key, success)]
                     | _ => []
                     end) effects.

(** The branch [action === "login"] of the handler inside its [try]: an
    exception, wherever it is thrown, ends in the answer of the [catch]
    block with what was done until then. The filter of [.eq(column,
    identifier)] is the text of the identifier. *)
Definition login (now_check now_record : Z) (serviceRoleKey : jsstring)
    (db : SecureAuth.database) (uuid : jsstring) (body : login_body)
    (m : SecureAuth.loginAttempts) : outcome :=
  match rateLimitKey body with
  | None => Outcome internal_server_error m []
  | Some key =>
      let (rateCheck, m1) := SecureAuth.checkRateLimit now_check key m in
      if negb (SecureAuth.allowed rateCheck) then
        Outcome
          (SecureAuth.Response 429
             (SecureAuth.RateLimited (SecureAuth.waitSeconds rateCheck))) m1 []
      else if is_text (userType body) (js "admin") then
        match print (identifier body) with
        | None => Outcome internal_server_error m1 []
        | Some filter =>
            match SecureAuth.admins_by_admin_id db filter with
            | SecureAuth.LookupError =>
                Outcome SecureAuth.authentication_failed
                  (SecureAuth.recordAttempt now_record key false m1)
                  [SelectAdmin filter; RecordAttempt key false]
            | SecureAuth.LookupData None =>
                Outcome SecureAuth.invalid_credentials
                  (SecureAuth.recordAttempt now_record key false m1)
                  [SelectAdmin filter; RecordAttempt key false]
            | SecureAuth.LookupData (Some admin) =>
                match check serviceRoleKey (password body)
                        (SecureAuth.admin_password_hash admin) with
                | Throws => Outcome internal_server_error m1 [SelectAdmin filter]
                | Rejects =>
                    Outcome SecureAuth.invalid_credentials
                      (SecureAuth.recordAttempt now_record key false m1)
                      [SelectAdmin filter; RecordAttempt key false]
                | Accepts =>
                    Outcome
                      (SecureAuth.Response 200
                         (SecureAuth.AdminUser (SecureAuth.admin_uuid admin)
                            (SecureAuth.admin_name admin) (SecureAuth.admin_role admin)
                            (SecureAuth.admin_admin_id admin) uuid))
                      (SecureAuth.recordAttempt now_record key true m1)
                      [SelectAdmin filter; RecordAttempt key true; RandomUUID;
                       InsertLoginAttempt (identifier body) (js "admin")
                         (clientIp body) true]
                end
            end
        end
      else if is_text (userType body) (js "school") then
        match print (identifier body) with
        | None => Outcome internal_server_error m1 []
        | Some filter =>
            match SecureAuth.schools_by_school_id db filter with
            | SecureAuth.LookupError =>
                Outcome SecureAuth.authentication_failed
                  (SecureAuth.recordAttempt now_record key false m1)
                  [SelectSchool filter; RecordAttempt key false]
            | SecureAuth.LookupData None =>
                Outcome SecureAuth.invalid_credentials
                  (SecureAuth.recordAttempt now_record key false m1)
                  [SelectSchool filter; RecordAttempt key false]
            | SecureAuth.LookupData (Some school) =>
                if SecureAuth.school_is_banned school then
                  Outcome SecureAuth.suspended m1 [SelectSchool filter]
                else
                  match check serviceRoleKey (password body)
                          (SecureAuth.school_password_hash school) with
                  | Throws => Outcome internal_server_error m1 [SelectSchool filter]
                  | Rejects =>
                      Outcome SecureAuth.invalid_credentials
                        (SecureAuth.recordAttempt now_record key false m1)
                        [SelectSchool filter; RecordAttempt key false]
                  | Accepts =>
                      Outcome
                        (SecureAuth.Response 200
                           (SecureAuth.SchoolUser (SecureAuth.school_uuid school)
                              (SecureAuth.school_school_id school)
                              (SecureAuth.school_name school)
                              (SecureAuth.school_fee_paid school) uuid))
                        (SecureAuth.recordAttempt now_record key true m1)
                        [SelectSchool filter; RecordAttempt key true; RandomUUID;
                         InsertLoginAttempt (identifier body) (js "school")
                           (clientIp body) true]
                  end
            end
        end
      else
        Outcome (SecureAuth.Response 400 (SecureAuth.Error (js "Invalid user type")))
          m1 []
  end.

(** A body whose fields are strings, the identifier possibly missing. *)
Definition body_of (req : SecureAuth.login_request) : login_body :=
  Body (Text (SecureAuth.userType req)) (of_option (SecureAuth.identifier req))
    (PasswordText (SecureAuth.password req)) (SecureAuth.x_forwarded_for req)
    (SecureAuth.cf_connecting_ip req).

End LoginBody.

(* ===================================================================== *)
(** * Properties                                                          *)
(* ===================================================================== *)

Import JS Platform SecureAuth History.

(** *** Rate limiter *)

Lemma ceil_div_block : ceil_div BLOCK_DURATION 1000 = 1800.
Proof. reflexivity. Qed.

(** [ceil_div] rounds up. *)
Lemma ceil_div_spec (x d : Z) :
  0 < d -> d * (ceil_div x d - 1) < x <= d * ceil_div x d.
Proof.
  intros Hd. unfold ceil_div.
  pose proof (Z.div_mod (- x) d ltac:(lia)) as Hdm.
  pose proof (Z.mod_pos_bound (- x) d Hd) as Hb.
  lia.
Qed.

Lemma check_absent (now : Z) (id : jsstring) (m : loginAttempts) :
  m !! id = None -> checkRateLimit now id m = (RateCheck true None, m).
Proof. intros H. unfold checkRateLimit. by rewrite H. Qed.

Lemma check_blocked (now : Z) (id : jsstring) (m : loginAttempts) r :
  m !! id = Some r -> now < blockedUntil r ->
  checkRateLimit now id m
  = (RateCheck false (Some (ceil_div (blockedUntil r - now) 1000)), m).
Proof.
  intros H Hb. unfold checkRateLimit. rewrite H.
  destruct (Z.gtb_spec (blockedUntil r) now); [done | lia].
Qed.

Lemma check_trigger (now : Z) (id : jsstring) (m : loginAttempts) r :
  m !! id = Some r ->
  blockedUntil r <= now ->
  now - lastAttempt r <= RATE_LIMIT_WINDOW ->
  MAX_ATTEMPTS <= count r ->
  checkRateLimit now id m
  = (RateCheck false (Some 1800),
     <[id := AttemptRecord (count r) (lastAttempt r) (now + BLOCK_DURATION)]> m).
Proof.
  intros H Hb Hw Hc. unfold checkRateLimit. rewrite H.
  destruct (Z.gtb_spec (blockedUntil r) now); [lia |].
  destruct (Z.gtb_spec (now - lastAttempt r) RATE_LIMIT_WINDOW); [lia |].
  destruct (Z.geb_spec (count r) MAX_ATTEMPTS); [done | lia].
Qed.

(** A check touches no other identifier. *)
Lemma check_other (now : Z) (id id' : jsstring) (m : loginAttempts) :
  id <> id' -> snd (checkRateLimit now id' m) !! id = m !! id.
Proof.
  intros Hne. unfold checkRateLimit.
  destruct (m !! id') as [r |]; [| done].
  repeat case_match; simpl; try done.
  - by rewrite lookup_delete_ne.
  - by rewrite lookup_insert_ne.
Qed.

(** An allowed check leaves the map alone or drops the expired record. *)
Lemma check_allowed (now : Z) (id : jsstring) (m : loginAttempts) :
  allowed (fst (checkRateLimit now id m)) = true ->
  snd (checkRateLimit now id m) = m \/ snd (checkRateLimit now id m) = delete id m.
Proof.
  unfold checkRateLimit. destruct (m !! id) as [r |]; [| by left].
  repeat case_match; simpl; intros; try done; first [by left | by right].
Qed.

Lemma record_other (now : Z) (id id' : jsstring) (success : bool) (m : loginAttempts) :
  id <> id' -> recordAttempt now id' success m !! id = m !! id.
Proof.
  intros Hne. unfold recordAttempt. destruct success.
  - by rewrite lookup_delete_ne.
  - destruct (m !! id'); by rewrite lookup_insert_ne.
Qed.

Lemma record_failure_present (now : Z) (id : jsstring) (m : loginAttempts) r :
  m !! id = Some r ->
  recordAttempt now id false m !! id
  = Some (AttemptRecord (count r + 1) now (blockedUntil r)).
Proof. intros H. unfold recordAttempt. rewrite H. by rewrite lookup_insert_eq. Qed.

Lemma record_failure_absent (now : Z) (id : jsstring) (m : loginAttempts) :
  m !! id = None ->
  recordAttempt now id false m !! id = Some (AttemptRecord 1 now 0).
Proof. intros H. unfold recordAttempt. rewrite H. by rewrite lookup_insert_eq. Qed.

Lemma last_cons_default {A} (l : list A) : forall x d,
  List.last (x :: l) d = List.last l x.
Proof.
  induction l as [| y l IH]; intros x d; [reflexivity |].
  change (List.last (x :: y :: l) d) with (List.last (y :: l) d).
  by rewrite !IH.
Qed.

(** Failures recorded on top of an existing record. *)
Lemma recordFailures_present (id : jsstring) (times : list Z) : forall (m : loginAttempts) r,
  m !! id = Some r ->
  recordFailures id times m !! id
  = Some (AttemptRecord (count r + Z.of_nat (List.length times))
            (List.last times (lastAttempt r)) (blockedUntil r)).
Proof.
  unfold recordFailures.
  induction times as [| t times IH]; intros m r H; cbn [fold_left].
  - rewrite H. destruct r; simpl. f_equal. f_equal. lia.
  - rewrite (IH _ _ (record_failure_present t id m r H)).
    cbn [count lastAttempt blockedUntil]. rewrite last_cons_default.
    f_equal. f_equal. rewrite length_cons. lia.
Qed.

Lemma recordFailures_absent (id : jsstring) (t : Z) (times : list Z) (m : loginAttempts) :
  m !! id = None ->
  recordFailures id (t :: times) m !! id
  = Some (AttemptRecord (Z.of_nat (List.length (t :: times)))
            (List.last (t :: times) 0) 0).
Proof.
  intros H. unfold recordFailures. cbn [fold_left].
  pose proof (recordFailures_present id times _ _ (record_failure_absent t id m H)) as E.
  unfold recordFailures in E. rewrite E.
  cbn [count lastAttempt blockedUntil]. rewrite last_cons_default.
  f_equal. f_equal. rewrite length_cons. lia.
Qed.

Example sha256_abc :
  hex (sha256 (js "abc"))
  = js "ba7816bf8f01cfea414140de5dae2223b00361a396177a9cb410ff61f20015ad".
Proof. vm_compute. reflexivity. Qed.

Example sha256_empty :
  hex (sha256 [])
  = js "e3b0c44298fc1c149afbf4c8996fb92427ae41e4649b934ca495991b7852b855".
Proof. vm_compute. reflexivity. Qed.

Example sha256_two_blocks :
  hex (sha256 (js "abcdbcdecdefdefgefghfghighijhijkijkljklmklmnlmnomnopnopq"))
  = js "248d6a61d20638b8e5c026930c3e6039a33ce45964ff2167f6ecedd419db06c1".
Proof. vm_compute. reflexivity. Qed.

Example json_sample :
  Json.JSON_parse
    (quoted "{'understanding':'good','topics':['a b', 1.5e3, true, null],'weakAreas':[],'n':{}} ")
  = Some (Json.JObject
            [(js "understanding", Json.JString (js "good"));
             (js "topics",
              Json.JArray [Json.JString (js "a b"); Json.JNumber (js "1.5e3");
                           Json.JBool true; Json.JNull]);
             (js "weakAreas", Json.JArray []);
             (js "n", Json.JObject [])]).
Proof. vm_compute. reflexivity. Qed.

Example json_unquoted_key : Json.JSON_parse (js "{understanding:good}") = None.
Proof. vm_compute. reflexivity. Qed.

Example json_trailing_comma : Json.JSON_parse (js "[1,]") = None.
Proof. vm_compute. reflexivity. Qed.

Example json_leading_zero : Json.JSON_parse (js "01") = None.
Proof. vm_compute. reflexivity. Qed.

Example json_empty_text : Json.JSON_parse (js "") = None.
Proof. vm_compute. reflexivity. Qed.

Example json_number : Json.JSON_parse (js " -0.5 ") = Some (Json.JNumber (js "-0.5")).
Proof. vm_compute. reflexivity. Qed.

(** *** The login action and the limiter *)

Lemma last_of_Forall {A} (P : A -> Prop) (l : list A) : forall x d,
  Forall P (x :: l) -> P (List.last (x :: l) d).
Proof.
  induction l as [| y l IH]; intros x d HF.
  - simpl. by inversion HF.
  - rewrite last_cons_default. apply IH. by inversion HF.
Qed.

(** The map a login leaves behind: the map after the check, with at most
    one attempt recorded on the key of the request. *)
Lemma login_attempts (now_check now_record : Z) (secret : jsstring) (db : database)
    (uuid : jsstring) (req : login_request) (m : loginAttempts) :
  let m1 := snd (checkRateLimit now_check (rateLimitKey req) m) in
  attempts (login now_check now_record secret db uuid req m) = m1
  \/ exists success,
       attempts (login now_check now_record secret db uuid req m)
       = recordAttempt now_record (rateLimitKey req) success m1.
Proof.
  unfold login.
  destruct (checkRateLimit now_check (rateLimitKey req) m) as [rc m1] eqn:E.
  cbn [snd]. repeat case_match; cbn [attempts]; eauto.
Qed.

Lemma login_other (now_check now_record : Z) (secret : jsstring) (db : database)
    (uuid : jsstring) (req : login_request) (m : loginAttempts) (id : jsstring) :
  id <> rateLimitKey req ->
  attempts (login now_check now_record secret db uuid req m) !! id = m !! id.
Proof.
  intros Hne.
  destruct (login_attempts now_check now_record secret db uuid req m) as [E | [b E]];
    rewrite E.
  - by apply check_other.
  - rewrite record_other by done. by apply check_other.
Qed.

(** A login for a blocked key is answered 429 and touches nothing. *)
Lemma login_blocked (now_check now_record : Z) (secret : jsstring) (db : database)
    (uuid : jsstring) (req : login_request) (m : loginAttempts) (r : attempt_record) :
  m !! rateLimitKey req = Some r ->
  now_check < blockedUntil r ->
  login now_check now_record secret db uuid req m
  = Outcome
      (Response 429 (RateLimited (Some (ceil_div (blockedUntil r - now_check) 1000))))
      m [].
Proof.
  intros H Hb. unfold login. by rewrite (check_blocked _ _ _ _ H Hb).
Qed.

(** One event during a block keeps the end of the block. *)
Lemma step_keeps_block (id : jsstring) (bu : Z) (m : loginAttempts) (e : event) :
  (exists r, m !! id = Some r /\ blockedUntil r = bu) ->
  time_of e < bu ->
  exists r, step m e !! id = Some r /\ blockedUntil r = bu.
Proof.
  intros (r & H & Hbu) Ht. subst bu.
  destruct e as [now id' | now id' | now_check now_record secret db uuid req];
    cbn [step time_of] in *.
  - destruct (decide (id = id')) as [<- | Hne].
    + rewrite (check_blocked _ _ _ _ H Ht). eauto.
    + rewrite check_other by done. eauto.
  - destruct (decide (id = id')) as [<- | Hne].
    + rewrite (record_failure_present _ _ _ _ H). eauto.
    + rewrite record_other by done. eauto.
  - destruct (decide (id = rateLimitKey req)) as [-> | Hne].
    + rewrite (login_blocked _ _ _ _ _ _ _ _ H Ht). eauto.
    + rewrite login_other by done. eauto.
Qed.

Lemma run_keeps_block (id : jsstring) (bu : Z) (events : list event) :
  forall m : loginAttempts,
  (exists r, m !! id = Some r /\ blockedUntil r = bu) ->
  Forall (fun e => time_of e < bu) events ->
  exists r, run events m !! id = Some r /\ blockedUntil r = bu.
Proof.
  unfold run. induction events as [| e events IH]; intros m Hm HF; [done |].
  cbn [fold_left]. inversion HF; subst.
  apply IH; [| done]. by apply step_keeps_block.
Qed.

(** C1: once five failed attempts are recorded for an identifier inside the
    15-minute window, the next check for it answers [allowed = false] with
    [waitSeconds = 1800] and sets the end of the block 30 minutes after the
    check. The identifier starts without a record, or with one that is not
    blocked at the check. *)
Theorem five_failures_trigger_block (id : jsstring) (m : loginAttempts)
    (times : list Z) (now : Z) :
  (forall r, m !! id = Some r -> 0 <= count r /\ blockedUntil r <= now) ->
  (5 <= List.length times)%nat ->
  Forall (fun t => now - RATE_LIMIT_WINDOW <= t) times ->
  0 <= now ->
  exists m' r,
    checkRateLimit now id (recordFailures id times m)
    = (RateCheck false (Some 1800), m')
    /\ m' !! id = Some r
    /\ blockedUntil r = now + 30 * 60 * 1000.
Proof.
  intros Hstart Hlen Hwin Hnow.
  destruct times as [| t times]; [simpl in Hlen; lia |].
  assert (exists r1,
            recordFailures id (t :: times) m !! id = Some r1
            /\ blockedUntil r1 <= now
            /\ now - lastAttempt r1 <= RATE_LIMIT_WINDOW
            /\ MAX_ATTEMPTS <= count r1) as (r1 & Hr1 & Hb & Hw & Hc).
  { destruct (m !! id) as [r0 |] eqn:Hm.
    - destruct (Hstart r0 eq_refl) as [Hcount Hblock].
      pose proof (last_of_Forall _ times t (lastAttempt r0) Hwin) as Hlast.
      eexists. split; [by apply recordFailures_present |].
      cbn [count lastAttempt blockedUntil]. cbv beta in Hlast.
      unfold MAX_ATTEMPTS. lia.
    - pose proof (last_of_Forall _ times t 0 Hwin) as Hlast.
      eexists. split; [by apply recordFailures_absent |].
      cbn [count lastAttempt blockedUntil]. cbv beta in Hlast.
      unfold MAX_ATTEMPTS. lia. }
  exists (<[id := AttemptRecord (count r1) (lastAttempt r1) (now + BLOCK_DURATION)]>
            (recordFailures id (t :: times) m)),
         (AttemptRecord (count r1) (lastAttempt r1) (now + BLOCK_DURATION)).
  split; [by apply check_trigger |].
  split; [apply lookup_insert_eq | reflexivity].
Qed.

Lemma five_failures_trigger_block_witness :
  exists m' r,
    checkRateLimit 6000 (js "admin:root")
      (recordFailures (js "admin:root") [1000; 2000; 3000; 4000; 5000] ∅)
    = (RateCheck false (Some 1800), m')
    /\ m' !! js "admin:root" = Some r
    /\ blockedUntil r = 6000 + 30 * 60 * 1000.
Proof.
  apply (five_failures_trigger_block (js "admin:root") ∅
           [1000; 2000; 3000; 4000; 5000] 6000).
  - intros r H. rewrite lookup_empty in H. discriminate.
  - simpl. lia.
  - repeat constructor; unfold RATE_LIMIT_WINDOW; lia.
  - lia.
Defined.

(** C2: while the block of an identifier is active, every check answers
    [allowed = false] with the seconds left until the end of the block,
    rounded up, and no check, recorded failure or login request made
    during the block moves the end of the block. *)
Theorem block_end_is_fixed (id : jsstring) (m : loginAttempts) (r : attempt_record)
    (events : list event) (now : Z) :
  m !! id = Some r ->
  Forall (fun e => time_of e < blockedUntil r) events ->
  now < blockedUntil r ->
  exists r' w,
    run events m !! id = Some r'
    /\ blockedUntil r' = blockedUntil r
    /\ checkRateLimit now id (run events m)
       = (RateCheck false (Some w), run events m)
    /\ 1000 * (w - 1) < blockedUntil r - now <= 1000 * w.
Proof.
  intros H HF Hnow.
  destruct (run_keeps_block id (blockedUntil r) events m) as (r' & Hr' & Hbu);
    [eauto | done |].
  exists r', (ceil_div (blockedUntil r - now) 1000).
  split; [done |]. split; [done |]. split.
  - rewrite <- Hbu. apply check_blocked; [done | lia].
  - apply ceil_div_spec. lia.
Qed.

(** The end of a block is the one set by the check that triggered it. *)
Lemma block_stays_where_triggered (id : jsstring) (m : loginAttempts)
    (r : attempt_record) (trigger : Z) (events : list event) :
  m !! id = Some r ->
  blockedUntil r <= trigger ->
  trigger - lastAttempt r <= RATE_LIMIT_WINDOW ->
  MAX_ATTEMPTS <= count r ->
  Forall (fun e => time_of e < trigger + BLOCK_DURATION) events ->
  exists r',
    run events (snd (checkRateLimit trigger id m)) !! id = Some r'
    /\ blockedUntil r' = trigger + BLOCK_DURATION.
Proof.
  intros Hm Hb Hw Hc HF.
  rewrite (check_trigger _ _ _ _ Hm Hb Hw Hc). cbn [snd].
  apply run_keeps_block; [| done].
  eexists. split; [apply lookup_insert_eq | reflexivity].
Qed.

(** C6: recording a success deletes the record of the identifier, and the
    next failure starts a new record with count 1. *)
Theorem success_clears_record (id : jsstring) (m : loginAttempts) (t1 t2 : Z) :
  recordAttempt t1 id true m !! id = None
  /\ recordAttempt t1 id true m = delete id m
  /\ recordAttempt t2 id false (recordAttempt t1 id true m) !! id
     = Some (AttemptRecord 1 t2 0).
Proof.
  assert (H : recordAttempt t1 id true m !! id = None)
    by (unfold recordAttempt; apply lookup_delete_eq).
  split; [done |]. split; [done |].
  by apply record_failure_absent.
Qed.

Lemma block_end_is_fixed_witness :
  exists r' w,
    run [Checked 7000 (js "admin:root");
         FailureRecorded 8000 (js "admin:root");
         LoginRequested 9000 9001 (js "service-role-secret")
           (Database (fun _ => LookupError) (fun _ => LookupError)) (js "uuid")
           (LoginRequest (js "admin") (Some (js "root")) (js "guess") None None)]
        (<[js "admin:root" := AttemptRecord 5 5000 1806000]> ∅)
      !! js "admin:root" = Some r'
    /\ blockedUntil r' = blockedUntil (AttemptRecord 5 5000 1806000)
    /\ checkRateLimit 10500 (js "admin:root")
         (run [Checked 7000 (js "admin:root");
               FailureRecorded 8000 (js "admin:root");
               LoginRequested 9000 9001 (js "service-role-secret")
                 (Database (fun _ => LookupError) (fun _ => LookupError)) (js "uuid")
                 (LoginRequest (js "admin") (Some (js "root")) (js "guess") None None)]
              (<[js "admin:root" := AttemptRecord 5 5000 1806000]> ∅))
       = (RateCheck false (Some w),
          run [Checked 7000 (js "admin:root");
               FailureRecorded 8000 (js "admin:root");
               LoginRequested 9000 9001 (js "service-role-secret")
                 (Database (fun _ => LookupError) (fun _ => LookupError)) (js "uuid")
                 (LoginRequest (js "admin") (Some (js "root")) (js "guess") None None)]
              (<[js "admin:root" := AttemptRecord 5 5000 1806000]> ∅))
    /\ 1000 * (w - 1) < blockedUntil (AttemptRecord 5 5000 1806000) - 10500 <= 1000 * w.
Proof.
  apply (block_end_is_fixed (js "admin:root")
           (<[js "admin:root" := AttemptRecord 5 5000 1806000]> ∅)
           (AttemptRecord 5 5000 1806000)).
  - apply lookup_insert_eq.
  - repeat constructor; simpl; lia.
  - simpl. lia.
Defined.

(** *** The login action: answers *)

Lemma school_is_not_admin : js "school" <> js "admin".
Proof. discriminate. Qed.

(** C4: a school login whose row is marked banned is answered 403 with the
    suspension message; the only effect is the lookup, so no password is
    verified and no attempt is recorded, whatever the password; the
    limiter is as the rate check left it and holds no new or changed
    record. *)
Theorem banned_school_is_refused_first (now_check now_record : Z) (secret : jsstring)
    (db : database) (uuid : jsstring) (req : login_request) (m : loginAttempts)
    (school : school_row) :
  userType req = js "school" ->
  allowed (fst (checkRateLimit now_check (rateLimitKey req) m)) = true ->
  schools_by_school_id db (text_of (identifier req)) = LookupData (Some school) ->
  school_is_banned school = true ->
  answer (login now_check now_record secret db uuid req m)
  = Response 403 (Error (js "This school account has been suspended"))
  /\ effects (login now_check now_record secret db uuid req m)
     = [SelectSchool (text_of (identifier req))]
  /\ attempts (login now_check now_record secret db uuid req m)
     = snd (checkRateLimit now_check (rateLimitKey req) m)
  /\ forall id r,
       attempts (login now_check now_record secret db uuid req m) !! id = Some r ->
       m !! id = Some r.
Proof.
  intros Htype Hallowed Hrow Hban.
  pose proof (check_allowed _ _ _ Hallowed) as Hm1.
  unfold login.
  destruct (checkRateLimit now_check (rateLimitKey req) m) as [rc m1] eqn:E.
  cbn [fst snd] in *. rewrite Hallowed. cbn [negb].
  rewrite Htype.
  destruct (decide (js "school" = js "admin")) as [Heq | _];
    [by destruct school_is_not_admin |].
  destruct (decide (js "school" = js "school")) as [_ | Hne]; [| done].
  rewrite Hrow, Hban. cbn [answer effects attempts].
  repeat split; try done.
  intros id r Hr. destruct Hm1 as [-> | ->]; [done |].
  by apply lookup_delete_Some in Hr as [_ Hr].
Qed.

Lemma banned_school_is_refused_first_witness :
  answer (login 1000 1001 (js "service-role-secret")
            (Database (fun _ => LookupError)
               (fun _ => LookupData (Some (SchoolRow (js "u1") (js "SCH_1") (js "School")
                                             true true (js "stored")))))
            (js "uuid")
            (LoginRequest (js "school") (Some (js "SCH_1")) (js "wrong") None None) ∅)
  = Response 403 (Error (js "This school account has been suspended"))
  /\ effects (login 1000 1001 (js "service-role-secret")
               (Database (fun _ => LookupError)
                  (fun _ => LookupData (Some (SchoolRow (js "u1") (js "SCH_1") (js "School")
                                                true true (js "stored")))))
               (js "uuid")
               (LoginRequest (js "school") (Some (js "SCH_1")) (js "wrong") None None) ∅)
     = [SelectSchool (js "SCH_1")]
  /\ attempts (login 1000 1001 (js "service-role-secret")
                (Database (fun _ => LookupError)
                   (fun _ => LookupData (Some (SchoolRow (js "u1") (js "SCH_1") (js "School")
                                                 true true (js "stored")))))
                (js "uuid")
                (LoginRequest (js "school") (Some (js "SCH_1")) (js "wrong") None None) ∅)
     = snd (checkRateLimit 1000 (js "school:SCH_1") ∅)
  /\ forall id r,
       attempts (login 1000 1001 (js "service-role-secret")
                   (Database (fun _ => LookupError)
                      (fun _ => LookupData (Some (SchoolRow (js "u1") (js "SCH_1") (js "School")
                                                    true true (js "stored")))))
                   (js "uuid")
                   (LoginRequest (js "school") (Some (js "SCH_1")) (js "wrong") None None) ∅)
         !! id = Some r ->
       (∅ : loginAttempts) !! id = Some r.
Proof.
  apply (banned_school_is_refused_first 1000 1001 (js "service-role-secret")
           (Database (fun _ => LookupError)
              (fun _ => LookupData (Some (SchoolRow (js "u1") (js "SCH_1") (js "School")
                                            true true (js "stored")))))
           (js "uuid")
           (LoginRequest (js "school") (Some (js "SCH_1")) (js "wrong") None None) ∅
           (SchoolRow (js "u1") (js "SCH_1") (js "School") true true (js "stored")));
    reflexivity.
Defined.

Lemma admin_is_not_school : js "admin" <> js "school".
Proof. discriminate. Qed.

(** The answer to a wrong password. *)
Lemma wrong_password_answer (now_check now_record : Z) (secret : jsstring)
    (db : database) (uuid : jsstring) (req : login_request) (m : loginAttempts) :
  allowed (fst (checkRateLimit now_check (rateLimitKey req) m)) = true ->
  wrong_password secret db req ->
  answer (login now_check now_record secret db uuid req m) = invalid_credentials.
Proof.
  intros Hallowed Hwrong. unfold login.
  destruct (checkRateLimit now_check (rateLimitKey req) m) as [rc m1] eqn:E.
  cbn [fst] in Hallowed. rewrite Hallowed. cbn [negb].
  destruct Hwrong as [[Htype (a & Hrow & Hrej)] | [Htype (sc & Hrow & Hban & Hrej)]];
    rewrite Htype.
  - destruct (decide (js "admin" = js "admin")) as [_ | Hne]; [| done].
    by rewrite Hrow, Hrej.
  - destruct (decide (js "school" = js "admin")) as [Heq | _];
      [by destruct school_is_not_admin |].
    destruct (decide (js "school" = js "school")) as [_ | Hne]; [| done].
    by rewrite Hrow, Hban, Hrej.
Qed.

(** Before a wrong password is declared a failure, both comparisons have
    run. *)
Lemma wrong_password_effects (now_check now_record : Z) (secret : jsstring)
    (db : database) (uuid : jsstring) (req : login_request) (m : loginAttempts) :
  allowed (fst (checkRateLimit now_check (rateLimitKey req) m)) = true ->
  wrong_password secret db req ->
  exists query stored,
    effects (login now_check now_record secret db uuid req m)
    = [query; VerifyPassword (password req) stored;
       SecureCompare (password req) stored;
       RecordAttempt (rateLimitKey req) false].
Proof.
  intros Hallowed Hwrong. unfold login.
  destruct (checkRateLimit now_check (rateLimitKey req) m) as [rc m1] eqn:E.
  cbn [fst] in Hallowed. rewrite Hallowed. cbn [negb].
  destruct Hwrong as [[Htype (a & Hrow & Hrej)] | [Htype (sc & Hrow & Hban & Hrej)]];
    rewrite Htype.
  - destruct (decide (js "admin" = js "admin")) as [_ | Hne]; [| done].
    rewrite Hrow, Hrej. cbn [effects app]. eauto.
  - destruct (decide (js "school" = js "admin")) as [Heq | _];
      [by destruct school_is_not_admin |].
    destruct (decide (js "school" = js "school")) as [_ | Hne]; [| done].
    rewrite Hrow, Hban, Hrej. cbn [effects app]. eauto.
Qed.

Lemma lookup_miss_outcome (now_check now_record : Z) (secret : jsstring)
    (db : database) (uuid : jsstring) (req : login_request) (m : loginAttempts)
    (o : miss) :
  allowed (fst (checkRateLimit now_check (rateLimitKey req) m)) = true ->
  lookup_misses db req o ->
  answer (login now_check now_record secret db uuid req m)
  = Response 401
      (Error (match o with
              | NoRow => js "Invalid credentials"
              | LookupFailed => js "Authentication failed"
              end))
  /\ attempts (login now_check now_record secret db uuid req m)
     = recordAttempt now_record (rateLimitKey req) false
         (snd (checkRateLimit now_check (rateLimitKey req) m))
  /\ (exists query,
        effects (login now_check now_record secret db uuid req m)
        = [query; RecordAttempt (rateLimitKey req) false]).
Proof.
  intros Hallowed Hmiss. unfold login.
  destruct (checkRateLimit now_check (rateLimitKey req) m) as [rc m1] eqn:E.
  cbn [fst snd] in *. rewrite Hallowed. cbn [negb].
  destruct Hmiss as [[Htype Hrow] | [Htype Hrow]]; rewrite Htype.
  - destruct (decide (js "admin" = js "admin")) as [_ | Hne]; [| done].
    rewrite Hrow. destruct o; cbn [miss_result answer attempts effects]; eauto.
  - destruct (decide (js "school" = js "admin")) as [Heq | _];
      [by destruct school_is_not_admin |].
    destruct (decide (js "school" = js "school")) as [_ | Hne]; [| done].
    rewrite Hrow. destruct o; cbn [miss_result answer attempts effects]; eauto.
Qed.

(** C5, as the code has it: when the principal lookup finds no row the
    login records a failed attempt on the rate-limit key and answers 401
    [Invalid credentials], the answer it also gives to a wrong password;
    when the lookup itself fails it records a failed attempt and answers
    401 [Authentication failed]. *)
Theorem lookup_miss_is_a_failed_attempt (now_check now_record : Z) (secret : jsstring)
    (db : database) (uuid : jsstring) (req : login_request) (m : loginAttempts)
    (o : miss) :
  allowed (fst (checkRateLimit now_check (rateLimitKey req) m)) = true ->
  lookup_misses db req o ->
  answer (login now_check now_record secret db uuid req m)
  = Response 401
      (Error (match o with
              | NoRow => js "Invalid credentials"
              | LookupFailed => js "Authentication failed"
              end))
  /\ attempts (login now_check now_record secret db uuid req m)
     = recordAttempt now_record (rateLimitKey req) false
         (snd (checkRateLimit now_check (rateLimitKey req) m))
  /\ (exists query,
        effects (login now_check now_record secret db uuid req m)
        = [query; RecordAttempt (rateLimitKey req) false])
  /\ (o = NoRow ->
      forall db', wrong_password secret db' req ->
                  answer (login now_check now_record secret db' uuid req m)
                  = answer (login now_check now_record secret db uuid req m)).
Proof.
  intros Hallowed Hmiss.
  destruct (lookup_miss_outcome now_check now_record secret db uuid req m o Hallowed Hmiss)
    as (Hanswer & Hattempts & Heffects).
  repeat split; try done.
  intros -> db' Hwrong. rewrite Hanswer.
  by apply wrong_password_answer.
Qed.

Lemma lookup_miss_is_a_failed_attempt_witness :
  answer (login 1000 1001 (js "service-role-secret")
            (Database (fun _ => LookupData None) (fun _ => LookupData None)) (js "uuid")
            (LoginRequest (js "admin") (Some (js "nobody")) (js "guess") None None) ∅)
  = Response 401 (Error (js "Invalid credentials"))
  /\ attempts (login 1000 1001 (js "service-role-secret")
                (Database (fun _ => LookupData None) (fun _ => LookupData None))
                (js "uuid")
                (LoginRequest (js "admin") (Some (js "nobody")) (js "guess") None None) ∅)
     = recordAttempt 1001 (js "admin:nobody") false
         (snd (checkRateLimit 1000 (js "admin:nobody") ∅))
  /\ (exists query,
        effects (login 1000 1001 (js "service-role-secret")
                   (Database (fun _ => LookupData None) (fun _ => LookupData None))
                   (js "uuid")
                   (LoginRequest (js "admin") (Some (js "nobody")) (js "guess") None None) ∅)
        = [query; RecordAttempt (js "admin:nobody") false])
  /\ (NoRow = NoRow ->
      forall db',
        wrong_password (js "service-role-secret") db'
          (LoginRequest (js "admin") (Some (js "nobody")) (js "guess") None None) ->
        answer (login 1000 1001 (js "service-role-secret") db' (js "uuid")
                  (LoginRequest (js "admin") (Some (js "nobody")) (js "guess") None None) ∅)
        = answer (login 1000 1001 (js "service-role-secret")
                    (Database (fun _ => LookupData None) (fun _ => LookupData None))
                    (js "uuid")
                    (LoginRequest (js "admin") (Some (js "nobody")) (js "guess")
                       None None) ∅)).
Proof.
  apply (lookup_miss_is_a_failed_attempt 1000 1001 (js "service-role-secret")
           (Database (fun _ => LookupData None) (fun _ => LookupData None)) (js "uuid")
           (LoginRequest (js "admin") (Some (js "nobody")) (js "guess") None None) ∅ NoRow).
  - reflexivity.
  - left. split; reflexivity.
Defined.

(** A login that fails on its merits records one failed attempt. *)
Lemma failing_login_attempts (now_check now_record : Z) (secret : jsstring)
    (db : database) (uuid : jsstring) (req : login_request) (m : loginAttempts) :
  allowed (fst (checkRateLimit now_check (rateLimitKey req) m)) = true ->
  (exists o, lookup_misses db req o) \/ wrong_password secret db req ->
  attempts (login now_check now_record secret db uuid req m)
  = recordAttempt now_record (rateLimitKey req) false
      (snd (checkRateLimit now_check (rateLimitKey req) m)).
Proof.
  intros Hallowed [[o Hmiss] | Hwrong].
  - by apply (lookup_miss_outcome now_check now_record secret db uuid req m o).
  - unfold login.
    destruct (checkRateLimit now_check (rateLimitKey req) m) as [rc m1] eqn:E.
    cbn [fst snd] in *. rewrite Hallowed. cbn [negb].
    destruct Hwrong as [[Htype (a & Hrow & Hrej)] | [Htype (sc & Hrow & Hban & Hrej)]];
      rewrite Htype.
    + destruct (decide (js "admin" = js "admin")) as [_ | Hne]; [| done].
      by rewrite Hrow, Hrej.
    + destruct (decide (js "school" = js "admin")) as [Heq | _];
        [by destruct school_is_not_admin |].
      destruct (decide (js "school" = js "school")) as [_ | Hne]; [| done].
      by rewrite Hrow, Hban, Hrej.
Qed.

(** C5 as stated fails when the lookup returns an error: the message is
    [Authentication failed], not [Invalid credentials]. *)
Lemma lookup_error_says_authentication_failed :
  lookup_misses (Database (fun _ => LookupError) (fun _ => LookupError))
    (LoginRequest (js "admin") (Some (js "root")) (js "guess") None None) LookupFailed
  /\ payload (answer (login 1000 1001 (js "service-role-secret")
                        (Database (fun _ => LookupError) (fun _ => LookupError))
                        (js "uuid")
                        (LoginRequest (js "admin") (Some (js "root")) (js "guess")
                           None None) ∅))
     = Error (js "Authentication failed")
  /\ payload (answer (login 1000 1001 (js "service-role-secret")
                        (Database (fun _ => LookupError) (fun _ => LookupError))
                        (js "uuid")
                        (LoginRequest (js "admin") (Some (js "root")) (js "guess")
                           None None) ∅))
     <> Error (js "Invalid credentials").
Proof.
  split; [left; split; reflexivity |].
  split; [reflexivity |].
  vm_compute. discriminate.
Qed.

(** *** Five failed logins, then a sixth *)

(** The record of [id] after [k] failed logins inside a window that starts
    at [lo]. *)
Lemma failed_login_step (id : jsstring) (lo : Z) (m : loginAttempts) (e : event)
    (k : Z) :
  0 <= lo -> 0 <= k < MAX_ATTEMPTS ->
  (k = 0 /\ m !! id = None)
  \/ (exists r, m !! id = Some r /\ count r = k /\ blockedUntil r = 0
                /\ lo <= lastAttempt r) ->
  failing_login id e -> within lo (lo + RATE_LIMIT_WINDOW) e ->
  exists r, step m e !! id = Some r /\ count r = k + 1 /\ blockedUntil r = 0
            /\ lo <= lastAttempt r.
Proof.
  intros Hlo Hk Hinv Hfail Hwin.
  destruct e as [| | now_check now_record secret db uuid req]; [done | done |].
  destruct Hfail as [<- Hfail]. destruct Hwin as [Hc Hr]. cbn [step].
  assert (checkRateLimit now_check (rateLimitKey req) m = (RateCheck true None, m))
    as Hcheck.
  { destruct Hinv as [[_ Hm] | (r & Hm & Hcount & Hbu & Hlast)].
    - by apply check_absent.
    - unfold checkRateLimit. rewrite Hm, Hbu.
      destruct (Z.gtb_spec 0 now_check); [lia |].
      destruct (Z.gtb_spec (now_check - lastAttempt r) RATE_LIMIT_WINDOW); [lia |].
      destruct (Z.geb_spec (count r) MAX_ATTEMPTS); [lia | done]. }
  rewrite failing_login_attempts; [| by rewrite Hcheck | done].
  rewrite Hcheck. cbn [snd].
  destruct Hinv as [[-> Hm] | (r & Hm & Hcount & Hbu & Hlast)].
  - rewrite (record_failure_absent _ _ _ Hm). eexists. split; [done |].
    cbn. lia.
  - rewrite (record_failure_present _ _ _ _ Hm). eexists. split; [done |].
    cbn. lia.
Qed.

Lemma failed_logins_run (id : jsstring) (lo : Z) (events : list event) :
  forall (m : loginAttempts) (k : Z),
  0 <= lo -> 0 <= k -> k + Z.of_nat (List.length events) <= MAX_ATTEMPTS ->
  (k = 0 /\ m !! id = None)
  \/ (exists r, m !! id = Some r /\ count r = k /\ blockedUntil r = 0
                /\ lo <= lastAttempt r) ->
  Forall (fun e => failing_login id e /\ within lo (lo + RATE_LIMIT_WINDOW) e) events ->
  events <> [] ->
  exists r, run events m !! id = Some r
            /\ count r = k + Z.of_nat (List.length events)
            /\ blockedUntil r = 0 /\ lo <= lastAttempt r.
Proof.
  unfold run. induction events as [| e events IH]; intros m k Hlo Hk Hlen Hinv HF Hne;
    [done |].
  cbn [fold_left]. inversion HF as [| ? ? [Hfail Hwin] HF']; subst.
  rewrite length_cons in Hlen.
  destruct (failed_login_step id lo m e k Hlo ltac:(lia) Hinv Hfail Hwin)
    as (r & Hr & Hcount & Hbu & Hlast).
  destruct events as [| e' events].
  - cbn [fold_left]. exists r. rewrite length_cons. cbn [List.length].
    repeat split; first [done | lia].
  - destruct (IH (step m e) (k + 1)) as (r' & Hr' & Hcount' & Hbu' & Hlast');
      [done | lia | lia | right; by exists r | done | done |].
    exists r'. repeat split; try done.
    rewrite Hcount', (length_cons e). lia.
Qed.

(** Five logins that fail on their merits inside a 15-minute window, from
    an identifier without record: the sixth login inside the window is
    answered 429 with 1800 seconds, without any query. *)
Lemma sixth_login_is_limited (lo : Z) (m : loginAttempts) (events : list event)
    (now_check now_record : Z) (secret : jsstring) (db : database) (uuid : jsstring)
    (req : login_request) :
  0 <= lo ->
  m !! rateLimitKey req = None ->
  List.length events = 5%nat ->
  Forall (fun e => failing_login (rateLimitKey req) e
                   /\ within lo (lo + RATE_LIMIT_WINDOW) e) events ->
  lo <= now_check <= lo + RATE_LIMIT_WINDOW ->
  answer (login now_check now_record secret db uuid req (run events m))
  = Response 429 (RateLimited (Some 1800))
  /\ effects (login now_check now_record secret db uuid req (run events m)) = []
  /\ exists r,
       attempts (login now_check now_record secret db uuid req (run events m))
         !! rateLimitKey req = Some r
       /\ blockedUntil r = now_check + BLOCK_DURATION.
Proof.
  intros Hlo Hfresh Hlen HF Hnow.
  destruct (failed_logins_run (rateLimitKey req) lo events m 0)
    as (r & Hr & Hcount & Hbu & Hlast);
    [done | lia | rewrite Hlen; unfold MAX_ATTEMPTS; lia | by left | done
    | by destruct events |].
  unfold login.
  rewrite (check_trigger _ _ _ _ Hr);
    [| lia | lia | rewrite Hcount, Hlen; unfold MAX_ATTEMPTS; lia].
  cbn [allowed negb answer effects attempts waitSeconds].
  repeat split. eexists. split; [apply lookup_insert_eq | reflexivity].
Qed.

(** The login action on concrete requests. *)
Example login_with_hashed_password :
  login 1000 1001 (js "service-role-secret")
    (Database
       (fun v => LookupData
                   (Some (AdminRow (js "u-1") v (js "Root") (js "super")
                            (hashPassword (Some (js "service-role-secret")) (js "s3cret")))))
       (fun _ => LookupData None))
    (js "3f8a1c2e-9b47-4d1a-8c3e-5f6a7b8c9d0e")
    (LoginRequest (js "admin") (Some (js "root")) (js "s3cret") None None)
    (<[js "admin:root" := AttemptRecord 3 900 0]> ∅)
  = Outcome
      (Response 200
         (AdminUser (js "u-1") (js "Root") (js "super") (js "root")
            (js "3f8a1c2e-9b47-4d1a-8c3e-5f6a7b8c9d0e")))
      ∅
      [SelectAdmin (js "root");
       VerifyPassword (js "s3cret")
         (hashPassword (Some (js "service-role-secret")) (js "s3cret"));
       SecureCompare (js "s3cret")
         (hashPassword (Some (js "service-role-secret")) (js "s3cret"));
       RecordAttempt (js "admin:root") true; RandomUUID;
       InsertLoginAttempt (Some (js "root")) (js "admin") (js "unknown") true].
Proof. vm_compute. reflexivity. Qed.

Example login_with_legacy_password :
  answer
    (login 1000 1001 (js "service-role-secret")
       (Database (fun _ => LookupData None)
          (fun v => LookupData
                      (Some (SchoolRow (js "u-2") v (js "School") true false
                               (js "plain-text")))))
       (js "3f8a1c2e-9b47-4d1a-8c3e-5f6a7b8c9d0e")
       (LoginRequest (js "school") (Some (js "SCH_1")) (js "plain-text")
          (Some (js " 10.0.0.1 , 10.0.0.2")) None) ∅)
  = Response 200
      (SchoolUser (js "u-2") (js "SCH_1") (js "School") true
         (js "3f8a1c2e-9b47-4d1a-8c3e-5f6a7b8c9d0e")).
Proof. vm_compute. reflexivity. Qed.

Example login_with_wrong_password :
  login 1000 1001 (js "service-role-secret")
    (Database (fun _ => LookupData None)
       (fun v => LookupData
                   (Some (SchoolRow (js "u-2") v (js "School") true false
                            (js "plain-text")))))
    (js "3f8a1c2e-9b47-4d1a-8c3e-5f6a7b8c9d0e")
    (LoginRequest (js "school") None (js "guess")
       (Some (js " 10.0.0.1 , 10.0.0.2")) None) ∅
  = Outcome (Response 401 (Error (js "Invalid credentials")))
      (<[js "school:10.0.0.1" := AttemptRecord 1 1001 0]> ∅)
      [SelectSchool (js "undefined");
       VerifyPassword (js "guess") (js "plain-text");
       SecureCompare (js "guess") (js "plain-text");
       RecordAttempt (js "school:10.0.0.1") false].
Proof. vm_compute. reflexivity. Qed.

Example login_with_unknown_user_type :
  login 1000 1001 (js "service-role-secret")
    (Database (fun _ => LookupData None) (fun _ => LookupData None)) (js "uuid")
    (LoginRequest (js "student") (Some (js "x")) (js "guess") None None) ∅
  = Outcome (Response 400 (Error (js "Invalid user type"))) ∅ [].
Proof. vm_compute. reflexivity. Qed.

Example six_logins :
  answer
    (login 6000 6001 (js "service-role-secret")
       (Database (fun _ => LookupData None) (fun _ => LookupData None)) (js "uuid")
       (LoginRequest (js "admin") (Some (js "root")) (js "guess") None None)
       (run (map (fun t =>
                    LoginRequested t (t + 1) (js "service-role-secret")
                      (Database (fun _ => LookupData None) (fun _ => LookupData None))
                      (js "uuid")
                      (LoginRequest (js "admin") (Some (js "root")) (js "guess")
                         None None))
               [1000; 2000; 3000; 4000; 5000]) ∅))
  = Response 429 (RateLimited (Some 1800)).
Proof. vm_compute. reflexivity. Qed.

(** *** Credential verifier *)

Lemma to_int32_small (z : Z) : - 2 ^ 31 <= z < 2 ^ 31 -> to_int32 z = z.
Proof. intros H. unfold to_int32. rewrite Z.mod_small; lia. Qed.

Lemma log2_unit (a : Z) : 0 <= a < 2 ^ 16 -> Z.log2 a < 16.
Proof.
  intros [H0 H1]. destruct (Z.eq_dec a 0) as [-> | Hne]; [reflexivity |].
  apply Z.log2_lt_pow2; lia.
Qed.

Lemma unit_of_log2 (a : Z) : 0 <= a -> Z.log2 a < 16 -> 0 <= a < 2 ^ 16.
Proof.
  intros H0 Hl. split; [done |].
  destruct (Z.eq_dec a 0) as [-> | Hne]; [reflexivity |].
  apply Z.log2_lt_pow2; lia.
Qed.

Lemma lxor_unit (a b : Z) :
  0 <= a < 2 ^ 16 -> 0 <= b < 2 ^ 16 -> 0 <= Z.lxor a b < 2 ^ 16.
Proof.
  intros Ha Hb. apply unit_of_log2.
  - apply Z.lxor_nonneg. lia.
  - pose proof (Z.log2_lxor a b ltac:(lia) ltac:(lia)).
    pose proof (log2_unit a Ha). pose proof (log2_unit b Hb). lia.
Qed.

Lemma lor_unit (a b : Z) :
  0 <= a < 2 ^ 16 -> 0 <= b < 2 ^ 16 -> 0 <= Z.lor a b < 2 ^ 16.
Proof.
  intros Ha Hb. apply unit_of_log2.
  - apply Z.lor_nonneg. lia.
  - pose proof (Z.log2_lor a b ltac:(lia) ltac:(lia)).
    pose proof (log2_unit a Ha). pose proof (log2_unit b Hb). lia.
Qed.

(** On code units the wrap-around of [^] and [|] never fires. *)
Lemma bxor_units (a b : Z) :
  wf_unit a -> wf_unit b ->
  bxor (Some a) (Some b) = Z.lxor a b /\ 0 <= Z.lxor a b < 2 ^ 16.
Proof.
  unfold wf_unit, bxor, int32_of. intros Ha Hb.
  change 65536 with (2 ^ 16) in *.
  pose proof (lxor_unit a b Ha Hb) as Hx.
  assert (2 ^ 16 < 2 ^ 31) by reflexivity.
  rewrite (to_int32_small a), (to_int32_small b) by lia.
  rewrite to_int32_small by lia. done.
Qed.

Lemma bor_units (a b : Z) :
  0 <= a < 2 ^ 16 -> 0 <= b < 2 ^ 16 ->
  bor (Some a) (Some b) = Z.lor a b /\ 0 <= Z.lor a b < 2 ^ 16.
Proof.
  unfold bor, int32_of. intros Ha Hb.
  pose proof (lor_unit a b Ha Hb) as Hx.
  assert (2 ^ 16 < 2 ^ 31) by reflexivity.
  rewrite (to_int32_small a), (to_int32_small b) by lia.
  rewrite to_int32_small by lia. done.
Qed.

(** The accumulator of the equal-length loop after [n] rounds: it is zero
    exactly when the first [n] units agree. *)
Lemma compare_loop (a b : jsstring) :
  wf_string a -> wf_string b ->
  forall n : nat, (n <= List.length a)%nat -> (n <= List.length b)%nat ->
  let result :=
    fold_left
      (fun result i =>
         bor (Some result) (Some (bxor (charCodeAt a i) (charCodeAt b i))))
      (seq 0 n) 0 in
  0 <= result < 2 ^ 16 /\ (result = 0 <-> take n a = take n b).
Proof.
  intros Ha Hb n. induction n as [| n IH]; intros Hna Hnb.
  - simpl. split; [split; [lia | reflexivity] | done].
  - rewrite seq_S, fold_left_app. cbn [fold_left Nat.add].
    destruct IH as [Hres Hiff]; [lia | lia |].
    set (res := fold_left _ (seq 0 n) 0) in *.
    destruct (lookup_lt_is_Some_2 a n ltac:(lia)) as [x Hx].
    destruct (lookup_lt_is_Some_2 b n ltac:(lia)) as [y Hy].
    unfold charCodeAt. rewrite Hx, Hy.
    pose proof (Forall_lookup_1 _ _ _ _ Ha Hx) as Hwx.
    pose proof (Forall_lookup_1 _ _ _ _ Hb Hy) as Hwy.
    destruct (bxor_units x y Hwx Hwy) as [-> Hxy].
    destruct (bor_units res (Z.lxor x y) Hres Hxy) as [-> Hor].
    split; [done |].
    rewrite (take_S_r a n x Hx), (take_S_r b n y Hy).
    rewrite Z.lor_eq_0_iff, Z.lxor_eq_0_iff, Hiff.
    split.
    + intros [-> ->]. done.
    + intros Heq. apply app_inj_tail in Heq. done.
Qed.

(** [secureCompare] decides equality of strings. *)
Lemma secureCompare_iff (a b : jsstring) :
  wf_string a -> wf_string b -> (secureCompare a b = true <-> a = b).
Proof.
  intros Ha Hb. unfold secureCompare.
  destruct (Nat.eqb_spec (List.length a) (List.length b)) as [Hlen | Hlen];
    cbn [negb].
  - destruct (compare_loop a b Ha Hb (List.length a)) as [_ Hiff]; [lia | lia |].
    cbv zeta in *. rewrite Z.eqb_eq, Hiff.
    rewrite firstn_all. rewrite Hlen, firstn_all. done.
  - split; [discriminate |]. intros ->. done.
Qed.

Lemma secureCompare_refl (a : jsstring) : wf_string a -> secureCompare a a = true.
Proof. intros Ha. by apply secureCompare_iff. Qed.

Lemma sha256_bytes (msg : list Z) : Forall (fun b => 0 <= b < 256) (sha256 msg).
Proof.
  apply Forall_forall. intros b Hb.
  apply list_elem_of_In in Hb. unfold sha256 in Hb.
  apply in_flat_map in Hb as (w & _ & Hb).
  unfold be_bytes in Hb. apply in_map_iff in Hb as (i & <- & _).
  apply Z.mod_pos_bound. lia.
Qed.

Lemma hex_digit_unit (d : Z) : 0 <= d < 16 -> wf_unit (hex_digit d).
Proof. intros H. unfold hex_digit, wf_unit. destruct (d <? 10); lia. Qed.

Lemma hex_wf (bytes : list Z) :
  Forall (fun b => 0 <= b < 256) bytes -> wf_string (hex bytes).
Proof.
  induction 1 as [| b bytes Hb _ IH]; [constructor |].
  unfold hex. cbn [flat_map hex_byte app].
  constructor; [| constructor; [| exact IH]]; apply hex_digit_unit.
  - split; [apply Z.div_pos; lia | apply Z.div_lt_upper_bound; lia].
  - apply Z.mod_pos_bound. lia.
Qed.

Lemma hashPassword_wf (secret : option jsstring) (password : jsstring) :
  wf_string (hashPassword secret password).
Proof. apply hex_wf, sha256_bytes. Qed.

Lemma verifyPassword_iff (secret : option jsstring) (password stored : jsstring) :
  wf_string stored ->
  (verifyPassword secret password stored = true <-> hashPassword secret password = stored).
Proof.
  intros Hs. unfold verifyPassword. cbv zeta.
  apply secureCompare_iff; [apply hashPassword_wf | done].
Qed.

Lemma passwordRejected_iff (secret : option jsstring) (password stored : jsstring) :
  wf_string password -> wf_string stored ->
  (passwordRejected secret password stored = false
   <-> hashPassword secret password = stored \/ password = stored).
Proof.
  intros Hp Hs. unfold passwordRejected. cbv zeta.
  rewrite <- (verifyPassword_iff secret password stored Hs).
  rewrite <- (secureCompare_iff password stored Hp Hs).
  destruct (verifyPassword secret password stored), (secureCompare password stored);
    cbn; intuition congruence.
Qed.

(** C3, as the code has it: the password check of the login accepts
    exactly when the hex SHA-256 digest of the password followed by the
    secret prefix equals the stored string or the password itself equals
    the stored string; [secureCompare] decides equality; the password that
    produced the stored digest is accepted, and another password is
    rejected exactly when it neither has the same digest nor is the stored
    digest itself. *)
Theorem password_check_decides (secret : option jsstring)
    (password stored original : jsstring) :
  wf_string password -> wf_string stored ->
  (passwordRejected secret password stored = false
   <-> hashPassword secret password = stored \/ password = stored)
  /\ (secureCompare password stored = true <-> password = stored)
  /\ passwordRejected secret original (hashPassword secret original) = false
  /\ (passwordRejected secret password (hashPassword secret original) = true
      <-> hashPassword secret password <> hashPassword secret original
          /\ password <> hashPassword secret original).
Proof.
  intros Hp Hs. split; [by apply passwordRejected_iff |].
  split; [by apply secureCompare_iff |]. split.
  - unfold passwordRejected. cbv zeta.
    rewrite (proj2 (verifyPassword_iff secret original _ (hashPassword_wf _ _)) eq_refl).
    reflexivity.
  - pose proof (passwordRejected_iff secret password (hashPassword secret original) Hp
                  (hashPassword_wf _ _)) as Hiff.
    destruct (passwordRejected secret password (hashPassword secret original)).
    + split; [| done]. intros _.
      split; intros Heq; (discriminate (proj2 Hiff)); auto.
    + split; [done |]. intros [H1 H2].
      destruct (proj1 Hiff eq_refl); contradiction.
Qed.

(** Literals of the source are well formed. *)
Lemma js_wf (s : string) : wf_string (js s).
Proof.
  induction s as [| c s IH]; constructor; [| exact IH].
  unfold wf_unit. pose proof (nat_ascii_bounded c). lia.
Qed.

Lemma password_check_decides_witness :
  (passwordRejected (Some (js "service-role-secret")) (js "guess") (js "legacy-plain") = false
   <-> hashPassword (Some (js "service-role-secret")) (js "guess") = js "legacy-plain"
       \/ js "guess" = js "legacy-plain")
  /\ (secureCompare (js "guess") (js "legacy-plain") = true
      <-> js "guess" = js "legacy-plain")
  /\ passwordRejected (Some (js "service-role-secret")) (js "s3cret")
       (hashPassword (Some (js "service-role-secret")) (js "s3cret")) = false
  /\ (passwordRejected (Some (js "service-role-secret")) (js "guess")
        (hashPassword (Some (js "service-role-secret")) (js "s3cret")) = true
      <-> hashPassword (Some (js "service-role-secret")) (js "guess")
          <> hashPassword (Some (js "service-role-secret")) (js "s3cret")
          /\ js "guess" <> hashPassword (Some (js "service-role-secret")) (js "s3cret")).
Proof.
  apply (password_check_decides (Some (js "service-role-secret")) (js "guess")
           (js "legacy-plain") (js "s3cret")); apply js_wf.
Defined.

Example utf8_samples :
  utf8_encode [97; 233; 8364] = [97; 195; 169; 226; 130; 172]
  /\ utf8_encode [55357; 56832] = [240; 159; 152; 128]
  /\ utf8_encode [55296] = [239; 191; 189]
  /\ utf8_encode [56832; 97] = [239; 191; 189; 97].
Proof. repeat split; reflexivity. Qed.

Example hashPassword_sample :
  hashPassword (Some (js "service-role-secret")) (js "s3cret")
  = hex (sha256 (js "s3cretservice-role-secret"))
  /\ hashPassword None (js "s3cret") = hex (sha256 (js "s3cretundefined"))
  /\ hashPassword (Some (js "0123456789abcdef0123456789abcdefTAIL")) (js "pw")
     = hex (sha256 (js "pw0123456789abcdef0123456789abcdef")).
Proof. repeat split; vm_compute; reflexivity. Qed.

(** C3 as stated fails on "false for any other password": the stored
    digest, sent as the password, passes the plain-text comparison, and two
    passwords that differ in an unpaired surrogate have the same digest. *)
Lemma other_passwords_are_accepted :
  hashPassword (Some (js "service-role-secret")) (js "s3cret") <> js "s3cret"
  /\ passwordRejected (Some (js "service-role-secret"))
       (hashPassword (Some (js "service-role-secret")) (js "s3cret"))
       (hashPassword (Some (js "service-role-secret")) (js "s3cret")) = false
  /\ [55297] <> [55296]
  /\ verifyPassword (Some (js "service-role-secret")) [55297]
       (hashPassword (Some (js "service-role-secret")) [55296]) = true.
Proof.
  split; [vm_compute; discriminate |].
  split; [vm_compute; reflexivity |].
  split; [discriminate |].
  vm_compute. reflexivity.
Qed.

(** *** get-students: the admin session check *)

Lemma split_without_separator (sep : Z) (s : jsstring) :
  sep ∉ s -> split sep s = [s].
Proof.
  induction s as [| c s IH]; intros Hs; [reflexivity |].
  cbn [split]. apply not_elem_of_cons in Hs as [Hc Hs].
  destruct (Z.eqb_spec c sep) as [-> | _]; [done |].
  by rewrite IH.
Qed.

Lemma split_at_first_separator (sep : Z) (head rest : jsstring) :
  sep ∉ head -> split sep (head ++ sep :: rest) = head :: split sep rest.
Proof.
  induction head as [| c head IH]; intros Hs; cbn [app split].
  - by rewrite Z.eqb_refl.
  - apply not_elem_of_cons in Hs as [Hc Hs].
    destruct (Z.eqb_spec c sep) as [-> | _]; [done |].
    by rewrite IH.
Qed.

Lemma uuid_units_no_underscore (s : jsstring) : forall i : nat,
  GetStudents.uuid_units i s = true -> 95 ∉ s.
Proof.
  induction s as [| c s IH]; intros i H; [apply not_elem_of_nil |].
  cbn [GetStudents.uuid_units] in H.
  apply andb_true_iff in H as [Hc Hs].
  apply not_elem_of_cons. split; [| by eapply IH].
  intros <-. destruct (_ || _) in Hc; discriminate.
Qed.

Lemma uuid_no_underscore (s : jsstring) : GetStudents.is_uuid s = true -> 95 ∉ s.
Proof.
  unfold GetStudents.is_uuid. intros H.
  apply andb_true_iff in H as [_ H]. by eapply uuid_units_no_underscore.
Qed.

Lemma adminId_without_underscore (token : jsstring) :
  95 ∉ token -> GetStudents.adminId (GetStudents.Text token) = GetStudents.Value None.
Proof. intros H. unfold GetStudents.adminId. by rewrite split_without_separator. Qed.

Lemma adminId_between (head field tail : jsstring) :
  95 ∉ head -> 95 ∉ field ->
  tail = [] \/ (exists t, tail = 95 :: t) ->
  GetStudents.adminId (GetStudents.Text (head ++ 95 :: field ++ tail))
  = GetStudents.Value (Some field).
Proof.
  intros Hh Hf Ht. unfold GetStudents.adminId.
  rewrite split_at_first_separator by done.
  destruct Ht as [-> | [t ->]].
  - rewrite app_nil_r. by rewrite split_without_separator.
  - by rewrite split_at_first_separator.
Qed.

(** C7: the admin branch lets a request through exactly when the field of
    [session_token] between its first and second underscore resolves to an
    admin row; a token without underscore, such as the UUID minted by the
    login, gives an undefined admin id and is answered 401. The filter
    value [undefined] is assumed to match no admin row. *)
Theorem admin_session_needs_embedded_id (db : GetStudents.database)
    (session_token : GetStudents.field) :
  (forall a, GetStudents.admins_by_id db (js "undefined")
             <> GetStudents.SingleData (Some a)) ->
  (forall a,
     GetStudents.verify_admin db session_token = GetStudents.Granted a
     <-> exists id,
           GetStudents.adminId session_token = GetStudents.Value (Some id)
           /\ GetStudents.admins_by_id db id = GetStudents.SingleData (Some a))
  /\ (forall head id tail,
        session_token = GetStudents.Text (head ++ 95 :: id ++ tail) ->
        95 ∉ head -> 95 ∉ id -> tail = [] \/ (exists t, tail = 95 :: t) ->
        GetStudents.adminId session_token = GetStudents.Value (Some id))
  /\ (forall token,
        session_token = GetStudents.Text token ->
        95 ∉ token \/ GetStudents.is_uuid token = true ->
        GetStudents.adminId session_token = GetStudents.Value None
        /\ GetStudents.admin_branch db session_token
           = GetStudents.Response 401 (GetStudents.Error (js "Invalid admin session"))).
Proof.
  intros Hundef. split; [| split].
  - intros a. unfold GetStudents.verify_admin.
    destruct (GetStudents.adminId session_token) as [| [id |]] eqn:Hid;
      cbn [GetStudents.filter_text].
    + split; [discriminate |]. intros (f & Hf & _). discriminate.
    + destruct (GetStudents.admins_by_id db id) as [| [a' |]] eqn:Hrow.
      * split; [discriminate |]. intros (f & Hf & Ha). congruence.
      * split.
        -- intros [= <-]. by exists id.
        -- intros (f & Hf & Ha). congruence.
      * split; [discriminate |]. intros (f & Hf & Ha). congruence.
    + split; [| by intros (f & Hf & _)].
      destruct (GetStudents.admins_by_id db (js "undefined")) as [| [a' |]] eqn:Hrow;
        [discriminate | | discriminate].
      by destruct (Hundef a').
  - intros head id tail -> Hh Hf Ht. by apply adminId_between.
  - intros token -> Htok.
    assert (95 ∉ token) as Hno
      by (destruct Htok as [H | H]; [done | by apply uuid_no_underscore]).
    pose proof (adminId_without_underscore token Hno) as Hid.
    split; [done |]. unfold GetStudents.admin_branch, GetStudents.verify_admin.
    rewrite Hid. cbn [GetStudents.filter_text].
    destruct (GetStudents.admins_by_id db (js "undefined")) as [| [a |]] eqn:Hrow;
      [done | | done].
    by destruct (Hundef a).
Qed.

Lemma admin_session_needs_embedded_id_witness :
  (forall a,
     GetStudents.verify_admin
       (one_admin (GetStudents.Admin (js "7c9e6679") (js "Root") (js "super")))
       (GetStudents.Text (js "3f8a1c2e-9b47-4d1a-8c3e-5f6a7b8c9d0e"))
     = GetStudents.Granted a
     <-> exists id,
           GetStudents.adminId (GetStudents.Text (js "3f8a1c2e-9b47-4d1a-8c3e-5f6a7b8c9d0e"))
           = GetStudents.Value (Some id)
           /\ GetStudents.admins_by_id
                (one_admin (GetStudents.Admin (js "7c9e6679") (js "Root") (js "super")))
                id
              = GetStudents.SingleData (Some a))
  /\ (forall head id tail,
        GetStudents.Text (js "3f8a1c2e-9b47-4d1a-8c3e-5f6a7b8c9d0e")
        = GetStudents.Text (head ++ 95 :: id ++ tail) ->
        95 ∉ head -> 95 ∉ id -> tail = [] \/ (exists t, tail = 95 :: t) ->
        GetStudents.adminId (GetStudents.Text (js "3f8a1c2e-9b47-4d1a-8c3e-5f6a7b8c9d0e"))
        = GetStudents.Value (Some id))
  /\ (forall token,
        GetStudents.Text (js "3f8a1c2e-9b47-4d1a-8c3e-5f6a7b8c9d0e")
        = GetStudents.Text token ->
        95 ∉ token \/ GetStudents.is_uuid token = true ->
        GetStudents.adminId (GetStudents.Text (js "3f8a1c2e-9b47-4d1a-8c3e-5f6a7b8c9d0e"))
        = GetStudents.Value None
        /\ GetStudents.admin_branch
             (one_admin (GetStudents.Admin (js "7c9e6679") (js "Root") (js "super")))
             (GetStudents.Text (js "3f8a1c2e-9b47-4d1a-8c3e-5f6a7b8c9d0e"))
           = GetStudents.Response 401 (GetStudents.Error (js "Invalid admin session"))).
Proof.
  apply (admin_session_needs_embedded_id
           (one_admin (GetStudents.Admin (js "7c9e6679") (js "Root") (js "super")))
           (GetStudents.Text (js "3f8a1c2e-9b47-4d1a-8c3e-5f6a7b8c9d0e"))).
  intros a H. vm_compute in H. discriminate.
Defined.

(** The token a login hands out is the UUID it drew. *)
Lemma login_token (now_check now_record : Z) (secret : jsstring) (db : database)
    (uuid : jsstring) (req : login_request) (m : loginAttempts)
    (i n r a token : jsstring) :
  payload (answer (login now_check now_record secret db uuid req m))
  = AdminUser i n r a token ->
  token = uuid.
Proof.
  unfold login.
  destruct (checkRateLimit now_check (rateLimitKey req) m) as [rc m1].
  repeat case_match; cbn [answer payload]; intros Htoken; by simplify_eq.
Qed.

(** A token minted by the admin login does not pass the session check of
    [get-students]. *)
Lemma minted_token_does_not_open_get_students (now_check now_record : Z)
    (secret : jsstring) (db : database) (uuid : jsstring) (req : login_request)
    (m : loginAttempts) (i n r a token : jsstring) (students : GetStudents.database) :
  GetStudents.is_uuid uuid = true ->
  (forall row, GetStudents.admins_by_id students (js "undefined")
               <> GetStudents.SingleData (Some row)) ->
  payload (answer (login now_check now_record secret db uuid req m))
  = AdminUser i n r a token ->
  GetStudents.admin_branch students (GetStudents.Text token)
  = GetStudents.Response 401 (GetStudents.Error (js "Invalid admin session")).
Proof.
  intros Huuid Hundef Htoken. apply login_token in Htoken as ->.
  unfold GetStudents.admin_branch, GetStudents.verify_admin.
  rewrite (adminId_without_underscore uuid (uuid_no_underscore uuid Huuid)).
  cbn [GetStudents.filter_text].
  destruct (GetStudents.admins_by_id students (js "undefined")) as [| [row |]] eqn:Hrow;
    [done | | done].
  by destruct (Hundef row).
Qed.

Example minted_token_is_refused :
  GetStudents.is_uuid (js "3f8a1c2e-9b47-4d1a-8c3e-5f6a7b8c9d0e") = true
  /\ GetStudents.adminId (GetStudents.Text (js "3f8a1c2e-9b47-4d1a-8c3e-5f6a7b8c9d0e"))
     = GetStudents.Value None
  /\ GetStudents.adminId (GetStudents.Text (js "admin_7c9e6679_1700000000"))
     = GetStudents.Value (Some (js "7c9e6679"))
  /\ GetStudents.status
       (GetStudents.admin_branch
          (one_admin (GetStudents.Admin (js "7c9e6679") (js "Root") (js "super")))
          (GetStudents.Text (js "admin_7c9e6679_1700000000"))) = 200
  /\ GetStudents.status
       (GetStudents.admin_branch
          (one_admin (GetStudents.Admin (js "7c9e6679") (js "Root") (js "super")))
          GetStudents.NotText) = 500.
Proof. repeat split; vm_compute; reflexivity. Qed.

(** *** study-chat: what the model is sent *)

Import StudyChat.

(** C8: for every transcript the handler calls the gateway, first with the
    primary model, and every call it makes carries the same messages: the
    system message followed by the last [min 6 length] transcript entries
    in their order, and nothing else. The entries before them are not sent:
    the messages have no further position, and the answer depends on the
    gateway only through what it returns for these messages. Of eight
    entries the last six are sent. *)
Theorem transcript_is_trimmed (ai : gateway) (system : jsstring)
    (transcript : list ChatMessage) (analyzeSession : bool) :
  exists sent : list AIMessage,
    (exists more : list (jsstring * list AIMessage),
       calls (respond ai system (Some transcript) analyzeSession)
       = (PRIMARY_MODEL, sent) :: more
       /\ Forall (fun call => snd call = sent) more)
    /\ sent = AI (js "system") (Plain system)
                :: map forward (drop (List.length transcript - 6) transcript)
    /\ List.length sent = S (Nat.min 6 (List.length transcript))
    /\ (forall i : nat, (i < Nat.min 6 (List.length transcript))%nat ->
          sent !! S i
          = forward
              <$> transcript
                    !! (List.length transcript - Nat.min 6 (List.length transcript)
                        + i)%nat)
    /\ (forall ai' : gateway,
          (forall model : jsstring, ai' model sent = ai model sent) ->
          respond ai' system (Some transcript) analyzeSession
          = respond ai system (Some transcript) analyzeSession)
    /\ (forall m1 m2 m3 m4 m5 m6 m7 m8 : ChatMessage,
          transcript = [m1; m2; m3; m4; m5; m6; m7; m8] ->
          sent = AI (js "system") (Plain system)
                   :: map forward [m3; m4; m5; m6; m7; m8]).
Proof.
  exists (chatMessages system (Some transcript)). repeat split.
  - unfold respond. cbv zeta.
    destruct (callLovableAI ai _ PRIMARY_MODEL) as [r | e | content];
      [by eexists; split; [reflexivity | constructor]
      | by eexists; split; [reflexivity | constructor] |].
    destruct (blank content); [| by eexists; split; [reflexivity | constructor]].
    destruct (callLovableAI ai _ FALLBACK_MODEL) as [r | e | content2];
      [by eexists; split; [reflexivity | repeat constructor]
      | by eexists; split; [reflexivity | repeat constructor] |].
    destruct (blank content2); by eexists; split; [reflexivity | repeat constructor].
  - unfold chatMessages, slice_last. cbn [List.length].
    rewrite length_map, length_drop. lia.
  - intros i Hi. unfold chatMessages, slice_last.
    change (map forward (drop (List.length transcript - 6) transcript))
      with (forward <$> drop (List.length transcript - 6) transcript).
    change ((AI (js "system") (Plain system)
               :: (forward <$> drop (List.length transcript - 6) transcript)) !! S i)
      with ((forward <$> drop (List.length transcript - 6) transcript) !! i).
    rewrite list_lookup_fmap, lookup_drop.
    do 2 f_equal. lia.
  - intros ai' Hsame. unfold respond, callLovableAI. cbv zeta.
    by rewrite !Hsame.
  - by intros m1 m2 m3 m4 m5 m6 m7 m8 ->.
Qed.

Lemma transcript_is_trimmed_witness :
  exists more : list (jsstring * list AIMessage),
    calls (respond (fun _ _ => Completed (Some (js "Ji")))
             (js "You are an AI Study Buddy")
             (Some (map (fun text => Chat (js "user") text None)
                      [js "1"; js "2"; js "3"; js "4"; js "5"; js "6"; js "7";
                       js "8"]))
             false)
    = (PRIMARY_MODEL,
       AI (js "system") (Plain (js "You are an AI Study Buddy"))
         :: map (fun text => AI (js "user") (Plain text))
              [js "3"; js "4"; js "5"; js "6"; js "7"; js "8"])
        :: more.
Proof.
  destruct (transcript_is_trimmed (fun _ _ => Completed (Some (js "Ji")))
              (js "You are an AI Study Buddy")
              (map (fun text => Chat (js "user") text None)
                 [js "1"; js "2"; js "3"; js "4"; js "5"; js "6"; js "7"; js "8"])
              false)
    as (sent & (more & Hcalls & _) & _ & _ & _ & _ & Height).
  exists more. rewrite Hcalls.
  rewrite (Height _ _ _ _ _ _ _ _ eq_refl). reflexivity.
Defined.

Lemma models_differ : PRIMARY_MODEL <> FALLBACK_MODEL.
Proof. discriminate. Qed.

Lemma respond_primary_blank (ai : gateway) (system : jsstring)
    (messages : option (list ChatMessage)) (analyzeSession : bool)
    (content : option jsstring) :
  ai PRIMARY_MODEL (chatMessages system messages) = Completed content ->
  blank content = true ->
  calls (respond ai system messages analyzeSession)
  = [(PRIMARY_MODEL, chatMessages system messages);
     (FALLBACK_MODEL, chatMessages system messages)].
Proof.
  intros Hp Hb. unfold respond, callLovableAI. rewrite Hp, Hb.
  destruct (ai FALLBACK_MODEL _) as [st | content2].
  - destruct (st =? 429); [reflexivity |]. destruct (st =? 402); reflexivity.
  - destruct (blank content2); reflexivity.
Qed.

Lemma respond_primary_usable (ai : gateway) (system : jsstring)
    (messages : option (list ChatMessage)) (analyzeSession : bool) (text : jsstring) :
  ai PRIMARY_MODEL (chatMessages system messages) = Completed (Some text) ->
  blank (Some text) = false ->
  respond ai system messages analyzeSession
  = Outcome (reply analyzeSession text)
      [(PRIMARY_MODEL, chatMessages system messages)].
Proof. intros Hp Hb. unfold respond, callLovableAI. by rewrite Hp, Hb. Qed.

Lemma respond_primary_failed (ai : gateway) (system : jsstring)
    (messages : option (list ChatMessage)) (analyzeSession : bool) (st : Z) :
  ai PRIMARY_MODEL (chatMessages system messages) = Failed st ->
  calls (respond ai system messages analyzeSession)
  = [(PRIMARY_MODEL, chatMessages system messages)].
Proof.
  intros Hp. unfold respond, callLovableAI. rewrite Hp.
  destruct (st =? 429); [reflexivity |]. destruct (st =? 402); reflexivity.
Qed.

Lemma calls_to_fallback_two (sent : list AIMessage) (out : outcome) :
  calls out = [(PRIMARY_MODEL, sent); (FALLBACK_MODEL, sent)] ->
  calls_to FALLBACK_MODEL out = 1%nat.
Proof. intros H. unfold calls_to. rewrite H. reflexivity. Qed.

Lemma calls_to_fallback_one (sent : list AIMessage) (out : outcome) :
  calls out = [(PRIMARY_MODEL, sent)] -> calls_to FALLBACK_MODEL out = 0%nat.
Proof. intros H. unfold calls_to. rewrite H. reflexivity. Qed.

(** C9: when the primary call is OK but its content is missing, not a
    string or blank, the fallback model is called once with the same
    messages; its content, when not blank, becomes the reply, and when it is
    blank too the request fails; the fallback is called at most once, and
    only when the primary content is blank. *)
Theorem fallback_is_tried_once (ai : gateway) (system : jsstring)
    (messages : option (list ChatMessage)) (analyzeSession : bool) :
  (forall content,
     ai PRIMARY_MODEL (chatMessages system messages) = Completed content ->
     blank content = true ->
     calls (respond ai system messages analyzeSession)
     = [(PRIMARY_MODEL, chatMessages system messages);
        (FALLBACK_MODEL, chatMessages system messages)]
     /\ (forall text,
           ai FALLBACK_MODEL (chatMessages system messages) = Completed (Some text) ->
           blank (Some text) = false ->
           answer (respond ai system messages analyzeSession)
           = reply analyzeSession text)
     /\ (forall content2,
           ai FALLBACK_MODEL (chatMessages system messages) = Completed content2 ->
           blank content2 = true ->
           answer (respond ai system messages analyzeSession)
           = Response 500 (Failure NoResponseFromAI)))
  /\ (forall text,
        ai PRIMARY_MODEL (chatMessages system messages) = Completed (Some text) ->
        blank (Some text) = false ->
        calls (respond ai system messages analyzeSession)
        = [(PRIMARY_MODEL, chatMessages system messages)]
        /\ answer (respond ai system messages analyzeSession)
           = reply analyzeSession text)
  /\ (calls_to FALLBACK_MODEL (respond ai system messages analyzeSession) <= 1)%nat
  /\ (calls_to FALLBACK_MODEL (respond ai system messages analyzeSession) = 1%nat
      <-> exists content,
            ai PRIMARY_MODEL (chatMessages system messages) = Completed content
            /\ blank content = true).
Proof.
  split; [| split; [| split]].
  - intros content Hp Hb.
    split; [by apply (respond_primary_blank _ _ _ _ content) |].
    split.
    + intros text Hf Hn. unfold respond, callLovableAI.
      by rewrite Hp, Hb, Hf, Hn.
    + intros content2 Hf Hb2. unfold respond, callLovableAI.
      by rewrite Hp, Hb, Hf, Hb2.
  - intros text Hp Hn.
    by rewrite (respond_primary_usable _ _ _ _ text Hp Hn).
  - destruct (ai PRIMARY_MODEL (chatMessages system messages)) as [st | content] eqn:Hp.
    + rewrite (calls_to_fallback_one _ _ (respond_primary_failed _ _ _ _ st Hp)). lia.
    + destruct (blank content) eqn:Hb.
      * rewrite (calls_to_fallback_two _ _ (respond_primary_blank _ _ _ _ _ Hp Hb)). lia.
      * destruct content as [text |]; [| discriminate].
        rewrite (calls_to_fallback_one (chatMessages system messages)); [lia |].
        by rewrite (respond_primary_usable _ _ _ _ text Hp Hb).
  - destruct (ai PRIMARY_MODEL (chatMessages system messages)) as [st | content] eqn:Hp.
    + rewrite (calls_to_fallback_one _ _ (respond_primary_failed _ _ _ _ st Hp)).
      split; [discriminate |]. intros (c & Hc & _). discriminate.
    + destruct (blank content) eqn:Hb.
      * rewrite (calls_to_fallback_two _ _ (respond_primary_blank _ _ _ _ _ Hp Hb)).
        split; [eauto | done].
      * destruct content as [text |]; [| discriminate].
        rewrite (calls_to_fallback_one (chatMessages system messages))
          by (by rewrite (respond_primary_usable _ _ _ _ text Hp Hb)).
        split; [discriminate |]. intros (c & Hc & Hbc). congruence.
Qed.

Lemma fallback_is_tried_once_witness :
  calls (respond (scripted (Completed (Some (js "  ")))
                          (Completed (Some (js "Namaste ji"))))
           (js "You are an AI Study Buddy")
           (Some [Chat (js "user") (js "hello") None]) false)
  = [(PRIMARY_MODEL,
      chatMessages (js "You are an AI Study Buddy")
        (Some [Chat (js "user") (js "hello") None]));
     (FALLBACK_MODEL,
      chatMessages (js "You are an AI Study Buddy")
        (Some [Chat (js "user") (js "hello") None]))]
  /\ answer (respond (scripted (Completed (Some (js "  ")))
                               (Completed (Some (js "Namaste ji"))))
               (js "You are an AI Study Buddy")
               (Some [Chat (js "user") (js "hello") None]) false)
     = reply false (js "Namaste ji").
Proof.
  destruct (fallback_is_tried_once
              (scripted (Completed (Some (js "  "))) (Completed (Some (js "Namaste ji"))))
              (js "You are an AI Study Buddy")
              (Some [Chat (js "user") (js "hello") None]) false) as [H _].
  destruct (H (Some (js "  ")) eq_refl eq_refl) as (Hcalls & Husable & _).
  split; [exact Hcalls | exact (Husable (js "Namaste ji") eq_refl eq_refl)].
Defined.

(** *** study-chat: the analysis block *)

Lemma starts_with_app (p y : jsstring) : starts_with p (p ++ y) = true.
Proof.
  induction p as [| c p IH]; [by destruct y |].
  cbn [app starts_with]. by rewrite Z.eqb_refl, IH.
Qed.

Lemma starts_with_sound (p : jsstring) : forall s : jsstring,
  starts_with p s = true -> s = p ++ drop (List.length p) s.
Proof.
  induction p as [| c p IH]; intros s H; [by rewrite drop_0 |].
  destruct s as [| d s]; [discriminate |].
  cbn [starts_with] in H. apply andb_true_iff in H as [Hc Hs].
  apply Z.eqb_eq in Hc as ->. cbn [List.length drop app].
  f_equal. by apply IH.
Qed.

Lemma find_sub_unfold (p s : jsstring) :
  find_sub p s
  = if starts_with p s then Some ([], skipn (List.length p) s)
    else match s with
         | [] => None
         | c :: rest =>
             match find_sub p rest with
             | Some (before, after) => Some (c :: before, after)
             | None => None
             end
         end.
Proof. destruct s; reflexivity. Qed.

(** What [find_sub] returns is an occurrence. *)
Lemma find_sub_sound (p : jsstring) : forall s before after : jsstring,
  find_sub p s = Some (before, after) -> s = before ++ p ++ after.
Proof.
  induction s as [| c s IH]; intros before after H; rewrite find_sub_unfold in H.
  - destruct (starts_with p []) eqn:Hs; [| discriminate].
    injection H as <- <-. by apply starts_with_sound.
  - destruct (starts_with p (c :: s)) eqn:Hs.
    + injection H as <- <-. by apply starts_with_sound.
    + destruct (find_sub p s) as [[b a] |] eqn:Hf; [| discriminate].
      injection H as <- <-. cbn [app]. f_equal. by apply IH.
Qed.

(** The occurrence before which no other starts is the one returned. *)
Lemma find_sub_first (p y : jsstring) : forall x : jsstring,
  (forall k : nat, (k < List.length x)%nat ->
                   starts_with p (drop k (x ++ p ++ y)) = false) ->
  find_sub p (x ++ p ++ y) = Some (x, y).
Proof.
  induction x as [| c x IH]; intros Hfirst; rewrite find_sub_unfold.
  - cbn [app]. rewrite starts_with_app. f_equal. f_equal.
    by rewrite skipn_app, skipn_all, Nat.sub_diag.
  - pose proof (Hfirst 0%nat ltac:(cbn; lia)) as H0. rewrite drop_0 in H0.
    rewrite H0. cbn [app]. rewrite IH; [done |].
    intros k Hk. apply (Hfirst (S k)). cbn. lia.
Qed.

(** Any occurrence makes [find_sub] succeed, no later than it. *)
Lemma find_sub_complete (p y : jsstring) : forall x : jsstring,
  exists before after,
    find_sub p (x ++ p ++ y) = Some (before, after)
    /\ (List.length before <= List.length x)%nat.
Proof.
  induction x as [| c x IH]; rewrite find_sub_unfold.
  - cbn [app]. rewrite starts_with_app. eexists _, _. split; [done | cbn; lia].
  - destruct (starts_with p ((c :: x) ++ p ++ y)).
    + eexists _, _. split; [done | cbn; lia].
    + cbn [app]. destruct IH as (b & a & -> & Hlen).
      eexists _, _. split; [done | cbn; lia].
Qed.

(** A checkable form of "no occurrence starts before position [n]". *)
Lemma first_by_check (p s : jsstring) (n : nat) :
  forallb (fun k => negb (starts_with p (drop k s))) (seq 0 n) = true ->
  forall k : nat, (k < n)%nat -> starts_with p (drop k s) = false.
Proof.
  intros H k Hk. rewrite forallb_forall in H.
  apply negb_true_iff, H, in_seq. lia.
Qed.

(** A reply that contains an opening tag followed somewhere by a closing
    tag is matched by the pattern. *)
Lemma delimited_block_is_matched (x y z : jsstring) :
  exists before group after,
    analysisMatch (x ++ OPEN ++ y ++ CLOSE ++ z) = Some (before, group, after).
Proof.
  unfold analysisMatch.
  destruct (find_sub_complete OPEN (y ++ CLOSE ++ z) x) as (b & a & Hf & Hlen).
  rewrite Hf. pose proof (find_sub_sound _ _ _ _ Hf) as Hraw.
  assert (a = drop (List.length b + List.length OPEN) (x ++ OPEN ++ y) ++ CLOSE ++ z)
    as Ha.
  { transitivity (drop (List.length b + List.length OPEN) (x ++ OPEN ++ y ++ CLOSE ++ z)).
    - rewrite Hraw at 1. rewrite (app_assoc b OPEN a).
      rewrite drop_app_length'; [done | by rewrite length_app].
    - replace (x ++ OPEN ++ y ++ CLOSE ++ z) with ((x ++ OPEN ++ y) ++ CLOSE ++ z)
        by (by rewrite <- !app_assoc).
      rewrite drop_app_le; [done |]. rewrite !length_app. lia. }
  rewrite Ha.
  destruct (find_sub_complete CLOSE z
              (drop (List.length b + List.length OPEN) (x ++ OPEN ++ y)))
    as (g & r & -> & _).
  eauto.
Qed.

Lemma analysisMatch_first (before group after : jsstring) :
  (forall k : nat, (k < List.length before)%nat ->
     starts_with OPEN (drop k (before ++ OPEN ++ group ++ CLOSE ++ after)) = false) ->
  (forall k : nat, (k < List.length group)%nat ->
     starts_with CLOSE (drop k (group ++ CLOSE ++ after)) = false) ->
  analysisMatch (before ++ OPEN ++ group ++ CLOSE ++ after)
  = Some (before, group, after).
Proof.
  intros Hopen Hclose. unfold analysisMatch.
  rewrite (find_sub_first OPEN (group ++ CLOSE ++ after) before Hopen).
  by rewrite (find_sub_first CLOSE after group Hclose).
Qed.

(** What the pattern matches is a delimited block of the reply. *)
Lemma analysisMatch_sound (raw before group after : jsstring) :
  analysisMatch raw = Some (before, group, after) ->
  raw = before ++ OPEN ++ group ++ CLOSE ++ after.
Proof.
  unfold analysisMatch. intros H.
  destruct (find_sub OPEN raw) as [[b opened] |] eqn:Ho; [| discriminate].
  destruct (find_sub CLOSE opened) as [[g a] |] eqn:Hc; [| discriminate].
  injection H as <- <- <-.
  apply find_sub_sound in Ho, Hc. by rewrite Ho, Hc.
Qed.

(** C10: with analysis requested, a reply whose first analysis block holds
    well-formed JSON is answered with the block removed (and the rest
    trimmed) and the parsed value as [sessionAnalysis]; when the JSON is
    malformed the reply is answered as it is, with [sessionAnalysis] null,
    and the request still succeeds. *)
Theorem analysis_block_is_extracted (before group after : jsstring) :
  (forall k : nat, (k < List.length before)%nat ->
     starts_with OPEN (drop k (before ++ OPEN ++ group ++ CLOSE ++ after)) = false) ->
  (forall k : nat, (k < List.length group)%nat ->
     starts_with CLOSE (drop k (group ++ CLOSE ++ after)) = false) ->
  (forall parsed,
     Json.JSON_parse group = Some parsed ->
     reply true (before ++ OPEN ++ group ++ CLOSE ++ after)
     = Response 200 (Reply (trim (before ++ after)) (Some parsed)))
  /\ (Json.JSON_parse group = None ->
      reply true (before ++ OPEN ++ group ++ CLOSE ++ after)
      = Response 200 (Reply (before ++ OPEN ++ group ++ CLOSE ++ after) None)).
Proof.
  intros Hopen Hclose.
  pose proof (analysisMatch_first before group after Hopen Hclose) as Hm.
  split.
  - intros parsed Hp. unfold reply, extractAnalysis. by rewrite Hm, Hp.
  - intros Hp. unfold reply, extractAnalysis. by rewrite Hm, Hp.
Qed.

Lemma analysis_block_is_extracted_witness :
  reply true
    (js "Bahut badhiya! " ++ OPEN
       ++ quoted "{'understanding':'good','topics':['photosynthesis'],'weakAreas':[],'strongAreas':['plants']}"
       ++ CLOSE ++ [])
  = Response 200
      (Reply (js "Bahut badhiya!")
         (Some (Json.JObject
                  [(js "understanding", Json.JString (js "good"));
                   (js "topics", Json.JArray [Json.JString (js "photosynthesis")]);
                   (js "weakAreas", Json.JArray []);
                   (js "strongAreas", Json.JArray [Json.JString (js "plants")])])))
  /\ reply true
       (js "Bahut badhiya! " ++ OPEN ++ js "{understanding: good}" ++ CLOSE ++ js " Ji")
     = Response 200
         (Reply (js "Bahut badhiya! " ++ OPEN ++ js "{understanding: good}" ++ CLOSE
                   ++ js " Ji") None).
Proof.
  split.
  - apply (analysis_block_is_extracted (js "Bahut badhiya! ")
             (quoted "{'understanding':'good','topics':['photosynthesis'],'weakAreas':[],'strongAreas':['plants']}")
             []).
    + apply first_by_check. vm_compute. reflexivity.
    + apply first_by_check. vm_compute. reflexivity.
    + vm_compute. reflexivity.
  - apply (analysis_block_is_extracted (js "Bahut badhiya! ")
             (js "{understanding: good}") (js " Ji")).
    + apply first_by_check. vm_compute. reflexivity.
    + apply first_by_check. vm_compute. reflexivity.
    + vm_compute. reflexivity.
Defined.

Example understanding_is_good :
  match Json.JSON_parse (quoted "{'understanding':'good','topics':['photosynthesis'],'weakAreas':[],'strongAreas':['plants']}") with
  | Some parsed => Json.property (js "understanding") parsed
  | None => None
  end = Some (Json.JString (js "good")).
Proof. vm_compute. reflexivity. Qed.

Example analysis_not_requested :
  reply false (js "Ji [ANALYSIS]{}[/ANALYSIS]")
  = Response 200 (Reply (js "Ji [ANALYSIS]{}[/ANALYSIS]") None).
Proof. vm_compute. reflexivity. Qed.

(** *** JSON.parse never runs out of fuel *)

Lemma skip_ws_cons (s : jsstring) : forall c rest,
  Json.skip_ws s = c :: rest -> (S (List.length rest) <= List.length s)%nat.
Proof.
  induction s as [| d s IH]; intros c rest H; [discriminate |].
  cbn [Json.skip_ws] in H. destruct (Json.is_json_ws d).
  - apply IH in H. cbn. lia.
  - injection H as <- <-. cbn. lia.
Qed.

Lemma string_body_length (s : jsstring) : forall units rest,
  Json.string_body s = Some (units, rest) -> (List.length rest < List.length s)%nat.
Proof.
  induction s as [s IH] using (induction_ltof1 _ (@List.length Z)).
  unfold ltof in IH. intros units rest H.
  destruct s as [| c s]; [discriminate |]. cbn [Json.string_body] in H.
  repeat case_match; try discriminate; simplify_eq; cbn [List.length] in *;
    try lia;
    match goal with
    | E : Json.string_body ?t = Some (_, ?r) |- _ =>
        apply IH in E; cbn [List.length] in *; lia
    end.
Qed.

Lemma digits_length (s : jsstring) : forall d rest,
  Json.digits s = (d, rest) -> (List.length rest <= List.length s)%nat.
Proof.
  induction s as [| c s IH]; intros d rest H; cbn [Json.digits] in H.
  - by injection H as <- <-.
  - destruct (Json.is_digit c).
    + destruct (Json.digits s) as [d' r'] eqn:E. injection H as <- <-.
      specialize (IH _ _ eq_refl). cbn. lia.
    + injection H as <- <-. done.
Qed.

Lemma number_length (s : jsstring) : forall text rest,
  Json.number s = Some (text, rest) -> (List.length rest < List.length s)%nat.
Proof.
  intros text rest H. unfold Json.number in H.
  destruct (Json.optional_sign true s) as [sign s1] eqn:Hsign.
  destruct (Json.integer_part s1) as [[int s2] |] eqn:Hint; [| discriminate].
  destruct (Json.fraction_part s2) as [[frac s3] |] eqn:Hfrac; [| discriminate].
  destruct (Json.exponent_part s3) as [[ex s4] |] eqn:Hex; [| discriminate].
  injection H as <- <-.
  assert (List.length s1 <= List.length s)%nat as H1.
  { unfold Json.optional_sign in Hsign.
    destruct s as [| c s]; [by injection Hsign as <- <- |].
    destruct (_ || _); injection Hsign as <- <-; cbn; lia. }
  assert (List.length s2 < List.length s1)%nat as H2.
  { unfold Json.integer_part in Hint.
    destruct s1 as [| c s1]; [discriminate |].
    destruct (c =? 48); [injection Hint as <- <-; cbn; lia |].
    destruct (Json.is_digit c); [| discriminate].
    destruct (Json.digits s1) as [d r] eqn:E. injection Hint as <- <-.
    apply digits_length in E. cbn. lia. }
  assert (List.length s3 <= List.length s2)%nat as H3.
  { unfold Json.fraction_part in Hfrac.
    destruct s2 as [| c s2]; [by injection Hfrac as <- <- |].
    destruct (c =? 46); [| by injection Hfrac as <- <-].
    destruct (Json.digits s2) as [[| d0 d] r] eqn:E; [discriminate |].
    injection Hfrac as <- <-. apply digits_length in E. cbn. lia. }
  assert (List.length s4 <= List.length s3)%nat as H4.
  { unfold Json.exponent_part in Hex.
    destruct s3 as [| c s3]; [by injection Hex as <- <- |].
    destruct (_ || _); [| by injection Hex as <- <-].
    destruct (Json.optional_sign false s3) as [sg r1] eqn:Hsg.
    destruct (Json.digits r1) as [[| d0 d] r] eqn:E; [discriminate |].
    injection Hex as <- <-. apply digits_length in E.
    unfold Json.optional_sign in Hsg.
    destruct s3 as [| c3 s3]; [injection Hsg as <- <-; cbn in *; lia |].
    destruct (_ || _); injection Hsg as <- <-; cbn in *; lia. }
  lia.
Qed.

Ltac length_facts :=
  repeat match goal with
         | E : Json.skip_ws _ = _ :: _ |- _ => apply skip_ws_cons in E
         | E : Json.string_body _ = Some (_, _) |- _ => apply string_body_length in E
         | E : Json.number _ = Some (_, _) |- _ => apply number_length in E
         end.

(** Every parser consumes input. *)
Lemma parse_progress (fuel : nat) :
  (forall s v r, Json.value fuel s = Json.Parsed v r ->
                 (List.length r < List.length s)%nat)
  /\ (forall s vs r, Json.elements fuel s = Json.Parsed vs r ->
                     (List.length r < List.length s)%nat)
  /\ (forall s ms r, Json.members fuel s = Json.Parsed ms r ->
                     (List.length r < List.length s)%nat).
Proof.
  induction fuel as [| fuel (IHv & IHe & IHm)]; [by repeat split |].
  repeat split; intros s v r H.
  - cbn [Json.value] in H.
    repeat case_match; try discriminate; simplify_eq;
      repeat match goal with
             | E : Json.members fuel _ = Json.Parsed _ _ |- _ => apply IHm in E
             | E : Json.elements fuel _ = Json.Parsed _ _ |- _ => apply IHe in E
             end;
      length_facts; try rewrite length_skipn; cbn [List.length] in *; lia.
  - cbn [Json.elements] in H.
    repeat case_match; try discriminate; simplify_eq;
      repeat match goal with
             | E : Json.value fuel _ = Json.Parsed _ _ |- _ => apply IHv in E
             | E : Json.elements fuel _ = Json.Parsed _ _ |- _ => apply IHe in E
             end;
      length_facts; cbn [List.length] in *; lia.
  - cbn [Json.members] in H.
    repeat case_match; try discriminate; simplify_eq;
      repeat match goal with
             | E : Json.value fuel _ = Json.Parsed _ _ |- _ => apply IHv in E
             | E : Json.members fuel _ = Json.Parsed _ _ |- _ => apply IHm in E
             end;
      length_facts; cbn [List.length] in *; lia.
Qed.

(** Twice the length of the input, and one more, is fuel enough. *)
Lemma parse_fuel (fuel : nat) :
  (forall s, (2 * List.length s < fuel)%nat -> Json.value fuel s <> Json.OutOfFuel)
  /\ (forall s, (2 * List.length s + 1 < fuel)%nat ->
                Json.elements fuel s <> Json.OutOfFuel)
  /\ (forall s, (2 * List.length s + 1 < fuel)%nat ->
                Json.members fuel s <> Json.OutOfFuel).
Proof.
  induction fuel as [| fuel (IHv & IHe & IHm)]; [repeat split; intros; lia |].
  destruct (parse_progress fuel) as (Pv & Pe & Pm).
  repeat split; intros s Hs H.
  - cbn [Json.value] in H.
    repeat case_match; try discriminate; simplify_eq;
      match goal with
      | E : Json.members fuel _ = Json.OutOfFuel |- _ => apply IHm in E; [done |]
      | E : Json.elements fuel _ = Json.OutOfFuel |- _ => apply IHe in E; [done |]
      end;
      length_facts; cbn [List.length] in *; lia.
  - cbn [Json.elements] in H.
    repeat case_match; try discriminate; simplify_eq;
      repeat match goal with
             | E : Json.value fuel _ = Json.Parsed _ _ |- _ => apply Pv in E
             end;
      match goal with
      | E : Json.value fuel _ = Json.OutOfFuel |- _ => apply IHv in E; [done |]
      | E : Json.elements fuel _ = Json.OutOfFuel |- _ => apply IHe in E; [done |]
      end;
      length_facts; cbn [List.length] in *; lia.
  - cbn [Json.members] in H.
    repeat case_match; try discriminate; simplify_eq;
      repeat match goal with
             | E : Json.value fuel _ = Json.Parsed _ _ |- _ => apply Pv in E
             end;
      match goal with
      | E : Json.value fuel _ = Json.OutOfFuel |- _ => apply IHv in E; [done |]
      | E : Json.members fuel _ = Json.OutOfFuel |- _ => apply IHm in E; [done |]
      end;
      length_facts; cbn [List.length] in *; lia.
Qed.

(** [JSON_parse] answers on every text: its [None] is a malformed text or
    text left over, never a lack of fuel. *)
Lemma JSON_parse_total (s : jsstring) :
  Json.value (Json.enough s) s <> Json.OutOfFuel.
Proof. apply parse_fuel. unfold Json.enough. lia. Qed.

(* ===================================================================== *)
(** * Further properties of the code                                      *)
(* ===================================================================== *)

(** ** secure-auth: the limiter over time *)

Module LimiterFacts.
Import JS Platform SecureAuth History Timeline.

(** Fewer than five recorded failures never block: the next check of the
    identifier is allowed, whenever it comes. *)
Theorem four_failures_do_not_block (id : jsstring) (m : loginAttempts)
    (times : list Z) (now : Z) :
  m !! id = None ->
  (List.length times < 5)%nat ->
  0 <= now ->
  allowed (fst (checkRateLimit now id (recordFailures id times m))) = true.
Proof.
  intros Hfresh Hlen Hnow. destruct times as [| t times].
  - cbn. by rewrite (check_absent now id m Hfresh).
  - unfold checkRateLimit. rewrite (recordFailures_absent id t times m Hfresh).
    cbn [count lastAttempt blockedUntil].
    destruct (Z.gtb_spec 0 now); [lia |].
    destruct (_ >? RATE_LIMIT_WINDOW); [reflexivity |].
    destruct (Z.geb_spec (Z.of_nat (List.length (t :: times))) MAX_ATTEMPTS);
      [unfold MAX_ATTEMPTS in *; lia | reflexivity].
Qed.

Lemma four_failures_do_not_block_witness :
  allowed (fst (checkRateLimit 5000 (js "admin:root")
                  (recordFailures (js "admin:root") [1000; 2000; 3000; 4000] ∅)))
  = true.
Proof.
  apply (four_failures_do_not_block (js "admin:root") ∅ [1000; 2000; 3000; 4000] 5000).
  - apply lookup_empty.
  - simpl. lia.
  - lia.
Defined.

(** A record that is not blocked and whose last attempt is more than 15
    minutes old is dropped by the next check, whatever its count; the check
    is allowed and the next failure counts as the first. *)
Theorem stale_record_is_forgotten (id : jsstring) (m : loginAttempts)
    (r : attempt_record) (now later : Z) :
  m !! id = Some r ->
  blockedUntil r <= now ->
  RATE_LIMIT_WINDOW < now - lastAttempt r ->
  checkRateLimit now id m = (RateCheck true None, delete id m)
  /\ recordAttempt later id false (snd (checkRateLimit now id m)) !! id
     = Some (AttemptRecord 1 later 0).
Proof.
  intros Hm Hb Hw.
  assert (checkRateLimit now id m = (RateCheck true None, delete id m)) as Hcheck.
  { unfold checkRateLimit. rewrite Hm.
    destruct (Z.gtb_spec (blockedUntil r) now); [lia |].
    destruct (Z.gtb_spec (now - lastAttempt r) RATE_LIMIT_WINDOW); [done | lia]. }
  split; [done |]. rewrite Hcheck. cbn [snd].
  apply record_failure_absent, lookup_delete_eq.
Qed.

Lemma stale_record_is_forgotten_witness :
  checkRateLimit 2000000 (js "admin:root")
    (<[js "admin:root" := AttemptRecord 7 1000 0]> ∅)
  = (RateCheck true None,
     delete (js "admin:root") (<[js "admin:root" := AttemptRecord 7 1000 0]> ∅))
  /\ recordAttempt 2000001 (js "admin:root") false
       (snd (checkRateLimit 2000000 (js "admin:root")
               (<[js "admin:root" := AttemptRecord 7 1000 0]> ∅)))
       !! js "admin:root"
     = Some (AttemptRecord 1 2000001 0).
Proof.
  apply (stale_record_is_forgotten (js "admin:root")
           (<[js "admin:root" := AttemptRecord 7 1000 0]> ∅)
           (AttemptRecord 7 1000 0) 2000000 2000001).
  - apply lookup_insert_eq.
  - simpl. lia.
  - unfold RATE_LIMIT_WINDOW. simpl. lia.
Defined.

(** When a block has run out, the first check afterwards is allowed and
    removes the record: the identifier starts again without failures. The
    attempts that led to the block were recorded before the check that
    set it. *)
Theorem expired_block_starts_fresh (id : jsstring) (m : loginAttempts)
    (r : attempt_record) (trigger now : Z) :
  m !! id = Some r ->
  blockedUntil r <= trigger ->
  lastAttempt r <= trigger ->
  trigger - lastAttempt r <= RATE_LIMIT_WINDOW ->
  MAX_ATTEMPTS <= count r ->
  trigger + BLOCK_DURATION <= now ->
  checkRateLimit now id (snd (checkRateLimit trigger id m))
  = (RateCheck true None, delete id m).
Proof.
  intros Hm Hb Hl Hw Hc Hnow.
  rewrite (check_trigger _ _ _ _ Hm Hb Hw Hc). cbn [snd].
  unfold checkRateLimit. rewrite lookup_insert_eq.
  cbn [count lastAttempt blockedUntil].
  destruct (Z.gtb_spec (trigger + BLOCK_DURATION) now); [lia |].
  destruct (Z.gtb_spec (now - lastAttempt r) RATE_LIMIT_WINDOW).
  - by rewrite delete_insert_eq.
  - unfold BLOCK_DURATION, RATE_LIMIT_WINDOW in *. lia.
Qed.

Lemma expired_block_starts_fresh_witness :
  checkRateLimit 1806000 (js "admin:root")
    (snd (checkRateLimit 6000 (js "admin:root")
            (<[js "admin:root" := AttemptRecord 5 5000 0]> ∅)))
  = (RateCheck true None,
     delete (js "admin:root") (<[js "admin:root" := AttemptRecord 5 5000 0]> ∅)).
Proof.
  apply (expired_block_starts_fresh (js "admin:root")
           (<[js "admin:root" := AttemptRecord 5 5000 0]> ∅)
           (AttemptRecord 5 5000 0) 6000 1806000).
  - apply lookup_insert_eq.
  - simpl. lia.
  - simpl. lia.
  - unfold RATE_LIMIT_WINDOW. simpl. lia.
  - unfold MAX_ATTEMPTS. simpl. lia.
  - unfold BLOCK_DURATION. lia.
Defined.

(** From the check that sets a block until the block ends, every check
    reports between 1 and 1800 seconds to wait and leaves the limiter as it
    is. *)
Theorem wait_is_between_1_and_1800 (id : jsstring) (m : loginAttempts)
    (r : attempt_record) (trigger now : Z) :
  m !! id = Some r ->
  blockedUntil r <= trigger ->
  trigger - lastAttempt r <= RATE_LIMIT_WINDOW ->
  MAX_ATTEMPTS <= count r ->
  trigger <= now < trigger + BLOCK_DURATION ->
  exists w,
    checkRateLimit now id (snd (checkRateLimit trigger id m))
    = (RateCheck false (Some w), snd (checkRateLimit trigger id m))
    /\ 1 <= w <= 1800.
Proof.
  intros Hm Hb Hw Hc Hnow.
  rewrite (check_trigger _ _ _ _ Hm Hb Hw Hc). cbn [snd].
  exists (ceil_div (trigger + BLOCK_DURATION - now) 1000). split.
  - rewrite (check_blocked now id _
               (AttemptRecord (count r) (lastAttempt r) (trigger + BLOCK_DURATION)));
      [done | apply lookup_insert_eq | cbn; lia].
  - pose proof (ceil_div_spec (trigger + BLOCK_DURATION - now) 1000 ltac:(lia)).
    unfold BLOCK_DURATION in *. lia.
Qed.

Lemma wait_is_between_1_and_1800_witness :
  exists w,
    checkRateLimit 906500 (js "admin:root")
      (snd (checkRateLimit 6000 (js "admin:root")
              (<[js "admin:root" := AttemptRecord 5 5000 0]> ∅)))
    = (RateCheck false (Some w),
       snd (checkRateLimit 6000 (js "admin:root")
              (<[js "admin:root" := AttemptRecord 5 5000 0]> ∅)))
    /\ 1 <= w <= 1800.
Proof.
  apply (wait_is_between_1_and_1800 (js "admin:root")
           (<[js "admin:root" := AttemptRecord 5 5000 0]> ∅)
           (AttemptRecord 5 5000 0) 6000 906500).
  - apply lookup_insert_eq.
  - simpl. lia.
  - unfold RATE_LIMIT_WINDOW. simpl. lia.
  - unfold MAX_ATTEMPTS. simpl. lia.
  - unfold BLOCK_DURATION. lia.
Defined.

(** One more failing login, no later than a window after the attempt
    recorded before it. *)
Lemma chained_step (id : jsstring) (prev : Z) (m : loginAttempts) (e : event)
    (k : Z) :
  0 <= prev -> 0 <= k < MAX_ATTEMPTS ->
  (k = 0 /\ m !! id = None)
  \/ (exists r, m !! id = Some r /\ count r = k /\ blockedUntil r = 0
                /\ lastAttempt r = prev) ->
  failing_login id e -> within prev (prev + RATE_LIMIT_WINDOW) e ->
  exists r, step m e !! id = Some r /\ count r = k + 1 /\ blockedUntil r = 0
            /\ lastAttempt r = record_time e /\ 0 <= record_time e.
Proof.
  intros Hprev Hk Hinv Hfail Hwin.
  destruct e as [| | now_check now_record secret db uuid req]; [done | done |].
  destruct Hfail as [<- Hfail]. destruct Hwin as [Hc Hr]. cbn [step record_time].
  assert (checkRateLimit now_check (rateLimitKey req) m = (RateCheck true None, m))
    as Hcheck.
  { destruct Hinv as [[_ Hm] | (r & Hm & Hcount & Hbu & Hlast)].
    - by apply check_absent.
    - unfold checkRateLimit. rewrite Hm, Hbu.
      destruct (Z.gtb_spec 0 now_check); [lia |].
      destruct (Z.gtb_spec (now_check - lastAttempt r) RATE_LIMIT_WINDOW); [lia |].
      destruct (Z.geb_spec (count r) MAX_ATTEMPTS); [lia | done]. }
  rewrite failing_login_attempts; [| by rewrite Hcheck | done].
  rewrite Hcheck. cbn [snd].
  destruct Hinv as [[-> Hm] | (r & Hm & Hcount & Hbu & Hlast)].
  - rewrite (record_failure_absent _ _ _ Hm). eexists. split; [done |].
    cbn. lia.
  - rewrite (record_failure_present _ _ _ _ Hm). eexists. split; [done |].
    cbn. lia.
Qed.

Lemma chained_run (id : jsstring) (events : list event) :
  forall (m : loginAttempts) (prev k : Z),
  0 <= prev -> 0 <= k -> k + Z.of_nat (List.length events) <= MAX_ATTEMPTS ->
  (k = 0 /\ m !! id = None)
  \/ (exists r, m !! id = Some r /\ count r = k /\ blockedUntil r = 0
                /\ lastAttempt r = prev) ->
  chained id prev events ->
  events <> [] ->
  exists r, run events m !! id = Some r
            /\ count r = k + Z.of_nat (List.length events)
            /\ blockedUntil r = 0 /\ 0 <= lastAttempt r.
Proof.
  unfold run.
  induction events as [| e events IH]; intros m prev k Hprev Hk Hlen Hinv Hch Hne;
    [done |].
  cbn [fold_left]. destruct Hch as (Hfail & Hwin & Hrest).
  rewrite length_cons in Hlen.
  destruct (chained_step id prev m e k Hprev ltac:(lia) Hinv Hfail Hwin)
    as (r & Hr & Hcount & Hbu & Hlast & Htime).
  destruct events as [| e' events].
  - cbn [fold_left]. exists r. rewrite length_cons. cbn [List.length].
    repeat split; first [done | lia].
  - destruct (IH (step m e) (record_time e) (k + 1))
      as (r' & Hr' & Hcount' & Hbu' & Hlast');
      [done | lia | lia | right; by exists r | done | done |].
    exists r'. repeat split; try done.
    rewrite Hcount', (length_cons e). lia.
Qed.

(** The window slides with the last attempt: five logins that fail on
    their merits, each checked and recorded no more than 15 minutes after the
    attempt before it, block the identifier at the next check inside the
    window of the fifth, however long ago the first one was. *)
Theorem spaced_failures_still_block (m : loginAttempts) (events : list event)
    (start now_check now_record : Z) (secret : jsstring) (db : database)
    (uuid : jsstring) (req : login_request) :
  0 <= start ->
  m !! rateLimitKey req = None ->
  List.length events = 5%nat ->
  chained (rateLimitKey req) start events ->
  (forall r, run events m !! rateLimitKey req = Some r ->
             lastAttempt r <= now_check <= lastAttempt r + RATE_LIMIT_WINDOW) ->
  answer (login now_check now_record secret db uuid req (run events m))
  = Response 429 (RateLimited (Some 1800))
  /\ effects (login now_check now_record secret db uuid req (run events m)) = [].
Proof.
  intros Hstart Hfresh Hlen Hch Hnow.
  destruct (chained_run (rateLimitKey req) events m start 0)
    as (r & Hr & Hcount & Hbu & Hlast);
    [done | lia | rewrite Hlen; unfold MAX_ATTEMPTS; lia | by left | done
    | by destruct events |].
  specialize (Hnow r Hr). unfold login.
  rewrite (check_trigger _ _ _ _ Hr);
    [| lia | lia | rewrite Hcount, Hlen; unfold MAX_ATTEMPTS; lia].
  done.
Qed.

Lemma spaced_failures_still_block_witness :
  answer
    (login 3500000 3500001 (js "service-role-key")
       (Database (fun _ => LookupData None) (fun _ => LookupData None)) (js "uuid")
       (LoginRequest (js "admin") (Some (js "root")) (js "guess") None None)
       (run (map (fun t =>
                    LoginRequested t (t + 1) (js "service-role-key")
                      (Database (fun _ => LookupData None) (fun _ => LookupData None))
                      (js "uuid")
                      (LoginRequest (js "admin") (Some (js "root")) (js "guess")
                         None None))
               [1000; 800000; 1600000; 2400000; 3200000]) ∅))
  = Response 429 (RateLimited (Some 1800))
  /\ effects
       (login 3500000 3500001 (js "service-role-key")
          (Database (fun _ => LookupData None) (fun _ => LookupData None)) (js "uuid")
          (LoginRequest (js "admin") (Some (js "root")) (js "guess") None None)
          (run (map (fun t =>
                       LoginRequested t (t + 1) (js "service-role-key")
                         (Database (fun _ => LookupData None) (fun _ => LookupData None))
                         (js "uuid")
                         (LoginRequest (js "admin") (Some (js "root")) (js "guess")
                            None None))
                  [1000; 800000; 1600000; 2400000; 3200000]) ∅))
     = [].
Proof.
  apply (spaced_failures_still_block ∅
           (map (fun t =>
                   LoginRequested t (t + 1) (js "service-role-key")
                     (Database (fun _ => LookupData None) (fun _ => LookupData None))
                     (js "uuid")
                     (LoginRequest (js "admin") (Some (js "root")) (js "guess")
                        None None))
              [1000; 800000; 1600000; 2400000; 3200000])
           0 3500000 3500001).
  - lia.
  - apply lookup_empty.
  - reflexivity.
  - cbn [map chained failing_login within record_time].
    unfold RATE_LIMIT_WINDOW.
    repeat split; try lia; try reflexivity;
      left; exists NoRow; left; split; reflexivity.
  - intros r Hr. vm_compute in Hr. injection Hr as <-.
    unfold RATE_LIMIT_WINDOW. cbn. lia.
Defined.

(** A login changes no record but the one of its own key; the keys of a
    school and of an admin differ, so failed school logins never count
    against an admin. *)
Theorem login_touches_only_its_key (now_check now_record : Z) (secret : jsstring)
    (db : database) (uuid : jsstring) (req other : login_request)
    (m : loginAttempts) :
  (forall id, id <> rateLimitKey req ->
     attempts (login now_check now_record secret db uuid req m) !! id = m !! id)
  /\ (userType req = js "school" -> userType other = js "admin" ->
      rateLimitKey req <> rateLimitKey other
      /\ attempts (login now_check now_record secret db uuid req m)
           !! rateLimitKey other
         = m !! rateLimitKey other).
Proof.
  split; [intros id Hne; by apply login_other |].
  intros Hreq Hother.
  assert (rateLimitKey req <> rateLimitKey other) as Hne.
  { unfold rateLimitKey. rewrite Hreq, Hother. cbn [js app].
    intros Heq. injection Heq as Heq _. vm_compute in Heq. discriminate. }
  split; [done |]. apply login_other. by intros Heq.
Qed.

Lemma login_touches_only_its_key_witness :
  rateLimitKey (LoginRequest (js "school") (Some (js "root")) (js "guess") None None)
  <> rateLimitKey (LoginRequest (js "admin") (Some (js "root")) (js "s3cret") None None)
  /\ attempts
       (login 1000 1001 (js "service-role-key")
          (Database (fun _ => LookupData None) (fun _ => LookupData None)) (js "uuid")
          (LoginRequest (js "school") (Some (js "root")) (js "guess") None None)
          (<[js "admin:root" := AttemptRecord 4 900 0]> ∅))
       !! rateLimitKey
            (LoginRequest (js "admin") (Some (js "root")) (js "s3cret") None None)
     = (<[js "admin:root" := AttemptRecord 4 900 0]> ∅ : loginAttempts)
         !! rateLimitKey
              (LoginRequest (js "admin") (Some (js "root")) (js "s3cret") None None).
Proof.
  apply (login_touches_only_its_key 1000 1001 (js "service-role-key")
           (Database (fun _ => LookupData None) (fun _ => LookupData None)) (js "uuid")
           (LoginRequest (js "school") (Some (js "root")) (js "guess") None None)
           (LoginRequest (js "admin") (Some (js "root")) (js "s3cret") None None)
           (<[js "admin:root" := AttemptRecord 4 900 0]> ∅));
    reflexivity.
Defined.

End LimiterFacts.

(** ** secure-auth: what a login answers *)

Module LoginFacts.
Import JS Platform SecureAuth History Verdicts.

(** A login is answered 200 exactly when the rate check lets it through,
    the principal's row is found, a school is not suspended, and the
    password check accepts. The answer then carries the UUID that was drawn
    and the record of the key is gone, whatever its count was. *)
Theorem login_succeeds_exactly_when_accepted (now_check now_record : Z)
    (secret : jsstring) (db : database) (uuid : jsstring) (req : login_request)
    (m : loginAttempts) :
  (status (answer (login now_check now_record secret db uuid req m)) = 200
   <-> allowed (fst (checkRateLimit now_check (rateLimitKey req) m)) = true
       /\ right_password secret db req)
  /\ (status (answer (login now_check now_record secret db uuid req m)) = 200 ->
      token_of (payload (answer (login now_check now_record secret db uuid req m)))
      = Some uuid
      /\ attempts (login now_check now_record secret db uuid req m)
           !! rateLimitKey req = None).
Proof.
  unfold login, right_password.
  destruct (checkRateLimit now_check (rateLimitKey req) m) as [rc m1].
  cbn [fst]. destruct (allowed rc); cbn [negb].
  2: { cbn. split; [split; [discriminate | intros [? _]; discriminate] | discriminate]. }
  destruct (decide (userType req = js "admin")) as [Ha | Ha].
  - assert (userType req <> js "school") as Hs
      by (rewrite Ha; apply admin_is_not_school).
    destruct (admins_by_admin_id db _) as [| [a |]] eqn:Hrow.
    + cbn. split; [split; [discriminate |] | discriminate].
      intros [_ [(_ & a & Hf & _) | (Hs' & _)]]; [discriminate | done].
    + destruct (passwordRejected _ _ (admin_password_hash a)) eqn:Hrej.
      * cbn. split; [split; [discriminate |] | discriminate].
        intros [_ [(_ & a' & Hf & Hr) | (Hs' & _)]]; [| done].
        injection Hf as <-. congruence.
      * cbn [answer status payload attempts token_of].
        split; [split; [intros _; split; [done |]; left; eauto | done] |].
        intros _. split; [done |]. unfold recordAttempt. apply lookup_delete_eq.
    + cbn. split; [split; [discriminate |] | discriminate].
      intros [_ [(_ & a & Hf & _) | (Hs' & _)]]; [discriminate | done].
  - destruct (decide (userType req = js "school")) as [Hs | Hs].
    + destruct (schools_by_school_id db _) as [| [sc |]] eqn:Hrow.
      * cbn. split; [split; [discriminate |] | discriminate].
        intros [_ [(Ha' & _) | (_ & sc & Hf & _)]]; [done | discriminate].
      * destruct (school_is_banned sc) eqn:Hban.
        -- cbn. split; [split; [discriminate |] | discriminate].
           intros [_ [(Ha' & _) | (_ & sc' & Hf & Hb & _)]]; [done |].
           injection Hf as <-. congruence.
        -- destruct (passwordRejected _ _ (school_password_hash sc)) eqn:Hrej.
           ++ cbn. split; [split; [discriminate |] | discriminate].
              intros [_ [(Ha' & _) | (_ & sc' & Hf & _ & Hr)]]; [done |].
              injection Hf as <-. congruence.
           ++ cbn [answer status payload attempts token_of].
              split; [split; [intros _; split; [done |]; right; eauto | done] |].
              intros _. split; [done |]. unfold recordAttempt.
              apply lookup_delete_eq.
      * cbn. split; [split; [discriminate |] | discriminate].
        intros [_ [(Ha' & _) | (_ & sc & Hf & _)]]; [done | discriminate].
    + cbn. split; [split; [discriminate |] | discriminate].
      intros [_ [(Ha' & _) | (Hs' & _)]]; done.
Qed.

Lemma login_succeeds_exactly_when_accepted_witness :
  token_of
    (payload
       (answer
          (login 1000 1001 (js "service-role-key")
             (Database
                (fun v => LookupData
                            (Some (AdminRow (js "u-1") v (js "Root") (js "super")
                                     (js "plain-text"))))
                (fun _ => LookupData None))
             (js "3f8a1c2e-9b47-4d1a-8c3e-5f6a7b8c9d0e")
             (LoginRequest (js "admin") (Some (js "root")) (js "plain-text") None None)
             (<[js "admin:root" := AttemptRecord 4 900 0]> ∅))))
  = Some (js "3f8a1c2e-9b47-4d1a-8c3e-5f6a7b8c9d0e")
  /\ attempts
       (login 1000 1001 (js "service-role-key")
          (Database
             (fun v => LookupData
                         (Some (AdminRow (js "u-1") v (js "Root") (js "super")
                                  (js "plain-text"))))
             (fun _ => LookupData None))
          (js "3f8a1c2e-9b47-4d1a-8c3e-5f6a7b8c9d0e")
          (LoginRequest (js "admin") (Some (js "root")) (js "plain-text") None None)
          (<[js "admin:root" := AttemptRecord 4 900 0]> ∅))
       !! rateLimitKey
            (LoginRequest (js "admin") (Some (js "root")) (js "plain-text") None None)
     = None.
Proof.
  apply (login_succeeds_exactly_when_accepted 1000 1001 (js "service-role-key")
           (Database
              (fun v => LookupData
                          (Some (AdminRow (js "u-1") v (js "Root") (js "super")
                                   (js "plain-text"))))
              (fun _ => LookupData None))
           (js "3f8a1c2e-9b47-4d1a-8c3e-5f6a7b8c9d0e")
           (LoginRequest (js "admin") (Some (js "root")) (js "plain-text") None None)
           (<[js "admin:root" := AttemptRecord 4 900 0]> ∅)).
  vm_compute. reflexivity.
Defined.



End LoginFacts.

(** ** secure-auth: generated credentials and the management actions *)

Module ProvisioningFacts.
Import JS Platform SecureAuth Provisioning.

Lemma pick_letter (randomBytes : list Z) (i : nat) (b : Z) :
  randomBytes !! i = Some b -> 0 <= b ->
  pick randomBytes i = [letter b] /\ letter b ∈ chars.
Proof.
  intros Hb Hpos. unfold pick, letter. rewrite Hb. cbv zeta.
  set (n := Z.of_nat (List.length chars)).
  assert (0 <= Z.rem b n < n) as Hr by (apply Z.rem_bound_pos; [done | by subst n]).
  destruct (Z.leb_spec 0 (Z.rem b n)); [| lia].
  assert (Z.to_nat (Z.rem b n) < List.length chars)%nat as Hlt by (subst n; lia).
  destruct (lookup_lt_is_Some_2 chars _ Hlt) as [c Hc].
  rewrite Hc. rewrite (nth_lookup_Some _ _ 0 _ Hc).
  split; [done |]. by eapply list_elem_of_lookup_2.
Qed.

(** The loop that appends [n] characters read from position [k] on. *)
Lemma picked (randomBytes : list Z) (k : nat) (init : jsstring) :
  Forall (fun b => 0 <= b < 256) randomBytes ->
  forall n : nat, (k + n <= List.length randomBytes)%nat ->
  fold_left (fun acc i => acc ++ pick randomBytes (k + i)) (seq 0 n) init
  = init ++ map letter (take n (drop k randomBytes)).
Proof.
  intros Hbytes n. induction n as [| n IH]; intros Hlen.
  - cbn. by rewrite app_nil_r.
  - rewrite seq_S, fold_left_app, IH by lia. cbn [fold_left Nat.add].
    destruct (lookup_lt_is_Some_2 randomBytes (k + n) ltac:(lia)) as [b Hb].
    pose proof (Forall_lookup_1 _ _ _ _ Hbytes Hb) as Hrange. cbv beta in Hrange.
    destruct (pick_letter randomBytes (k + n) b Hb ltac:(lia)) as [-> _].
    rewrite <- app_assoc. f_equal.
    assert (drop k randomBytes !! n = Some b) as Hd by (by rewrite lookup_drop).
    by rewrite (take_S_r _ _ _ Hd), map_app.
Qed.

Lemma letter_in_chars (b : Z) : 0 <= b -> letter b ∈ chars.
Proof.
  intros Hb. destruct (pick_letter [b] 0 b eq_refl Hb) as [_ H]. exact H.
Qed.

Lemma chars_are_unambiguous : Forall (fun c => c ∉ js "01IOilo") chars.
Proof.
  apply Forall_forall. intros c Hc Hbad.
  assert (forallb (fun c => negb (existsb (Z.eqb c) (js "01IOilo"))) chars = true)
    as Hall by (vm_compute; reflexivity).
  rewrite forallb_forall in Hall.
  specialize (Hall c (proj1 (list_elem_of_In _ _) Hc)).
  apply negb_true_iff in Hall.
  assert (existsb (Z.eqb c) (js "01IOilo") = true) as Hex; [| congruence].
  apply existsb_exists. exists c.
  split; [by apply list_elem_of_In | apply Z.eqb_refl].
Qed.

Lemma credentials_shape_of (randomBytes : list Z) :
  List.length randomBytes = 28%nat ->
  Forall (fun b => 0 <= b < 256) randomBytes ->
  fst (generateSecureCredentials randomBytes)
  = js "SCH_" ++ map letter (take 12 randomBytes)
  /\ snd (generateSecureCredentials randomBytes) = map letter (drop 12 randomBytes)
  /\ List.length (snd (generateSecureCredentials randomBytes)) = 16%nat.
Proof.
  intros Hlen Hbytes. unfold generateSecureCredentials. cbn [fst snd].
  pose proof (picked randomBytes 0 (js "SCH_") Hbytes 12 ltac:(lia)) as Hid.
  pose proof (picked randomBytes 12 [] Hbytes 16 ltac:(lia)) as Hpw.
  cbn [Nat.add] in Hid. rewrite drop_0 in Hid.
  unfold idLength, passLength. rewrite Hid, Hpw. cbn [app].
  rewrite (take_ge (drop 12 randomBytes)) by (rewrite length_drop; lia).
  repeat split. rewrite length_map, length_drop, Hlen. reflexivity.
Qed.

(** The generated id is [SCH_] followed by twelve characters read from the
    first twelve random bytes, the password sixteen characters read from the
    other sixteen; all of them come from the alphabet, which has none of the
    look-alike characters 0, 1, I, O, i, l, o. *)
Theorem credentials_have_fixed_shape (randomBytes : list Z) :
  List.length randomBytes = 28%nat ->
  Forall (fun b => 0 <= b < 256) randomBytes ->
  fst (generateSecureCredentials randomBytes)
  = js "SCH_" ++ map letter (take 12 randomBytes)
  /\ snd (generateSecureCredentials randomBytes) = map letter (drop 12 randomBytes)
  /\ List.length (fst (generateSecureCredentials randomBytes)) = 16%nat
  /\ List.length (snd (generateSecureCredentials randomBytes)) = 16%nat
  /\ Forall (fun c => c ∈ chars /\ c ∉ js "01IOilo")
       (map letter randomBytes).
Proof.
  intros Hlen Hbytes. unfold generateSecureCredentials. cbn [fst snd].
  pose proof (picked randomBytes 0 (js "SCH_") Hbytes 12 ltac:(lia)) as Hid.
  pose proof (picked randomBytes 12 [] Hbytes 16 ltac:(lia)) as Hpw.
  cbn [Nat.add] in Hid. rewrite drop_0 in Hid.
  unfold idLength, passLength. rewrite Hid, Hpw. cbn [app].
  rewrite (take_ge (drop 12 randomBytes)) by (rewrite length_drop; lia).
  repeat split.
  - rewrite length_app, length_map, length_take, Hlen. reflexivity.
  - rewrite length_map, length_drop, Hlen. reflexivity.
  - apply Forall_map. eapply Forall_impl; [exact Hbytes |].
    intros b Hb. cbv beta in *.
    pose proof (letter_in_chars b ltac:(lia)) as Hin.
    split; [done |].
    exact (proj1 (Forall_forall _ _) chars_are_unambiguous _ Hin).
Qed.

Lemma credentials_have_fixed_shape_witness :
  fst (generateSecureCredentials (map Z.of_nat (seq 100 28)))
  = js "SCH_" ++ map letter (take 12 (map Z.of_nat (seq 100 28)))
  /\ snd (generateSecureCredentials (map Z.of_nat (seq 100 28)))
     = map letter (drop 12 (map Z.of_nat (seq 100 28)))
  /\ List.length (fst (generateSecureCredentials (map Z.of_nat (seq 100 28)))) = 16%nat
  /\ List.length (snd (generateSecureCredentials (map Z.of_nat (seq 100 28)))) = 16%nat
  /\ Forall (fun c => c ∈ chars /\ c ∉ js "01IOilo")
       (map letter (map Z.of_nat (seq 100 28))).
Proof.
  apply (credentials_have_fixed_shape (map Z.of_nat (seq 100 28))).
  - reflexivity.
  - apply Forall_forall. intros b Hb.
    apply list_elem_of_In, in_map_iff in Hb as (n & <- & Hn).
    apply in_seq in Hn. lia.
Defined.

Example credentials_sample :
  generateSecureCredentials (map Z.of_nat (seq 100 28))
  = (js "SCH_yz23456789AB", js "CDEFGHJKLMNPQRST").
Proof. vm_compute. reflexivity. Qed.

(** The draw is not uniform: 256 is not a multiple of 55, so each of the
    first 36 characters of the alphabet is drawn by five byte values and
    each of the other 19 by four. *)
Theorem first_characters_are_drawn_more_often (k : nat) (c : Z) :
  chars !! k = Some c ->
  draws_of c = if (k <? 36)%nat then 5%nat else 4%nat.
Proof.
  intros Hc.
  assert (forallb
            (fun k => match chars !! k with
                      | Some c => (draws_of c =? (if (k <? 36)%nat then 5 else 4))%nat
                      | None => false
                      end)
            (seq 0 55) = true) as Hall by (vm_compute; reflexivity).
  rewrite forallb_forall in Hall.
  assert (k < 55)%nat as Hk by (apply lookup_lt_Some in Hc; exact Hc).
  specialize (Hall k ltac:(apply in_seq; lia)).
  rewrite Hc in Hall. by apply Nat.eqb_eq in Hall.
Qed.

Lemma first_characters_are_drawn_more_often_witness :
  draws_of 65 = 5%nat.
Proof. apply (first_characters_are_drawn_more_often 0 65). reflexivity. Defined.

Lemma sha_round_length (st : list Z) (kw : Z * Z) :
  List.length (sha_round st kw) = List.length st.
Proof.
  destruct st as [| a [| b [| c [| d [| e [| f [| g [| h [| i st]]]]]]]]];
    reflexivity.
Qed.

Lemma rounds_length (pairs : list (Z * Z)) : forall st : list Z,
  List.length (fold_left sha_round pairs st) = List.length st.
Proof.
  induction pairs as [| kw pairs IH]; intros st; [reflexivity |].
  cbn [fold_left]. by rewrite IH, sha_round_length.
Qed.

Lemma compress_length (h block : list Z) :
  List.length (compress h block) = List.length h.
Proof.
  unfold compress. cbv zeta.
  rewrite length_map, length_combine, rounds_length. lia.
Qed.

Lemma hash_blocks_length (n : nat) : forall h bytes : list Z,
  List.length (hash_blocks n h bytes) = List.length h.
Proof.
  induction n as [| n IH]; intros h bytes; [reflexivity |].
  cbn [hash_blocks]. by rewrite IH, compress_length.
Qed.

Lemma sha256_length (msg : list Z) : List.length (sha256 msg) = 32%nat.
Proof.
  unfold sha256. cbv zeta.
  assert (forall words : list Z,
            List.length (flat_map (be_bytes 4) words) = (4 * List.length words)%nat)
    as Hflat.
  { induction words as [| w words IH]; [reflexivity |].
    cbn [flat_map]. rewrite length_app, IH. cbn. lia. }
  rewrite Hflat, hash_blocks_length. reflexivity.
Qed.

Lemma hex_length (bytes : list Z) :
  List.length (hex bytes) = (2 * List.length bytes)%nat.
Proof.
  induction bytes as [| b bytes IH]; [reflexivity |].
  unfold hex in *. cbn [flat_map hex_byte app List.length]. rewrite IH. lia.
Qed.

Lemma hex_digit_is_lower_hex (d : Z) :
  0 <= d < 16 -> hex_digit d ∈ js "0123456789abcdef".
Proof.
  intros Hd.
  assert (forallb (fun d => existsb (Z.eqb (hex_digit (Z.of_nat d)))
                              (js "0123456789abcdef")) (seq 0 16) = true)
    as Hall by (vm_compute; reflexivity).
  rewrite forallb_forall in Hall.
  specialize (Hall (Z.to_nat d) ltac:(apply in_seq; lia)).
  rewrite Z2Nat.id in Hall by lia.
  apply existsb_exists in Hall as (c & Hc & Heq).
  apply Z.eqb_eq in Heq as ->. by apply list_elem_of_In.
Qed.

Lemma hashPassword_length (serviceRoleKey : option jsstring) (password : jsstring) :
  List.length (hashPassword serviceRoleKey password) = 64%nat.
Proof. unfold hashPassword. by rewrite hex_length, sha256_length. Qed.

(** Whatever the password and the key, the stored hash is 64 lower-case
    hexadecimal digits. *)
Theorem hash_is_64_hex_digits (serviceRoleKey : option jsstring)
    (password : jsstring) :
  List.length (hashPassword serviceRoleKey password) = 64%nat
  /\ Forall (fun c => c ∈ js "0123456789abcdef")
       (hashPassword serviceRoleKey password).
Proof.
  split; [apply hashPassword_length |]. unfold hashPassword.
  - pose proof (sha256_bytes (utf8_encode (password ++ secret_suffix serviceRoleKey)))
      as Hbytes.
    induction Hbytes as [| b bytes Hb _ IH]; [constructor |].
    unfold hex in *. cbn [flat_map hex_byte app].
    constructor; [| constructor; [| exact IH]]; apply hex_digit_is_lower_hex.
    + split; [apply Z.div_pos; lia | apply Z.div_lt_upper_bound; lia].
    + apply Z.mod_pos_bound. lia.
Qed.

(** A stored credential that is not 64 characters long can only be
    matched as plain text: the password check accepts exactly the stored
    string itself. *)
Theorem short_credential_is_compared_as_plain_text (serviceRoleKey : option jsstring)
    (password stored : jsstring) :
  wf_string password -> wf_string stored ->
  List.length stored <> 64%nat ->
  (passwordRejected serviceRoleKey password stored = false <-> password = stored).
Proof.
  intros Hp Hs Hlen.
  rewrite (passwordRejected_iff serviceRoleKey password stored Hp Hs).
  split; [| by right].
  intros [Hhash | Hplain]; [| done].
  destruct Hlen. rewrite <- Hhash.
  apply hashPassword_length.
Qed.

Lemma short_credential_is_compared_as_plain_text_witness :
  passwordRejected (Some (js "service-role-key")) (js "guess") (js "legacy-plain")
  = false
  <-> js "guess" = js "legacy-plain".
Proof.
  apply (short_credential_is_compared_as_plain_text (Some (js "service-role-key"))
           (js "guess") (js "legacy-plain")).
  - apply js_wf.
  - apply js_wf.
  - vm_compute. discriminate.
Defined.

Lemma exact_password_is_accepted (serviceRoleKey : option jsstring)
    (password : jsstring) :
  passwordRejected serviceRoleKey password (hashPassword serviceRoleKey password)
  = false.
Proof.
  unfold passwordRejected. cbv zeta.
  by rewrite (proj2 (verifyPassword_iff serviceRoleKey password _
                       (hashPassword_wf _ _)) eq_refl).
Qed.

(** What [create_school] hands out logs in: when it answers 200, the row
    it inserted holds the generated id and the hash of the generated
    password, not the password itself, and a school login with the returned
    id and password against that row is answered 200, provided the school
    is not suspended and the limiter lets the request through. *)
Theorem created_school_can_log_in (secret : jsstring) (st : store)
    (randomBytes : list Z) (credentials : option admin_credentials)
    (data : option school_data) (school id password : jsstring) :
  List.length randomBytes = 28%nat ->
  Forall (fun b => 0 <= b < 256) randomBytes ->
  answer (create_school secret st randomBytes credentials data)
  = Response 200 (Created school id password) ->
  (exists row,
     In (InsertSchool row)
        (effects (create_school secret st randomBytes credentials data))
     /\ ins_school_id row = id
     /\ ins_password_hash row = hashPassword (Some secret) password
     /\ ins_password_hash row <> password)
  /\ forall (db : database) (stored : school_row) (now_check now_record : Z)
            (uuid : jsstring) (x_forwarded_for cf_connecting_ip : option jsstring)
            (m : loginAttempts),
       schools_by_school_id db id = LookupData (Some stored) ->
       school_password_hash stored = hashPassword (Some secret) password ->
       school_is_banned stored = false ->
       allowed
         (fst (checkRateLimit now_check
                 (rateLimitKey
                    (LoginRequest (js "school") (Some id) password x_forwarded_for
                       cf_connecting_ip)) m)) = true ->
       SecureAuth.status
         (SecureAuth.answer
            (login now_check now_record secret db uuid
               (LoginRequest (js "school") (Some id) password x_forwarded_for
                  cf_connecting_ip) m)) = 200.
Proof.
  intros Hlen Hbytes Hanswer.
  destruct (credentials_shape_of randomBytes Hlen Hbytes) as (Hid & Hpw & Hpwlen).
  unfold create_school in *.
  destruct (admin_check st credentials) as [refused | checked] eqn:Hcheck.
  { exfalso. unfold admin_check in Hcheck.
    repeat case_match; simplify_eq; cbn in Hanswer; discriminate. }
  destruct (generateSecureCredentials randomBytes) as [id' password'] eqn:Hgen.
  cbn [fst snd] in *.
  destruct data as [data |]; [| cbn in Hanswer; discriminate].
  destruct (insert_school st _) as [message | newSchool] eqn:Hins;
    cbn [answer effects] in *; [discriminate |].
  injection Hanswer as <- <- <-. split.
  - eexists. split; [apply in_or_app; right; left; reflexivity |].
    cbn [ins_school_id ins_password_hash]. repeat split.
    intros Heq. pose proof (hashPassword_length (Some secret) password') as H64.
    rewrite Heq, Hpwlen in H64. discriminate.
  - intros db stored now_check now_record uuid xff cf m Hrow Hhash Hban Hallowed.
    unfold login.
    destruct (checkRateLimit now_check _ m) as [rc m1]. cbn [fst] in Hallowed.
    rewrite Hallowed. cbn [negb userType identifier SecureAuth.password text_of].
    destruct (decide (js "school" = js "admin")) as [Heq | _];
      [by destruct school_is_not_admin |].
    destruct (decide (js "school" = js "school")) as [_ | Hne]; [| done].
    rewrite Hrow, Hban, Hhash, exact_password_is_accepted. reflexivity.
Qed.

Lemma created_school_can_log_in_witness :
  SecureAuth.status
    (SecureAuth.answer
       (login 1000 1001 (js "service-role-key")
          (Database (fun _ => LookupData None)
             (fun v => LookupData
                         (Some (SchoolRow (js "u-9") v (js "New School") false false
                                  (hashPassword (Some (js "service-role-key"))
                                     (js "CDEFGHJKLMNPQRST"))))))
          (js "3f8a1c2e-9b47-4d1a-8c3e-5f6a7b8c9d0e")
          (LoginRequest (js "school") (Some (js "SCH_yz23456789AB"))
             (js "CDEFGHJKLMNPQRST") None None) ∅)) = 200.
Proof.
  destruct (created_school_can_log_in (js "service-role-key")
              (Store (fun _ => LookupData (Some (js "a-1")))
                 (fun _ => QueryData (js "row")) (fun _ _ => QueryData tt)
                 (fun _ => QueryData tt) (fun _ => QueryData []))
              (map Z.of_nat (seq 100 28))
              (Some (AdminCredentials (Some (js "a-1")) (Some (js "anything"))))
              (Some (SchoolData (Some (js "New School")) None None None None))
              (js "row") (js "SCH_yz23456789AB") (js "CDEFGHJKLMNPQRST"))
    as [_ Hlogin].
  - reflexivity.
  - apply Forall_forall. intros b Hb.
    apply list_elem_of_In, in_map_iff in Hb as (n & <- & Hn).
    apply in_seq in Hn. lia.
  - vm_compute. reflexivity.
  - apply Hlogin with
      (stored := SchoolRow (js "u-9") (js "SCH_yz23456789AB") (js "New School")
                   false false
                   (hashPassword (Some (js "service-role-key"))
                      (js "CDEFGHJKLMNPQRST")));
      reflexivity.
Defined.

(** The three school actions check that both fields of [adminCredentials]
    are present and that the admin id resolves to a row; the value of the
    session token is never looked at. Two requests that differ only in a
    non-empty token get the same answer and do the same things. *)
Theorem session_token_value_is_ignored (secret : jsstring) (st : store)
    (randomBytes : list Z) (id token1 token2 : option jsstring)
    (data : option school_data) (change : option school_change) :
  truthy token1 = true -> truthy token2 = true ->
  create_school secret st randomBytes (Some (AdminCredentials id token1)) data
  = create_school secret st randomBytes (Some (AdminCredentials id token2)) data
  /\ update_school st (Some (AdminCredentials id token1)) change
     = update_school st (Some (AdminCredentials id token2)) change
  /\ delete_school st (Some (AdminCredentials id token1)) change
     = delete_school st (Some (AdminCredentials id token2)) change.
Proof.
  intros H1 H2.
  assert (admin_check st (Some (AdminCredentials id token1))
          = admin_check st (Some (AdminCredentials id token2))) as Hsame.
  { unfold admin_check. cbn [adminId sessionToken]. by rewrite H1, H2. }
  unfold create_school, update_school, delete_school. by rewrite Hsame.
Qed.

Lemma session_token_value_is_ignored_witness :
  create_school (js "service-role-key")
    (Store (fun _ => LookupData (Some (js "a-1")))
       (fun _ => QueryData (js "row")) (fun _ _ => QueryData tt)
       (fun _ => QueryData tt) (fun _ => QueryData []))
    (map Z.of_nat (seq 100 28))
    (Some (AdminCredentials (Some (js "a-1"))
             (Some (js "3f8a1c2e-9b47-4d1a-8c3e-5f6a7b8c9d0e"))))
    (Some (SchoolData (Some (js "New School")) None None None None))
  = create_school (js "service-role-key")
      (Store (fun _ => LookupData (Some (js "a-1")))
         (fun _ => QueryData (js "row")) (fun _ _ => QueryData tt)
         (fun _ => QueryData tt) (fun _ => QueryData []))
      (map Z.of_nat (seq 100 28))
      (Some (AdminCredentials (Some (js "a-1")) (Some (js "x"))))
      (Some (SchoolData (Some (js "New School")) None None None None)).
Proof.
  apply (session_token_value_is_ignored (js "service-role-key")
           (Store (fun _ => LookupData (Some (js "a-1")))
              (fun _ => QueryData (js "row")) (fun _ _ => QueryData tt)
              (fun _ => QueryData tt) (fun _ => QueryData []))
           (map Z.of_nat (seq 100 28)) (Some (js "a-1"))
           (Some (js "3f8a1c2e-9b47-4d1a-8c3e-5f6a7b8c9d0e")) (Some (js "x"))
           (Some (SchoolData (Some (js "New School")) None None None None)) None);
    reflexivity.
Defined.

(** Without [adminCredentials], without an admin id or a session token in
    them, and when the admin id resolves to no row or its lookup fails, the
    three school actions answer 401 and do nothing but, at most, that
    lookup: no credentials are drawn and no row is inserted, updated or
    deleted. *)
Theorem school_actions_need_an_admin (secret : jsstring) (st : store)
    (randomBytes : list Z) (credentials : option admin_credentials)
    (data : option school_data) (change : option school_change) :
  (forall c, credentials = Some c ->
             truthy (adminId c) = false \/ truthy (sessionToken c) = false
             \/ forall row, admins_by_id st (text_of (adminId c))
                            <> LookupData (Some row)) ->
  exists refused,
    status (answer refused) = 401
    /\ create_school secret st randomBytes credentials data = refused
    /\ update_school st credentials change = refused
    /\ delete_school st credentials change = refused
    /\ Forall (fun e => exists id, e = SelectAdminId id) (effects refused).
Proof.
  intros Hreason.
  assert (exists refused,
            admin_check st credentials = inl refused
            /\ status (answer refused) = 401
            /\ Forall (fun e => exists id, e = SelectAdminId id) (effects refused))
    as (refused & Hcheck & Hstatus & Heffects).
  { unfold admin_check.
    destruct credentials as [c |]; [| cbn; eauto].
    destruct (Hreason c eq_refl) as [Hid | [Htok | Hrow]].
    - rewrite Hid. cbn. eauto.
    - rewrite Htok, orb_true_r. eauto.
    - destruct (negb _ || negb _); [eauto |].
      destruct (admins_by_id st _) as [| [row |]] eqn:Hq;
        [| by destruct (Hrow row) |];
        (eexists; split; [reflexivity |]; split; [reflexivity |];
         repeat constructor; eauto). }
  exists refused. unfold create_school, update_school, delete_school.
  by rewrite Hcheck.
Qed.

Lemma school_actions_need_an_admin_witness :
  exists refused,
    status (answer refused) = 401
    /\ create_school (js "service-role-key")
         (Store (fun _ => LookupError) (fun _ => QueryData (js "row"))
            (fun _ _ => QueryData tt) (fun _ => QueryData tt) (fun _ => QueryData []))
         (map Z.of_nat (seq 100 28))
         (Some (AdminCredentials (Some (js "a-1")) (Some (js "token"))))
         (Some (SchoolData (Some (js "New School")) None None None None))
       = refused
    /\ update_school
         (Store (fun _ => LookupError) (fun _ => QueryData (js "row"))
            (fun _ _ => QueryData tt) (fun _ => QueryData tt) (fun _ => QueryData []))
         (Some (AdminCredentials (Some (js "a-1")) (Some (js "token"))))
         (Some (SchoolChange (Some (js "s-1")) (js "{}")))
       = refused
    /\ delete_school
         (Store (fun _ => LookupError) (fun _ => QueryData (js "row"))
            (fun _ _ => QueryData tt) (fun _ => QueryData tt) (fun _ => QueryData []))
         (Some (AdminCredentials (Some (js "a-1")) (Some (js "token"))))
         (Some (SchoolChange (Some (js "s-1")) (js "{}")))
       = refused
    /\ Forall (fun e => exists id, e = SelectAdminId id) (effects refused).
Proof.
  apply (school_actions_need_an_admin (js "service-role-key")
           (Store (fun _ => LookupError) (fun _ => QueryData (js "row"))
              (fun _ _ => QueryData tt) (fun _ => QueryData tt) (fun _ => QueryData []))
           (map Z.of_nat (seq 100 28))
           (Some (AdminCredentials (Some (js "a-1")) (Some (js "token"))))
           (Some (SchoolData (Some (js "New School")) None None None None))
           (Some (SchoolChange (Some (js "s-1")) (js "{}")))).
  intros c [= <-]. right; right. intros row. discriminate.
Defined.

(** [get_students_for_school] looks nothing up but the students: with a
    school id and any non-empty token it answers with the rows the store
    has for that id (or the store's error), and its only effect is that
    query; no admin row and no school row is read. *)
Theorem students_are_served_without_verification (st : store)
    (uuid token1 token2 : option jsstring) :
  truthy uuid = true -> truthy token1 = true -> truthy token2 = true ->
  get_students_for_school st (Some (SchoolSession uuid token1))
  = get_students_for_school st (Some (SchoolSession uuid token2))
  /\ effects (get_students_for_school st (Some (SchoolSession uuid token1)))
     = [SelectStudents (text_of uuid)]
  /\ (forall students,
        students_by_school st (text_of uuid) = QueryData students ->
        answer (get_students_for_school st (Some (SchoolSession uuid token1)))
        = Response 200 (Students students)).
Proof.
  intros Hu H1 H2. unfold get_students_for_school.
  cbn [schoolUuid schoolToken]. rewrite Hu, H1, H2. cbn [negb orb].
  repeat split.
  - by destruct (students_by_school st _).
  - intros students ->. reflexivity.
Qed.

Lemma students_are_served_without_verification_witness :
  get_students_for_school
    (Store (fun _ => LookupData None) (fun _ => QueryError (js "no"))
       (fun _ _ => QueryData tt) (fun _ => QueryData tt)
       (fun _ => QueryData [js "student-1"]))
    (Some (SchoolSession (Some (js "school-uuid")) (Some (js "x"))))
  = get_students_for_school
      (Store (fun _ => LookupData None) (fun _ => QueryError (js "no"))
         (fun _ _ => QueryData tt) (fun _ => QueryData tt)
         (fun _ => QueryData [js "student-1"]))
      (Some (SchoolSession (Some (js "school-uuid")) (Some (js "y")))).
Proof.
  apply (students_are_served_without_verification
           (Store (fun _ => LookupData None) (fun _ => QueryError (js "no"))
              (fun _ _ => QueryData tt) (fun _ => QueryData tt)
              (fun _ => QueryData [js "student-1"]))
           (Some (js "school-uuid")) (Some (js "x")) (Some (js "y")));
    reflexivity.
Defined.

End ProvisioningFacts.

(** ** get-students: the school branch *)

Module GetStudentsFacts.
Import JS GetStudentsSchool.

(** A request of user type [school] is answered without a look at
    [session_token], whatever it is. The answer is 200 exactly when the
    school row is found, the school is not banned and the students query
    succeeds; the listing then has the students of the query in their order,
    each with the sessions the store has for it, none when it has none. *)
Theorem school_listing_needs_no_token (db : database)
    (admins : GetStudents.database) (school_id : option jsstring)
    (session_token : GetStudents.field) :
  handle db admins (GetStudents.Text (js "school")) school_id session_token
  = inl (school_branch db school_id)
  /\ (status (school_branch db school_id) = 200
      <-> exists school students,
            schools_by_id db (GetStudents.filter_text school_id)
            = GetStudents.SingleData (Some school)
            /\ is_banned school = false
            /\ students_of_school db (GetStudents.filter_text school_id)
               = GetStudents.RowsData students)
  /\ (forall listed school,
        payload (school_branch db school_id) = Listing listed school ->
        is_banned school = false
        /\ exists students,
             students_of_school db (GetStudents.filter_text school_id)
             = GetStudents.RowsData students
             /\ map fst listed = GetStudents.or_empty students
             /\ Forall (fun entry =>
                          snd entry
                          = GetStudents.or_empty
                              (sessions_of_student db (student_id (fst entry))))
                  listed).
Proof.
  split.
  { unfold handle. by destruct (decide (js "school" = js "school")). }
  unfold school_branch.
  destruct (schools_by_id db _) as [| [school |]] eqn:Hschool.
  - split; [| discriminate].
    split; [discriminate | intros (? & ? & ? & _); discriminate].
  - destruct (is_banned school) eqn:Hban.
    + split; [| discriminate].
      split; [discriminate |]. intros (s' & ? & Hs & Hb & _).
      injection Hs as <-. congruence.
    + destruct (students_of_school db _) as [| students] eqn:Hstudents.
      * split; [| discriminate].
        split; [discriminate | intros (? & ? & _ & _ & ?); discriminate].
      * split; [split; [intros _; eauto | done] |].
        intros listed school' [= <- <-]. split; [done |].
        exists students. repeat split.
        -- rewrite map_map. cbn. apply map_id.
        -- apply Forall_map. by apply Forall_true.
  - split; [| discriminate].
    split; [discriminate | intros (? & ? & ? & _); discriminate].
Qed.

End GetStudentsFacts.

(** ** study-chat: the limiter of the chat *)

Module ChatLimiterFacts.
Import JS ChatFront.

(** Requests inside an open window: allowed until the count reaches 30. *)
Lemma requests_in_window (userId : jsstring) (times : list Z) :
  forall (m : rateLimits) (c reset : Z),
  m !! (js "chat:" ++ userId) = Some (Limit c reset) ->
  1 <= c <= maxRequests ->
  Forall (fun t => t <= reset) times ->
  fst (requests userId times m)
  = map (fun k => Z.of_nat k <? maxRequests - c) (seq 0 (List.length times))
  /\ snd (requests userId times m) !! (js "chat:" ++ userId)
     = Some (Limit (Z.min (c + Z.of_nat (List.length times)) maxRequests) reset).
Proof.
  induction times as [| t times IH]; intros m c reset Hm Hc HF.
  - cbn [requests fst snd List.length seq map]. rewrite Hm. split; [done |].
    do 2 f_equal. lia.
  - inversion HF as [| ? ? Ht HF']; subst. cbn [requests].
    destruct (Z.geb_spec c maxRequests) as [Hfull | Hroom].
    + assert (checkRateLimit t userId maxRequests windowMs m = (false, m)) as ->.
      { unfold checkRateLimit. cbv zeta. rewrite Hm. cbn [resetAt count].
        destruct (Z.gtb_spec t reset); [lia |].
        destruct (Z.geb_spec c maxRequests); [done | lia]. }
      destruct (IH m c reset Hm Hc HF') as [Hoks Hend].
      destruct (requests userId times m) as [oks m2]. cbn [fst snd] in *.
      split.
      * cbn [List.length seq map]. rewrite <- seq_shift, map_map, Hoks.
        f_equal; [symmetry; apply Z.ltb_ge; lia |].
        apply map_ext. intros k.
        destruct (Z.ltb_spec (Z.of_nat k) (maxRequests - c)),
                 (Z.ltb_spec (Z.of_nat (S k)) (maxRequests - c)); lia || done.
      * rewrite Hend. do 2 f_equal. rewrite length_cons. lia.
    + assert (checkRateLimit t userId maxRequests windowMs m
              = (true, <[js "chat:" ++ userId := Limit (c + 1) reset]> m)) as ->.
      { unfold checkRateLimit. cbv zeta. rewrite Hm. cbn [resetAt count].
        destruct (Z.gtb_spec t reset); [lia |].
        destruct (Z.geb_spec c maxRequests); [lia | done]. }
      destruct (IH (<[js "chat:" ++ userId := Limit (c + 1) reset]> m) (c + 1) reset)
        as [Hoks Hend]; [apply lookup_insert_eq | lia | done |].
      destruct (requests userId times _) as [oks m2]. cbn [fst snd] in *.
      split.
      * cbn [List.length seq map]. rewrite <- seq_shift, map_map, Hoks.
        f_equal; [symmetry; apply Z.ltb_lt; lia |].
        apply map_ext. intros k.
        destruct (Z.ltb_spec (Z.of_nat k) (maxRequests - (c + 1))),
                 (Z.ltb_spec (Z.of_nat (S k)) (maxRequests - c)); lia || done.
      * rewrite Hend. do 2 f_equal. rewrite length_cons. lia.
Qed.

(** A student whose window is not open (no entry, or one that has run out)
    opens a window of 60 seconds with the first request; of the requests
    made before it runs out exactly the first 30 are allowed, the count
    stops at 30, and the end of the window stays where the first request
    put it. *)
Theorem thirty_requests_per_window (userId : jsstring) (first : Z) (later : list Z)
    (m : rateLimits) :
  (forall l, m !! (js "chat:" ++ userId) = Some l -> resetAt l < first) ->
  Forall (fun t => t <= first + 60000) later ->
  fst (requests userId (first :: later) m)
  = map (fun k => (k <? 30)%nat) (seq 0 (S (List.length later)))
  /\ snd (requests userId (first :: later) m) !! (js "chat:" ++ userId)
     = Some (Limit (Z.min (1 + Z.of_nat (List.length later)) 30) (first + 60000)).
Proof.
  intros Hclosed HF. cbn [requests].
  assert (checkRateLimit first userId maxRequests windowMs m
          = (true, <[js "chat:" ++ userId := Limit 1 (first + windowMs)]> m)) as ->.
  { unfold checkRateLimit. cbv zeta.
    destruct (m !! (js "chat:" ++ userId)) as [l |] eqn:Hm; [| done].
    specialize (Hclosed l eq_refl).
    destruct (Z.gtb_spec first (resetAt l)); [done | lia]. }
  destruct (requests_in_window userId later
              (<[js "chat:" ++ userId := Limit 1 (first + windowMs)]> m) 1
              (first + windowMs)) as [Hoks Hend];
    [apply lookup_insert_eq | unfold maxRequests; lia | done |].
  destruct (requests userId later _) as [oks m2]. cbn [fst snd] in *.
  split.
  - cbn [seq map]. rewrite <- seq_shift, map_map, Hoks. f_equal.
    apply map_ext. intros k. unfold maxRequests.
    destruct (Z.ltb_spec (Z.of_nat k) (30 - 1)), (Nat.ltb_spec (S k) 30); lia || done.
  - rewrite Hend. unfold maxRequests, windowMs. done.
Qed.

Lemma thirty_requests_per_window_witness :
  fst (requests (js "student-1") (1000 :: map Z.of_nat (seq 2000 34)) ∅)
  = map (fun k => (k <? 30)%nat)
      (seq 0 (S (List.length (map Z.of_nat (seq 2000 34)))))
  /\ snd (requests (js "student-1") (1000 :: map Z.of_nat (seq 2000 34)) ∅)
       !! (js "chat:" ++ js "student-1")
     = Some (Limit (Z.min (1 + Z.of_nat (List.length (map Z.of_nat (seq 2000 34)))) 30)
               (1000 + 60000)).
Proof.
  apply (thirty_requests_per_window (js "student-1") 1000
           (map Z.of_nat (seq 2000 34)) ∅).
  - intros l Hl. rewrite lookup_empty in Hl. discriminate.
  - apply Forall_forall. intros t Ht.
    apply list_elem_of_In, in_map_iff in Ht as (n & <- & Hn).
    apply in_seq in Hn. lia.
Defined.

Lemma serve_cons (call : jsstring * Z) (calls : list (jsstring * Z)) (m : rateLimits) :
  serve (call :: calls) m
  = serve calls (snd (checkRateLimit (snd call) (fst call) maxRequests windowMs m)).
Proof. reflexivity. Qed.

(** A request of one student leaves the entry of every other student as
    it is. *)
Lemma check_other_key (now : Z) (userId other : jsstring) (m : rateLimits) :
  other <> userId ->
  snd (checkRateLimit now other maxRequests windowMs m) !! (js "chat:" ++ userId)
  = m !! (js "chat:" ++ userId).
Proof.
  intros Hne. unfold checkRateLimit. cbv zeta.
  assert (js "chat:" ++ other <> js "chat:" ++ userId) as Hkey.
  { intros H. by apply app_inv_head in H. }
  destruct (m !! (js "chat:" ++ other)) as [l |];
    [| cbn [snd]; by rewrite lookup_insert_ne].
  destruct (now >? resetAt l); [cbn [snd]; by rewrite lookup_insert_ne |].
  destruct (count l >=? maxRequests); cbn [snd]; [done | by rewrite lookup_insert_ne].
Qed.

(** The answer of the limiter is read off the student's own entry. *)
Lemma check_reads_own_key (now : Z) (userId : jsstring) (m m' : rateLimits) :
  m' !! (js "chat:" ++ userId) = m !! (js "chat:" ++ userId) ->
  fst (checkRateLimit now userId maxRequests windowMs m')
  = fst (checkRateLimit now userId maxRequests windowMs m).
Proof.
  intros H. unfold checkRateLimit. cbv zeta. rewrite H.
  destruct (m !! (js "chat:" ++ userId)) as [l |]; [| done].
  destruct (now >? resetAt l); [done |].
  by destruct (count l >=? maxRequests).
Qed.

(** Students are limited one by one: whatever other students send, and
    however much of it, a student's entry stays as it is and the answer to
    the student's next request is the same as without them. *)
Theorem students_are_limited_separately (userId : jsstring)
    (calls : list (jsstring * Z)) (now : Z) (m : rateLimits) :
  Forall (fun call : jsstring * Z => fst call <> userId) calls ->
  serve calls m !! (js "chat:" ++ userId) = m !! (js "chat:" ++ userId)
  /\ fst (checkRateLimit now userId maxRequests windowMs (serve calls m))
     = fst (checkRateLimit now userId maxRequests windowMs m).
Proof.
  intros HF.
  assert (serve calls m !! (js "chat:" ++ userId) = m !! (js "chat:" ++ userId)) as H.
  { revert m. induction HF as [| call calls Hne HF IH]; intros m; [done |].
    rewrite serve_cons, IH. by apply check_other_key. }
  split; [done | by apply check_reads_own_key].
Qed.

Lemma students_are_limited_separately_witness :
  serve (map (fun t : Z => (js "student-2", t)) (map Z.of_nat (seq 0 40)))
    (<[js "chat:student-1" := Limit 29 60000]> ∅) !! (js "chat:" ++ js "student-1")
  = (<[js "chat:student-1" := Limit 29 60000]> ∅ : rateLimits)
      !! (js "chat:" ++ js "student-1")
  /\ fst (checkRateLimit 50 (js "student-1") maxRequests windowMs
            (serve (map (fun t : Z => (js "student-2", t)) (map Z.of_nat (seq 0 40)))
               (<[js "chat:student-1" := Limit 29 60000]> ∅)))
     = fst (checkRateLimit 50 (js "student-1") maxRequests windowMs
              (<[js "chat:student-1" := Limit 29 60000]> ∅)).
Proof.
  apply (students_are_limited_separately (js "student-1")
           (map (fun t : Z => (js "student-2", t)) (map Z.of_nat (seq 0 40))) 50
           (<[js "chat:student-1" := Limit 29 60000]> ∅)).
  apply Forall_forall. intros call Hcall.
  apply list_elem_of_In, in_map_iff in Hcall as (t & <- & _).
  cbn [fst]. vm_compute. discriminate.
Defined.

Lemma check_keeps_counts (now : Z) (userId : jsstring) (m : rateLimits) :
  map_Forall (fun (_ : list Z) (l : limit) => 1 <= count l <= maxRequests) m ->
  map_Forall (fun (_ : list Z) (l : limit) => 1 <= count l <= maxRequests)
    (snd (checkRateLimit now userId maxRequests windowMs m)).
Proof.
  intros Hm. unfold checkRateLimit. cbv zeta.
  destruct (m !! (js "chat:" ++ userId)) as [l |] eqn:Hl.
  - pose proof (map_Forall_lookup_1 _ _ _ _ Hm Hl) as Hc. cbv beta in Hc.
    destruct (now >? resetAt l); cbn [snd].
    + apply map_Forall_insert_2; [unfold maxRequests; cbn; lia | done].
    + destruct (Z.geb_spec (count l) maxRequests); cbn [snd]; [done |].
      apply map_Forall_insert_2; [cbn; lia | done].
  - cbn [snd]. apply map_Forall_insert_2; [unfold maxRequests; cbn; lia | done].
Qed.

(** Whatever is sent, by whom and when, a limiter that starts empty never
    holds a count below 1 or above 30. *)
Theorem counts_stay_within_the_limit (calls : list (jsstring * Z)) :
  map_Forall (fun (_ : list Z) (l : limit) => 1 <= count l <= 30) (serve calls ∅).
Proof.
  assert (forall m : rateLimits,
            map_Forall (fun (_ : list Z) (l : limit) => 1 <= count l <= maxRequests) m ->
            map_Forall (fun (_ : list Z) (l : limit) => 1 <= count l <= maxRequests)
              (serve calls m)) as H.
  { induction calls as [| call calls IH]; intros m Hm; [done |].
    rewrite serve_cons. by apply IH, check_keeps_counts. }
  apply (H ∅), map_Forall_empty.
Qed.



End ChatLimiterFacts.

(** ** The study history of the chat handler *)

Module PersonalizationFacts.
Import JS ChatFront.

Section SetAsList.
Context {A : Type} `{EqDecision A}.

Lemma elem_of_add (set : list A) (x y : A) : y ∈ add set x <-> y ∈ set \/ y = x.
Proof.
  unfold add. destruct (decide (x ∈ set)) as [Hin | Hout].
  - split; [by left | intros [? | ->]; done].
  - rewrite elem_of_app, list_elem_of_singleton. done.
Qed.

Lemma NoDup_add (set : list A) (x : A) : NoDup set -> NoDup (add set x).
Proof.
  intros Hset. unfold add. destruct (decide (x ∈ set)) as [Hin | Hout]; [done |].
  apply NoDup_app. repeat split; [done | | apply NoDup_singleton].
  intros y Hy ->%list_elem_of_singleton. done.
Qed.

Lemma add_extends (set : list A) (x : A) : exists more, add set x = set ++ more.
Proof.
  unfold add. destruct (decide (x ∈ set)); [exists []; by rewrite app_nil_r | by eexists].
Qed.

Lemma length_add (set : list A) (x : A) :
  (List.length (add set x) <= S (List.length set))%nat.
Proof.
  unfold add. destruct (decide (x ∈ set)); [lia |]. rewrite length_app. cbn. lia.
Qed.

Lemma elem_of_adds (items : list A) : forall (set : list A) (y : A),
  y ∈ fold_left add items set <-> y ∈ set \/ y ∈ items.
Proof.
  induction items as [| x items IH]; intros set y; cbn [fold_left].
  - rewrite elem_of_nil. tauto.
  - rewrite IH, elem_of_add, elem_of_cons. tauto.
Qed.

Lemma NoDup_adds (items : list A) : forall set : list A,
  NoDup set -> NoDup (fold_left add items set).
Proof.
  induction items as [| x items IH]; intros set Hset; cbn [fold_left]; [done |].
  by apply IH, NoDup_add.
Qed.

Lemma adds_extends (items : list A) : forall set : list A,
  exists more, fold_left add items set = set ++ more.
Proof.
  induction items as [| x items IH]; intros set; cbn [fold_left].
  - exists []. by rewrite app_nil_r.
  - destruct (IH (add set x)) as [more ->]. destruct (add_extends set x) as [one ->].
    exists (one ++ more). by rewrite app_assoc.
Qed.

Lemma length_adds (items : list A) : forall set : list A,
  (List.length (fold_left add items set) <= List.length set + List.length items)%nat.
Proof.
  induction items as [| x items IH]; intros set; cbn [fold_left List.length]; [lia |].
  pose proof (IH (add set x)). pose proof (length_add set x). lia.
Qed.

End SetAsList.

(** The set the handler fills from one column of the sessions. *)
Lemma elem_of_collected (column : session -> option (list jsstring))
    (sessions : list session) : forall (set : list jsstring) (a : jsstring),
  a ∈ fold_left (fun set s => fold_left add (or_empty (column s)) set) sessions set
  <-> a ∈ set \/ exists s, s ∈ sessions /\ a ∈ or_empty (column s).
Proof.
  induction sessions as [| s sessions IH]; intros set a; cbn [fold_left].
  - split; [by left | intros [? | (s & Hs & _)]; [done | by apply elem_of_nil in Hs]].
  - rewrite IH, elem_of_adds. split.
    + intros [[? | ?] | (s' & Hs' & Ha)]; [by left | |].
      * right. exists s. split; [by left | done].
      * right. exists s'. split; [by right | done].
    + intros [? | (s' & Hs' & Ha)]; [by left; left |].
      apply elem_of_cons in Hs' as [-> | Hs']; [by left; right |].
      right. by exists s'.
Qed.

Lemma NoDup_collected (column : session -> option (list jsstring))
    (sessions : list session) : forall set : list jsstring,
  NoDup set ->
  NoDup (fold_left (fun set s => fold_left add (or_empty (column s)) set) sessions set).
Proof.
  induction sessions as [| s sessions IH]; intros set Hset; cbn [fold_left]; [done |].
  by apply IH, NoDup_adds.
Qed.

Lemma areas_shape (column : session -> option (list jsstring))
    (sessions : list session) :
  NoDup (areas column sessions)
  /\ (List.length (areas column sessions) <= 5)%nat
  /\ Forall (fun a : jsstring =>
               exists s, s ∈ sessions /\ a ∈ or_empty (column s))
       (areas column sessions).
Proof.
  unfold areas. repeat split.
  - eapply sublist_NoDup; [| apply sublist_take]. apply NoDup_collected, NoDup_nil_2.
  - rewrite length_take. lia.
  - apply Forall_forall. intros a Ha. apply elem_of_take in Ha as (i & Ha & _).
    apply list_elem_of_lookup_2, elem_of_collected in Ha as [Ha | Ha]; [| done].
    by apply elem_of_nil in Ha.
Qed.

(** The weak and the strong areas handed to the prompt and to the client
    name no area twice, are at most five each, and every one of them
    stands in the matching column of one of the sessions read. *)
Theorem areas_are_distinct_and_recorded (sessions : list session) :
  (NoDup (weakAreas sessions)
   /\ (List.length (weakAreas sessions) <= 5)%nat
   /\ Forall (fun a : jsstring =>
                exists s, s ∈ sessions /\ a ∈ or_empty (weak_areas s))
        (weakAreas sessions))
  /\ (NoDup (strongAreas sessions)
      /\ (List.length (strongAreas sessions) <= 5)%nat
      /\ Forall (fun a : jsstring =>
                   exists s, s ∈ sessions /\ a ∈ or_empty (strong_areas s))
           (strongAreas sessions)).
Proof. split; apply areas_shape. Qed.

(** An area recorded in a session is missing from the list only when the
    list is full: five other areas were met before it. *)
Theorem area_is_dropped_only_after_five (sessions : list session) (s : session)
    (a : jsstring) :
  s ∈ sessions -> a ∈ or_empty (weak_areas s) ->
  a ∈ weakAreas sessions
  \/ (List.length (weakAreas sessions) = 5%nat /\ a ∉ weakAreas sessions).
Proof.
  intros Hs Ha. destruct (decide (a ∈ weakAreas sessions)) as [Hin | Hout]; [by left |].
  right. split; [| done]. unfold weakAreas, areas in *.
  assert (a ∈ fold_left (fun set s => fold_left add (or_empty (weak_areas s)) set)
                sessions []) as Hall.
  { apply elem_of_collected. right. by exists s. }
  rewrite length_take.
  destruct (le_lt_dec
              (List.length
                 (fold_left (fun set s => fold_left add (or_empty (weak_areas s)) set)
                    sessions [])) 5) as [Hshort | Hlong]; [| lia].
  rewrite take_ge in Hout by lia. done.
Qed.

Lemma area_is_dropped_only_after_five_witness :
  js "f" ∈ weakAreas
             [Session (Some (js "Light")) (Some [js "a"; js "b"; js "c"]) None;
              Session (Some (js "Sound")) (Some [js "b"; js "d"; js "e"; js "f"]) None]
  \/ (List.length
        (weakAreas
           [Session (Some (js "Light")) (Some [js "a"; js "b"; js "c"]) None;
            Session (Some (js "Sound")) (Some [js "b"; js "d"; js "e"; js "f"]) None])
      = 5%nat
      /\ js "f" ∉ weakAreas
                    [Session (Some (js "Light")) (Some [js "a"; js "b"; js "c"]) None;
                     Session (Some (js "Sound"))
                       (Some [js "b"; js "d"; js "e"; js "f"]) None]).
Proof.
  apply (area_is_dropped_only_after_five
           [Session (Some (js "Light")) (Some [js "a"; js "b"; js "c"]) None;
            Session (Some (js "Sound")) (Some [js "b"; js "d"; js "e"; js "f"]) None]
           (Session (Some (js "Sound")) (Some [js "b"; js "d"; js "e"; js "f"]) None)
           (js "f")).
  - apply elem_of_cons. right. apply elem_of_cons. by left.
  - cbn [or_empty weak_areas]. do 3 (apply elem_of_cons; right).
    apply elem_of_cons. by left.
Defined.

(** The topics named in the prompt are distinct, at most five, and topics
    of the ten latest sessions; every topic the answer reports under
    [studentHistory.recentTopics] is among them. *)
Theorem reported_topics_are_in_the_prompt (pastSessions : list session) :
  NoDup (recentTopics pastSessions)
  /\ (List.length (recentTopics pastSessions) <= 5)%nat
  /\ Forall (fun t : option jsstring =>
               exists s, s ∈ take 10 pastSessions /\ topic s = t)
       (recentTopics pastSessions)
  /\ Forall (fun t : option jsstring => t ∈ recentTopics pastSessions)
       (historyTopics pastSessions).
Proof.
  unfold recentTopics, historyTopics, set_of. repeat split.
  - eapply sublist_NoDup; [| apply sublist_take]. apply NoDup_adds, NoDup_nil_2.
  - rewrite length_take. lia.
  - apply Forall_forall. intros t Ht.
    apply elem_of_take in Ht as (i & Ht & _).
    apply list_elem_of_lookup_2, elem_of_adds in Ht as [Ht | Ht];
      [by apply elem_of_nil in Ht |].
    apply list_elem_of_In, in_map_iff in Ht as (s & <- & Hs).
    exists s. split; [by apply list_elem_of_In | done].
  - apply Forall_forall. intros t Ht.
    assert (take 10 pastSessions
            = take 5 pastSessions ++ drop 5 (take 10 pastSessions)) as ->.
    { rewrite <- (take_drop 5 (take 10 pastSessions)) at 1.
      by rewrite take_take. }
    rewrite map_app, fold_left_app.
    destruct (adds_extends (map topic (drop 5 (take 10 pastSessions)))
                (fold_left add (map topic (take 5 pastSessions)) [])) as [more ->].
    pose proof (length_adds (map topic (take 5 pastSessions)) []) as Hlen.
    rewrite length_map, length_take in Hlen. cbn [List.length] in Hlen.
    rewrite take_app_ge by lia. apply elem_of_app. left.
    apply elem_of_adds. by right.
Qed.

End PersonalizationFacts.

(** ** The answer of the chat handler *)

Module ReplyFacts.
Import JS StudyChat.

(** [find_sub] returns the first occurrence. *)
Lemma find_sub_minimal (p : jsstring) : forall s before after : jsstring,
  find_sub p s = Some (before, after) ->
  forall k : nat, (k < List.length before)%nat -> starts_with p (drop k s) = false.
Proof.
  induction s as [| c s IH]; intros before after H k Hk; rewrite find_sub_unfold in H.
  - destruct (starts_with p []); [| discriminate].
    injection H as <- _. cbn in Hk. lia.
  - destruct (starts_with p (c :: s)) eqn:Hstart.
    + injection H as <- _. cbn in Hk. lia.
    + destruct (find_sub p s) as [[b a] |] eqn:Hf; [| discriminate].
      injection H as <- <-. destruct k as [| k]; [done |].
      cbn [drop]. apply (IH b a eq_refl). cbn in Hk. lia.
Qed.

(** What the handler does to the reply of the model. Either the reply is
    passed on as the model gave it and no analysis is parsed, or the
    analysis was asked for and the pattern found a block whose text is
    JSON: the block runs from the first opening tag of the reply to the
    first closing tag after it, the answer carries the parsed value as
    [sessionAnalysis] (which is [null] again when the block holds the text
    [null]), and the visible reply is the rest of the text, trimmed. So the
    reply is changed only by cutting out such a block, and an analysis that
    is not [null] comes only from such a block. *)
Theorem analysis_comes_from_the_first_block (analyzeSession : bool)
    (aiResponse : jsstring) :
  extractAnalysis analyzeSession aiResponse = (aiResponse, None)
  \/ (analyzeSession = true
      /\ exists (before group after : jsstring) (parsed : Json.json),
           aiResponse = before ++ OPEN ++ group ++ CLOSE ++ after
           /\ (forall k : nat, (k < List.length before)%nat ->
                 starts_with OPEN (drop k aiResponse) = false)
           /\ (forall k : nat, (k < List.length group)%nat ->
                 starts_with CLOSE (drop k (group ++ CLOSE ++ after)) = false)
           /\ Json.JSON_parse group = Some parsed
           /\ extractAnalysis analyzeSession aiResponse
              = (trim (before ++ after), Some parsed)).
Proof.
  unfold extractAnalysis. destruct analyzeSession; [| by left].
  destruct (analysisMatch aiResponse) as [[[before group] after] |] eqn:Hm;
    [| by left].
  destruct (Json.JSON_parse group) as [parsed |] eqn:Hp; [| by left].
  right. split; [done |]. exists before, group, after, parsed.
  pose proof (analysisMatch_sound _ _ _ _ Hm) as Hraw.
  unfold analysisMatch in Hm.
  destruct (find_sub OPEN aiResponse) as [[b opened] |] eqn:Ho; [| discriminate].
  destruct (find_sub CLOSE opened) as [[g a] |] eqn:Hc; [| discriminate].
  injection Hm as -> -> ->.
  repeat split; [done | | | done].
  - exact (find_sub_minimal _ _ _ _ Ho).
  - pose proof (find_sub_sound _ _ _ _ Hc) as Hopened. rewrite <- Hopened.
    exact (find_sub_minimal _ _ _ _ Hc).
Qed.

(** A block that holds the text [null] is cut out although the analysis
    it gives is [null]. *)
Example null_block_is_cut_out :
  extractAnalysis true (js "Ji [ANALYSIS]null[/ANALYSIS]")
  = (js "Ji", Some Json.JNull).
Proof. vm_compute. reflexivity. Qed.

(** The answer is decided by the last call made to the gateway: a failed
    call gives 429 or 402 when the gateway said so and 500 for any other
    status; a completed call with a usable text gives the 200 reply built
    from that text, and one without gives 500, which happens only after
    the fallback model was asked too. *)
Theorem last_call_decides_the_answer (ai : gateway) (system : jsstring)
    (messages : option (list ChatMessage)) (analyzeSession : bool) :
  exists (model : jsstring) (sent : list AIMessage),
    last (calls (respond ai system messages analyzeSession)) = Some (model, sent)
    /\ match ai model sent with
       | Failed st =>
           status (answer (respond ai system messages analyzeSession))
           = (if st =? 429 then 429 else if st =? 402 then 402 else 500)
       | Completed text =>
           if blank text then
             model = FALLBACK_MODEL
             /\ answer (respond ai system messages analyzeSession)
                = Response 500 (Failure NoResponseFromAI)
           else
             answer (respond ai system messages analyzeSession)
             = reply analyzeSession (text_of text)
       end.
Proof.
  unfold respond, callLovableAI. cbv zeta.
  destruct (ai PRIMARY_MODEL (chatMessages system messages)) as [st | text] eqn:H1.
  - exists PRIMARY_MODEL, (chatMessages system messages).
    destruct (st =? 429) eqn:E429; [| destruct (st =? 402) eqn:E402];
      cbn [calls answer last]; rewrite H1, ?E429, ?E402; done.
  - destruct (blank text) eqn:Hblank.
    + destruct (ai FALLBACK_MODEL (chatMessages system messages)) as [st | text2] eqn:H2.
      * exists FALLBACK_MODEL, (chatMessages system messages).
        destruct (st =? 429) eqn:E429; [| destruct (st =? 402) eqn:E402];
          cbn [calls answer last]; rewrite H2, ?E429, ?E402; done.
      * exists FALLBACK_MODEL, (chatMessages system messages).
        destruct (blank text2) eqn:Hblank2;
          cbn [calls answer last]; rewrite H2, Hblank2; done.
    + exists PRIMARY_MODEL, (chatMessages system messages).
      cbn [calls answer last]. rewrite H1, Hblank. done.
Qed.

(** A status 200 always carries a reply, and no other status does. *)
Theorem reply_exactly_on_200 (ai : gateway) (system : jsstring)
    (messages : option (list ChatMessage)) (analyzeSession : bool) :
  (status (answer (respond ai system messages analyzeSession)) = 200
   <-> exists visible sessionAnalysis,
         payload (answer (respond ai system messages analyzeSession))
         = Reply visible sessionAnalysis)
  /\ (status (answer (respond ai system messages analyzeSession)) = 200
      \/ status (answer (respond ai system messages analyzeSession)) = 402
      \/ status (answer (respond ai system messages analyzeSession)) = 429
      \/ status (answer (respond ai system messages analyzeSession)) = 500).
Proof.
  assert (forall text : jsstring,
            status (reply analyzeSession text) = 200
            /\ exists visible sessionAnalysis,
                 payload (reply analyzeSession text) = Reply visible sessionAnalysis)
    as Hreply.
  { intros text. unfold reply. destruct (extractAnalysis analyzeSession text).
    cbn. eauto. }
  assert (forall r : call_result, forall model : jsstring,
            callLovableAI ai (chatMessages system messages) model = r ->
            match r with
            | Returned r => (status r = 402 \/ status r = 429)
                            /\ exists e, payload r = Error e
            | _ => True
            end) as Hcall.
  { intros r model <-. unfold callLovableAI.
    destruct (ai model (chatMessages system messages)) as [st |]; [| done].
    destruct (st =? 429); [cbn; eauto |]. destruct (st =? 402); cbn; eauto. }
  unfold respond. cbv zeta.
  pose proof (Hcall _ PRIMARY_MODEL eq_refl) as H1.
  pose proof (Hcall _ FALLBACK_MODEL eq_refl) as H2.
  destruct (callLovableAI ai (chatMessages system messages) PRIMARY_MODEL)
    as [r | e | text].
  - cbn [answer]. destruct H1 as [Hst [e He]]. rewrite He. split; [| lia].
    split; [lia | by intros (? & ? & ?)].
  - cbn. split; [| lia]. split; [lia | by intros (? & ? & ?)].
  - destruct (blank text).
    + destruct (callLovableAI ai (chatMessages system messages) FALLBACK_MODEL)
        as [r | e | text2].
      * cbn [answer]. destruct H2 as [Hst [e He]]. rewrite He. split; [| lia].
        split; [lia | by intros (? & ? & ?)].
      * cbn. split; [| lia]. split; [lia | by intros (? & ? & ?)].
      * destruct (blank text2).
        -- cbn. split; [| lia]. split; [lia | by intros (? & ? & ?)].
        -- cbn [answer]. destruct (Hreply (text_of text2)) as [-> Hp].
           split; [done | by left].
    + cbn [answer]. destruct (Hreply (text_of text)) as [-> Hp].
      split; [done | by left].
Qed.

(** The roles of the transcript are passed to the model as they came:
    after the handler's own system message, the roles sent are those of
    the last six entries, whatever they say. *)
Lemma roles_are_forwarded_unchecked (system : jsstring)
    (transcript : list ChatMessage) :
  map ai_role (chatMessages system (Some transcript))
  = js "system" :: map role (slice_last 6 transcript).
Proof.
  unfold chatMessages. cbn [map ai_role]. f_equal. rewrite map_map.
  apply map_ext. intros msg. unfold forward. by destruct (truthy (imageUrl msg)).
Qed.

End ReplyFacts.

(** ** The chunks of the speech hook *)

Module SpeechFacts.
Import JS Speech.

Lemma push_keeps (P : jsstring -> Prop) (chunks : list jsstring) (current : jsstring) :
  Forall P chunks -> (current <> [] -> P current) -> Forall P (push chunks current).
Proof.
  intros Hchunks Hcurrent. unfold push. destruct current as [| c current]; [done |].
  cbn [filled]. apply Forall_app. split; [done |]. constructor; [| constructor].
  by apply Hcurrent.
Qed.

(** The loop keeps every pushed chunk, and the chunk in the making once it
    is not empty, short enough or equal to one sentence. *)
Lemma pack_keeps (text : jsstring) (maxLength : Z) (items : list jsstring) :
  forall state : list jsstring * jsstring,
  Forall (fun sentence : jsstring => sentence ∈ sentences text) items ->
  Forall (fun chunk : jsstring => chunk <> [] /\ fits text maxLength chunk) (fst state) ->
  (snd state <> [] -> fits text maxLength (snd state)) ->
  Forall (fun chunk : jsstring => chunk <> [] /\ fits text maxLength chunk)
    (fst (fold_left (pack maxLength) items state))
  /\ (snd (fold_left (pack maxLength) items state) <> [] ->
      fits text maxLength (snd (fold_left (pack maxLength) items state))).
Proof.
  induction items as [| sentence items IH]; intros state Hitems Hchunks Hcurrent;
    cbn [fold_left]; [done |].
  inversion Hitems as [| ? ? Hsentence Hitems']; subst.
  apply IH; [done | |]; unfold pack; cbv zeta;
    destruct (Z.leb_spec
                (Z.of_nat (List.length (trim (snd state ++ js " " ++ sentence))))
                maxLength) as [Hfit | Hlong]; cbn [fst snd].
  - done.
  - apply push_keeps; [done |]. intros Hne. split; [done | by apply Hcurrent].
  - intros _. by left.
  - intros _. by right.
Qed.

(** Every chunk handed to the speech engine is at most [maxLength] units
    long or is one whole sentence of the text (a sentence longer than the
    limit is not cut); and a text longer than the limit gives no empty
    chunk. *)
Theorem chunks_fit_or_are_one_sentence (text : jsstring) (maxLength : Z) :
  Forall (fits text maxLength) (splitTextIntoChunks text maxLength)
  /\ (maxLength < Z.of_nat (List.length text) ->
      Forall (fun chunk : jsstring => chunk <> []) (splitTextIntoChunks text maxLength)).
Proof.
  unfold splitTextIntoChunks. cbv zeta.
  destruct (Z.leb_spec (Z.of_nat (List.length text)) maxLength) as [Hshort | Hlong].
  - split; [| lia]. constructor; [by left | constructor].
  - destruct (pack_keeps text maxLength (sentences text) ([], [])) as [Hchunks Hcurrent];
      [by apply Forall_forall | constructor | done |].
    assert (Forall (fun chunk : jsstring => chunk <> [] /\ fits text maxLength chunk)
              (push (fst (fold_left (pack maxLength) (sentences text) ([], [])))
                 (snd (fold_left (pack maxLength) (sentences text) ([], []))))) as H.
    { apply push_keeps; [done |]. intros Hne. split; [done | by apply Hcurrent]. }
    split; [| intros _]; eapply Forall_impl; first [exact H | by intros chunk [? ?]].
Qed.

Lemma chunks_fit_or_are_one_sentence_witness :
  Forall (fits (js "Ji. Dekhiye! Light kya hai? Bilkul sahi.") 12)
    (splitTextIntoChunks (js "Ji. Dekhiye! Light kya hai? Bilkul sahi.") 12)
  /\ (12 < Z.of_nat (List.length (js "Ji. Dekhiye! Light kya hai? Bilkul sahi.")) ->
      Forall (fun chunk : jsstring => chunk <> [])
        (splitTextIntoChunks (js "Ji. Dekhiye! Light kya hai? Bilkul sahi.") 12)).
Proof.
  apply (chunks_fit_or_are_one_sentence (js "Ji. Dekhiye! Light kya hai? Bilkul sahi.") 12).
Defined.

Example chunks_sample :
  splitTextIntoChunks (js "Ji. Dekhiye! Light kya hai? Bilkul sahi.") 12
  = [js "Ji. Dekhiye!"; js "Light kya hai?"; js "Bilkul sahi."].
Proof. vm_compute. reflexivity. Qed.

End SpeechFacts.

(** ** secure-auth: the login action for any request body *)

Module LoginBodyFacts.
Import JS LoginBody.

Lemma print_of_option (v : option jsstring) : print (of_option v) = Some (text_of v).
Proof. by destruct v. Qed.

Lemma truthy_of_option (v : option jsstring) : truthy_value (of_option v) = truthy v.
Proof. by destruct v as [[| c s] |]. Qed.

Lemma clientIp_of_request (req : SecureAuth.login_request) :
  clientIp (body_of req) = SecureAuth.clientIp req.
Proof. reflexivity. Qed.

Lemma rateLimitKey_of_request (req : SecureAuth.login_request) :
  rateLimitKey (body_of req) = Some (SecureAuth.rateLimitKey req).
Proof.
  unfold rateLimitKey, SecureAuth.rateLimitKey, body_of.
  cbn [userType identifier print]. rewrite truthy_of_option, print_of_option.
  by destruct (truthy (SecureAuth.identifier req)).
Qed.

(** For a body whose fields are strings the action is the one the other
    sections reason about: same answer, same limiter, same attempts
    recorded. *)
Lemma login_of_request (now_check now_record : Z) (secret : jsstring)
    (db : SecureAuth.database) (uuid : jsstring) (req : SecureAuth.login_request)
    (m : SecureAuth.loginAttempts) :
  answer (login now_check now_record secret db uuid (body_of req) m)
  = SecureAuth.answer (SecureAuth.login now_check now_record secret db uuid req m)
  /\ attempts (login now_check now_record secret db uuid (body_of req) m)
     = SecureAuth.attempts (SecureAuth.login now_check now_record secret db uuid req m)
  /\ recorded (effects (login now_check now_record secret db uuid (body_of req) m))
     = Verdicts.recorded
         (SecureAuth.effects (SecureAuth.login now_check now_record secret db uuid req m)).
Proof.
  unfold login, SecureAuth.login. rewrite rateLimitKey_of_request. cbv zeta.
  destruct (SecureAuth.checkRateLimit now_check (SecureAuth.rateLimitKey req) m)
    as [rc m1].
  destruct (SecureAuth.allowed rc); cbn [negb]; [| done].
  unfold body_of. cbn [userType identifier password is_text check].
  rewrite print_of_option.
  destruct (decide (SecureAuth.userType req = js "admin")) as [Ha | Ha].
  - rewrite (bool_decide_eq_true_2 _ Ha).
    destruct (SecureAuth.admins_by_admin_id db _) as [| [admin |]]; [done | | done].
    by destruct (SecureAuth.passwordRejected _ _ _).
  - rewrite (bool_decide_eq_false_2 _ Ha).
    destruct (decide (SecureAuth.userType req = js "school")) as [Hs | Hs].
    + rewrite (bool_decide_eq_true_2 _ Hs).
      destruct (SecureAuth.schools_by_school_id db _) as [| [school |]];
        [done | | done].
      destruct (SecureAuth.school_is_banned school); [done |].
      by destruct (SecureAuth.passwordRejected _ _ _).
    + by rewrite (bool_decide_eq_false_2 _ Hs).
Qed.

(** Whatever the body holds, a login answers 200, 400, 401, 403, 429 or,
    from the [catch] block, 500. It records one failed attempt on its key
    exactly when it answers 401 and one success exactly when it answers
    200; with every other answer it records nothing, and the limiter is as
    the rate check left it (untouched when the key could not be built). *)
Theorem attempts_follow_the_answer (now_check now_record : Z) (secret : jsstring)
    (db : SecureAuth.database) (uuid : jsstring) (body : login_body)
    (m : SecureAuth.loginAttempts) :
  (SecureAuth.status (answer (login now_check now_record secret db uuid body m)) = 401
   /\ exists key : jsstring,
        rateLimitKey body = Some key
        /\ recorded (effects (login now_check now_record secret db uuid body m))
           = [(key, false)]
        /\ attempts (login now_check now_record secret db uuid body m)
           = SecureAuth.recordAttempt now_record key false
               (snd (SecureAuth.checkRateLimit now_check key m)))
  \/ (SecureAuth.status (answer (login now_check now_record secret db uuid body m)) = 200
      /\ exists key : jsstring,
           rateLimitKey body = Some key
           /\ recorded (effects (login now_check now_record secret db uuid body m))
              = [(key, true)]
           /\ attempts (login now_check now_record secret db uuid body m)
              = SecureAuth.recordAttempt now_record key true
                  (snd (SecureAuth.checkRateLimit now_check key m)))
  \/ (In (SecureAuth.status
            (answer (login now_check now_record secret db uuid body m)))
         [400; 403; 429; 500]
      /\ recorded (effects (login now_check now_record secret db uuid body m)) = []
      /\ (attempts (login now_check now_record secret db uuid body m) = m
          \/ exists key : jsstring,
               rateLimitKey body = Some key
               /\ attempts (login now_check now_record secret db uuid body m)
                  = snd (SecureAuth.checkRateLimit now_check key m))).
Proof.
  unfold login.
  destruct (rateLimitKey body) as [key |];
    [| right; right; cbn; split; [auto 6 | split; [done | by left]]].
  destruct (SecureAuth.checkRateLimit now_check key m) as [rc m1] eqn:Hcheck.
  assert (snd (SecureAuth.checkRateLimit now_check key m) = m1) as Hm1
    by (by rewrite Hcheck).
  assert (forall (st : Z) (b : SecureAuth.body) (trace : list effect),
            In st [400; 403; 429; 500] -> recorded trace = [] ->
            In (SecureAuth.status (answer (Outcome (SecureAuth.Response st b) m1 trace)))
               [400; 403; 429; 500]
            /\ recorded (effects (Outcome (SecureAuth.Response st b) m1 trace)) = []
            /\ (attempts (Outcome (SecureAuth.Response st b) m1 trace) = m
                \/ exists key' : jsstring,
                     Some key = Some key'
                     /\ attempts (Outcome (SecureAuth.Response st b) m1 trace)
                        = snd (SecureAuth.checkRateLimit now_check key' m))) as Hquiet.
  { intros st b trace Hst Htrace. repeat split; [done | done |].
    right. exists key. by rewrite Hm1. }
  assert (forall (b : SecureAuth.body) (trace : list effect) (success : bool),
            recorded trace = [(key, success)] ->
            exists key' : jsstring,
              Some key = Some key'
              /\ recorded
                   (effects
                      (Outcome (SecureAuth.Response (if success then 200 else 401) b)
                         (SecureAuth.recordAttempt now_record key success m1) trace))
                 = [(key', success)]
              /\ attempts
                   (Outcome (SecureAuth.Response (if success then 200 else 401) b)
                      (SecureAuth.recordAttempt now_record key success m1) trace)
                 = SecureAuth.recordAttempt now_record key' success
                     (snd (SecureAuth.checkRateLimit now_check key' m))) as Hloud.
  { intros b trace success Htrace. exists key. by rewrite Hm1. }
  destruct (SecureAuth.allowed rc); cbn [negb];
    [| right; right; apply Hquiet; [cbn; auto 6 | done]].
  destruct (is_text (userType body) (js "admin")).
  - destruct (print (identifier body)) as [filter |];
      [| right; right; apply Hquiet; [cbn; auto 6 | done]].
    destruct (SecureAuth.admins_by_admin_id db filter) as [| [admin |]].
    + left. split; [done |]. by apply (Hloud _ _ false).
    + destruct (check secret (password body) (SecureAuth.admin_password_hash admin)).
      * right; left. split; [done |]. by apply (Hloud _ _ true).
      * left. split; [done |]. by apply (Hloud _ _ false).
      * right; right. apply Hquiet; [cbn; auto 6 | done].
    + left. split; [done |]. by apply (Hloud _ _ false).
  - destruct (is_text (userType body) (js "school")).
    + destruct (print (identifier body)) as [filter |];
        [| right; right; apply Hquiet; [cbn; auto 6 | done]].
      destruct (SecureAuth.schools_by_school_id db filter) as [| [school |]].
      * left. split; [done |]. by apply (Hloud _ _ false).
      * destruct (SecureAuth.school_is_banned school);
          [right; right; apply Hquiet; [cbn; auto 6 | done] |].
        destruct (check secret (password body) (SecureAuth.school_password_hash school)).
        -- right; left. split; [done |]. by apply (Hloud _ _ true).
        -- left. split; [done |]. by apply (Hloud _ _ false).
        -- right; right. apply Hquiet; [cbn; auto 6 | done].
      * left. split; [done |]. by apply (Hloud _ _ false).
    + right; right. apply Hquiet; [cbn; auto 6 | done].
Qed.

(** A login without a password, or with [null] for it, is answered 500
    once the row of the principal is found (and, for a school, is not
    suspended); nothing is recorded, so such requests are not counted. *)
Lemma missing_password_is_answered_500 (now_check now_record : Z) (secret : jsstring)
    (db : SecureAuth.database) (uuid : jsstring) (body : login_body)
    (m : SecureAuth.loginAttempts) (key filter : jsstring)
    (admin : SecureAuth.admin_row) :
  userType body = Text (js "admin") ->
  password body = PasswordMissing ->
  rateLimitKey body = Some key ->
  print (identifier body) = Some filter ->
  SecureAuth.allowed (fst (SecureAuth.checkRateLimit now_check key m)) = true ->
  SecureAuth.admins_by_admin_id db filter = SecureAuth.LookupData (Some admin) ->
  login now_check now_record secret db uuid body m
  = Outcome internal_server_error (snd (SecureAuth.checkRateLimit now_check key m))
      [SelectAdmin filter].
Proof.
  intros Htype Hpassword Hkey Hfilter Hallowed Hrow. unfold login.
  rewrite Hkey. destruct (SecureAuth.checkRateLimit now_check key m) as [rc m1].
  cbn [fst snd] in *. rewrite Hallowed, Htype, Hfilter, Hrow, Hpassword. done.
Qed.

Example missing_password_sample :
  login 1000 1001 (js "service-role-key")
    (SecureAuth.Database
       (fun _ =>
          SecureAuth.LookupData
            (Some (SecureAuth.AdminRow (js "u-1") (js "root") (js "Root") (js "super")
                     (js "legacy-plain"))))
       (fun _ => SecureAuth.LookupData None))
    (js "uuid")
    (Body (Text (js "admin")) (Text (js "root")) PasswordMissing None None) ∅
  = Outcome internal_server_error ∅ [SelectAdmin (js "root")].
Proof. reflexivity. Qed.

(** The client address the key falls back on is never empty: the first
    entry of [x-forwarded-for] without surrounding white space, else
    [cf-connecting-ip], else [unknown]. When the key can be built it is the
    text of the user type, a colon and a name: the text of the identifier
    when that is truthy, else the client address. The name is empty only
    for a truthy identifier that is not a string and prints as the empty
    text, as an empty array does. The key cannot be built exactly when
    printing the user type, or a truthy identifier, throws. *)
Theorem key_always_names_a_client (body : login_body) :
  clientIp body <> []
  /\ (x_forwarded_for body = None -> truthy (cf_connecting_ip body) = false ->
      clientIp body = js "unknown")
  /\ (forall key : jsstring,
        rateLimitKey body = Some key ->
        exists type name : jsstring,
          print (userType body) = Some type
          /\ key = type ++ js ":" ++ name
          /\ (truthy_value (identifier body) = false -> name = clientIp body)
          /\ (truthy_value (identifier body) = true ->
              print (identifier body) = Some name)
          /\ (name = [] -> identifier body = Other true (Some [])))
  /\ (rateLimitKey body = None
      <-> print (userType body) = None
          \/ (truthy_value (identifier body) = true
              /\ print (identifier body) = None)).
Proof.
  assert (forall v : option jsstring, truthy v = true -> text_of v <> []) as Ht.
  { intros [[| c s] |]; cbn; discriminate. }
  assert (clientIp body <> []) as Hip.
  { unfold clientIp.
    destruct (truthy (match x_forwarded_for body with
                      | Some v => Some (trim (hd [] (split 44 v)))
                      | None => None
                      end)) eqn:Hf; [by apply Ht |].
    destruct (truthy (cf_connecting_ip body)) eqn:Hc; [by apply Ht | discriminate]. }
  split; [done |]. split.
  { intros Hx Hc. unfold clientIp. by rewrite Hx, Hc. }
  unfold rateLimitKey.
  destruct (print (userType body)) as [type |]; [| split; [done | split; auto]].
  destruct (truthy_value (identifier body)) eqn:Hid.
  - destruct (print (identifier body)) as [name |] eqn:Hname.
    + split.
      * intros key [= <-]. exists type, name. repeat split; try done.
        intros ->. destruct (identifier body) as [[| c s] | | t p];
          cbn in Hid, Hname; try discriminate. by simplify_eq.
      * split; [done | intros [? | [_ ?]]; done].
    + split; [done |]. split; auto.
  - split.
    + intros key [= <-]. exists type, (clientIp body). repeat split; done.
    + split; [done | intros [? | [? _]]; done].
Qed.

Example empty_array_identifier :
  rateLimitKey (Body (Text (js "admin")) (Other true (Some [])) PasswordMissing None None)
  = Some (js "admin:").
Proof. reflexivity. Qed.

End LoginBodyFacts.
